(** * Taximeter simulator: fare engine, sample classifier, session records

    A shallow embedding of the TypeScript sources

      - [src/lib/fare.ts]    presets, [createFareRuntime], [updateFareBySegment]
      - [src/lib/geo.ts]     [formatDuration]
      - [App.tsx]            [getNoisySampleReason], the location callback,
                             the session handlers
      - [src/lib/history.ts] the history log and the session snapshot

    A JavaScript [number] is an IEEE-754 binary64 value.  Rocq's primitive
    floats are that type, with the same round-to-nearest-even arithmetic, so
    the program is run on them: [a + b] below is the addition the JavaScript
    engine performs, and a decimal literal denotes the binary64 value
    nearest to it, as it does in the source.  The fare engine is written once
    over the arithmetic interface [JsNumber]; next to the binary64 instance
    the file gives an instance over exact rationals, used only where a
    statement is explicitly about rounding-free arithmetic. *)

From Stdlib Require Import Floats ZArith QArith Qcanon Qround Bool List Lia Lqa Zpower.
From Stdlib Require Import Ascii String DecimalString.
From stdpp Require Import gmap strings.
Import ListNotations.

Set Warnings "-inexact-float,-register-all".
Local Open Scope Z_scope.

(** ** The arithmetic the sources use *)

Class JsNumber (num : Type) := {
  nzero      : num;                   (* the literal [0] *)
  nadd       : num -> num -> num;     (* [a + b] *)
  nsub       : num -> num -> num;     (* [a - b] *)
  nmul       : num -> num -> num;     (* [a * b] *)
  ndiv       : num -> num -> num;     (* [a / b] *)
  nleb       : num -> num -> bool;    (* [a <= b] *)
  nltb       : num -> num -> bool;    (* [a < b]; [a > b] is [nltb b a] *)
  isFinite   : num -> bool;           (* [Number.isFinite(a)] *)
  Math_floor : num -> num;            (* [Math.floor(a)] *)
  Math_min   : num -> num -> num;     (* [Math.min(a, b)] *)
  Math_max   : num -> num -> num;     (* [Math.max(a, b)] *)
}.

(** ** binary64: the numbers of the JavaScript runtime *)

Module Binary64.

(** [Math.floor] on the IEEE-754 datum: NaN, the infinities and the zeros
    are returned as they are, so is every value whose exponent is not
    negative (it is an integer); otherwise the fraction bits are dropped,
    rounding towards minus infinity. *)
Definition floorSF (x : spec_float) : spec_float :=
  match x with
  | S754_finite s m e =>
      if 0 <=? e then x
      else
        let q := Z.shiftr (Zpos m) (- e) in
        if s then
          let c := if Z.land (Zpos m) (Z.ones (- e)) =? 0 then q else q + 1 in
          binary_normalize prec emax (- c) 0 true
        else binary_normalize prec emax q 0 false
  | _ => x
  end.

Definition floor (x : float) : float := SF2Prim (floorSF (Prim2SF x)).

(** [Math.min]: NaN if either argument is NaN, and [-0] is below [+0]. *)
Definition min (a b : float) : float :=
  if PrimFloat.is_nan a then a
  else if PrimFloat.is_nan b then b
  else if PrimFloat.ltb a b then a
  else if PrimFloat.ltb b a then b
  else if PrimFloat.is_zero a then (if PrimFloat.get_sign a then a else b)
  else a.

(** [Math.max]: NaN if either argument is NaN, and [+0] is above [-0]. *)
Definition max (a b : float) : float :=
  if PrimFloat.is_nan a then a
  else if PrimFloat.is_nan b then b
  else if PrimFloat.ltb a b then b
  else if PrimFloat.ltb b a then a
  else if PrimFloat.is_zero a then (if PrimFloat.get_sign a then b else a)
  else a.

(** The integer [n] as a binary64 value (exact for [|n| < 2^53]). *)
Definition ofZ (n : Z) : float := SF2Prim (binary_normalize prec emax n 0 false).

(** The value of a finite datum with a non-negative exponent, and of the
    zeros, as an integer; [None] for every other datum. *)
Definition toZ (x : float) : option Z :=
  match Prim2SF x with
  | S754_zero _ => Some 0
  | S754_finite s m e =>
      if 0 <=? e then Some (cond_Zopp s (Zpos m * 2 ^ e))
      else if Z.land (Zpos m) (Z.ones (- e)) =? 0
           then Some (cond_Zopp s (Z.shiftr (Zpos m) (- e)))
           else None
  | _ => None
  end.

(** ** Predicates on IEEE-754 data used to state the arithmetic facts *)

Definition finiteSF (x : spec_float) : bool :=
  match x with S754_zero _ | S754_finite _ _ _ => true | _ => false end.

(** Strictly positive: a positive finite value or plus infinity. *)
Definition posSF (x : spec_float) : bool :=
  match x with S754_infinity false | S754_finite false _ _ => true | _ => false end.

(** Not below zero and not NaN. *)
Definition nonnegSF (x : spec_float) : bool :=
  match x with
  | S754_zero _ | S754_infinity false | S754_finite false _ _ => true
  | _ => false
  end.

(** The last stage of [binary_round_aux] on a rounded mantissa [m2] at
    exponent [F]: renormalise, then give zero, a finite value or
    infinity. *)
Definition finalSF (m2 F : Z) : spec_float :=
  let F' := Z.max F (SpecFloat.fexp prec emax (Zdigits2 m2 + F)) in
  match m2 / 2 ^ (F' - F) with
  | Z0 => S754_zero false
  | Zpos m => if F' <=? emax - prec then S754_finite false m F' else S754_infinity false
  | Zneg _ => S754_nan
  end.

(** [r] is at least the positive finite value [(mx, ex)]. *)
Definition geSF (mx : positive) (ex : Z) (r : spec_float) : Prop :=
  match r with
  | S754_infinity false => True
  | S754_finite false m e => ex < e \/ (e = ex /\ Zpos mx <= Zpos m)
  | _ => False
  end.

(** [r] is zero or a positive finite value at most [(mx, ex)]. *)
Definition leSF (mx : positive) (ex : Z) (r : spec_float) : Prop :=
  match r with
  | S754_zero false => True
  | S754_finite false m e => e < ex \/ (e = ex /\ Zpos m <= Zpos mx)
  | _ => False
  end.

End Binary64.

#[export] Instance binary64 : JsNumber float := {
  nzero := 0%float;
  nadd := PrimFloat.add;
  nsub := PrimFloat.sub;
  nmul := PrimFloat.mul;
  ndiv := PrimFloat.div;
  nleb := PrimFloat.leb;
  nltb := PrimFloat.ltb;
  isFinite := PrimFloat.is_finite;
  Math_floor := Binary64.floor;
  Math_min := Binary64.min;
  Math_max := Binary64.max;
}.

(** ** Exact rationals: the same interface without rounding

    Every value is finite; [floor] is the integer part towards minus
    infinity.  Division is total on [Qc] (it returns [0] for a zero
    divisor); the statements over this instance assume positive steps. *)

Module Exact.

Definition leb (a b : Qc) : bool := Qle_bool a b.
Definition ltb (a b : Qc) : bool := negb (Qle_bool b a).
Definition floor (a : Qc) : Qc := Q2Qc (inject_Z (Qfloor a)).
Definition min (a b : Qc) : Qc := if Qle_bool a b then a else b.
Definition max (a b : Qc) : Qc := if Qle_bool a b then b else a.

(** The decimal [m / 10^k], e.g. [dec 255 3] for [0.255]. *)
Definition dec (m : Z) (k : nat) : Qc := Q2Qc (m # Pos.of_nat (10 ^ k)).

End Exact.

#[export] Instance exact : JsNumber Qc := {
  nzero := 0%Qc;
  nadd := Qcplus;
  nsub := Qcminus;
  nmul := Qcmult;
  ndiv := Qcdiv;
  nleb := Exact.leb;
  nltb := Exact.ltb;
  isFinite := fun _ => true;
  Math_floor := Exact.floor;
  Math_min := Exact.min;
  Math_max := Exact.max;
}.

(** ** fare.ts *)

Record FarePreset (num : Type) := {
  id : string;
  label : string;
  baseFareYen : num;
  baseDistanceKm : num;
  distanceStepKm : num;
  distanceStepFareYen : num;
  lowSpeedThresholdKmh : num;
  lowSpeedStepSeconds : num;
  lowSpeedStepFareYen : num;
}.

Record FareRuntime (num : Type) := {
  baseDistanceRemainingKm : num;
  distanceRemainderKm : num;
  lowSpeedRemainderSeconds : num;
  fareYen : num;
}.

Arguments id {num} _.
Arguments label {num} _.
Arguments baseFareYen {num} _.
Arguments baseDistanceKm {num} _.
Arguments distanceStepKm {num} _.
Arguments distanceStepFareYen {num} _.
Arguments lowSpeedThresholdKmh {num} _.
Arguments lowSpeedStepSeconds {num} _.
Arguments lowSpeedStepFareYen {num} _.
Arguments baseDistanceRemainingKm {num} _.
Arguments distanceRemainderKm {num} _.
Arguments lowSpeedRemainderSeconds {num} _.
Arguments fareYen {num} _.

(** The argument object of [updateFareBySegment], less the preset and the
    runtime. *)
Record Segment (num : Type) := {
  deltaDistanceKm : num;
  deltaSeconds : num;
  speedKmh : num;
}.

Arguments deltaDistanceKm {num} _.
Arguments deltaSeconds {num} _.
Arguments speedKmh {num} _.

Section Fare.

Context {num : Type} `{JsNumber num}.

Definition createFareRuntime (preset : FarePreset num) : FareRuntime num :=
  {| baseDistanceRemainingKm := baseDistanceKm preset;
     distanceRemainderKm := nzero;
     lowSpeedRemainderSeconds := nzero;
     fareYen := baseFareYen preset |}.

(** The guard of lines 73-75: the segment is dropped. *)
Definition rejectedSegment (seg : Segment num) : bool :=
  negb (isFinite (deltaDistanceKm seg))
  || negb (isFinite (deltaSeconds seg))
  || nleb (deltaSeconds seg) nzero.

Definition inLowSpeedMode (preset : FarePreset num) (seg : Segment num) : bool :=
  nleb (speedKmh seg) (lowSpeedThresholdKmh preset).

(** [timeSteps] is the constant of line 81, computed from the remainder
    line 80 has just increased. *)
Definition timeSteps (preset : FarePreset num) (remainder : num) : num :=
  Math_floor (ndiv remainder (lowSpeedStepSeconds preset)).

(** The low-speed branch, lines 79-87. *)
Definition chargeLowSpeed (preset : FarePreset num) (next : FareRuntime num)
           (seg : Segment num) : FareRuntime num :=
  let remainder := nadd (lowSpeedRemainderSeconds next) (deltaSeconds seg) in
  let steps := timeSteps preset remainder in
  if nltb nzero steps then
    {| baseDistanceRemainingKm := baseDistanceRemainingKm next;
       distanceRemainderKm := distanceRemainderKm next;
       lowSpeedRemainderSeconds :=
         nsub remainder (nmul steps (lowSpeedStepSeconds preset));
       fareYen := nadd (fareYen next) (nmul steps (lowSpeedStepFareYen preset)) |}
  else
    {| baseDistanceRemainingKm := baseDistanceRemainingKm next;
       distanceRemainderKm := distanceRemainderKm next;
       lowSpeedRemainderSeconds := remainder;
       fareYen := fareYen next |}.

(** Lines 89-94: the free base distance is used up first.  The result is
    the new [baseDistanceRemainingKm] and the new [chargeableDistance]. *)
Definition consumeBaseDistance (next : FareRuntime num) (seg : Segment num)
  : num * num :=
  let chargeableDistance := deltaDistanceKm seg in
  if nltb nzero (baseDistanceRemainingKm next) then
    let consumed := Math_min (baseDistanceRemainingKm next) chargeableDistance in
    (nsub (baseDistanceRemainingKm next) consumed, nsub chargeableDistance consumed)
  else (baseDistanceRemainingKm next, chargeableDistance).

(** [distanceSteps] is the constant of line 98. *)
Definition distanceSteps (preset : FarePreset num) (remainder : num) : num :=
  Math_floor (ndiv remainder (distanceStepKm preset)).

(** The distance branch, lines 89-105. *)
Definition chargeDistance (preset : FarePreset num) (next : FareRuntime num)
           (seg : Segment num) : FareRuntime num :=
  let baseRemaining := fst (consumeBaseDistance next seg) in
  let chargeableDistance := snd (consumeBaseDistance next seg) in
  if nltb nzero chargeableDistance then
    let remainder := nadd (distanceRemainderKm next) chargeableDistance in
    let steps := distanceSteps preset remainder in
    if nltb nzero steps then
      {| baseDistanceRemainingKm := baseRemaining;
         distanceRemainderKm := nsub remainder (nmul steps (distanceStepKm preset));
         lowSpeedRemainderSeconds := lowSpeedRemainderSeconds next;
         fareYen := nadd (fareYen next) (nmul steps (distanceStepFareYen preset)) |}
    else
      {| baseDistanceRemainingKm := baseRemaining;
         distanceRemainderKm := remainder;
         lowSpeedRemainderSeconds := lowSpeedRemainderSeconds next;
         fareYen := fareYen next |}
  else
    {| baseDistanceRemainingKm := baseRemaining;
       distanceRemainderKm := distanceRemainderKm next;
       lowSpeedRemainderSeconds := lowSpeedRemainderSeconds next;
       fareYen := fareYen next |}.

Definition updateFareBySegment (preset : FarePreset num) (runtime : FareRuntime num)
           (seg : Segment num) : FareRuntime num :=
  let next := runtime in
  if rejectedSegment seg then next
  else if inLowSpeedMode preset seg then chargeLowSpeed preset next seg
  else chargeDistance preset next seg.

(** A run of the meter: the segments are applied in order, each call
    receiving the runtime the previous one returned. *)
Definition applySegments (preset : FarePreset num) (runtime : FareRuntime num)
           (segs : list (Segment num)) : FareRuntime num :=
  fold_left (updateFareBySegment preset) segs runtime.

(** The preset invariant of the data model: every numeric field is
    positive, the threshold is not negative. *)
Definition presetInvariant (preset : FarePreset num) : bool :=
  nltb nzero (baseFareYen preset)
  && nltb nzero (baseDistanceKm preset)
  && nltb nzero (distanceStepKm preset)
  && nltb nzero (distanceStepFareYen preset)
  && nleb nzero (lowSpeedThresholdKmh preset)
  && nltb nzero (lowSpeedStepSeconds preset)
  && nltb nzero (lowSpeedStepFareYen preset).

(** A valid segment: finite deltas and a positive duration. *)
Definition validSegment (seg : Segment num) : bool :=
  isFinite (deltaDistanceKm seg)
  && isFinite (deltaSeconds seg)
  && nltb nzero (deltaSeconds seg).

(** A segment as the location callback passes it: the distance has been
    clamped with [Math.max(0, deltaKm)], so it is not negative. *)
Definition nonNegativeDistance (seg : Segment num) : bool :=
  nleb nzero (deltaDistanceKm seg).

(** The remainder-range invariant of a runtime. *)
Definition remainderInvariant (preset : FarePreset num) (runtime : FareRuntime num)
  : bool :=
  nleb nzero (distanceRemainderKm runtime)
  && nltb (distanceRemainderKm runtime) (distanceStepKm preset)
  && nleb nzero (lowSpeedRemainderSeconds runtime)
  && nltb (lowSpeedRemainderSeconds runtime) (lowSpeedStepSeconds preset).

(** What a call may do to the free base distance: it does not raise it,
    and leaves it between zero and the allowance of the preset. *)
Definition baseDistanceInvariant (preset : FarePreset num)
           (before after : FareRuntime num) : bool :=
  nleb (baseDistanceRemainingKm after) (baseDistanceRemainingKm before)
  && nleb nzero (baseDistanceRemainingKm after)
  && nleb (baseDistanceRemainingKm after) (baseDistanceKm preset).

(** *** The iterative reference of the step computation

    Written from the design notes, not from the source: while the
    remainder is at least one step, take one step off it and add one step
    fare.  [fuel] bounds the number of turns of the loop. *)
Fixpoint chargeStepsLoop (fuel : nat) (step stepFare remainder fare : num)
  : num * num :=
  match fuel with
  | O => (remainder, fare)
  | S fuel' =>
      if nleb step remainder
      then chargeStepsLoop fuel' step stepFare (nsub remainder step) (nadd fare stepFare)
      else (remainder, fare)
  end.

Definition referenceLowSpeed (fuel : nat) (preset : FarePreset num)
           (next : FareRuntime num) (seg : Segment num) : FareRuntime num :=
  let remainder := nadd (lowSpeedRemainderSeconds next) (deltaSeconds seg) in
  let result := chargeStepsLoop fuel (lowSpeedStepSeconds preset)
                  (lowSpeedStepFareYen preset) remainder (fareYen next) in
  {| baseDistanceRemainingKm := baseDistanceRemainingKm next;
     distanceRemainderKm := distanceRemainderKm next;
     lowSpeedRemainderSeconds := fst result;
     fareYen := snd result |}.

Definition referenceDistance (fuel : nat) (preset : FarePreset num)
           (next : FareRuntime num) (seg : Segment num) : FareRuntime num :=
  let baseRemaining := fst (consumeBaseDistance next seg) in
  let chargeableDistance := snd (consumeBaseDistance next seg) in
  if nltb nzero chargeableDistance then
    let remainder := nadd (distanceRemainderKm next) chargeableDistance in
    let result := chargeStepsLoop fuel (distanceStepKm preset)
                    (distanceStepFareYen preset) remainder (fareYen next) in
    {| baseDistanceRemainingKm := baseRemaining;
       distanceRemainderKm := fst result;
       lowSpeedRemainderSeconds := lowSpeedRemainderSeconds next;
       fareYen := snd result |}
  else
    {| baseDistanceRemainingKm := baseRemaining;
       distanceRemainderKm := distanceRemainderKm next;
       lowSpeedRemainderSeconds := lowSpeedRemainderSeconds next;
       fareYen := fareYen next |}.

Definition referenceUpdate (fuel : nat) (preset : FarePreset num)
           (runtime : FareRuntime num) (seg : Segment num) : FareRuntime num :=
  if rejectedSegment seg then runtime
  else if inLowSpeedMode preset seg then referenceLowSpeed fuel preset runtime seg
  else referenceDistance fuel preset runtime seg.

(** The loop of the reference has come to its end: one more turn would
    not change the runtime. *)
Definition referenceSettled (preset : FarePreset num) (runtime : FareRuntime num)
  : bool :=
  negb (nleb (distanceStepKm preset) (distanceRemainderKm runtime))
  && negb (nleb (lowSpeedStepSeconds preset) (lowSpeedRemainderSeconds runtime)).

End Fare.

(** The configured presets. *)
Definition FARE_PRESETS : list (FarePreset float) :=
  [ {| id := "tokyo"; label := "東京";
       baseFareYen := 500; baseDistanceKm := 1.0;
       distanceStepKm := 0.255; distanceStepFareYen := 100;
       lowSpeedThresholdKmh := 10; lowSpeedStepSeconds := 90;
       lowSpeedStepFareYen := 100 |};
    {| id := "osaka"; label := "大阪";
       baseFareYen := 600; baseDistanceKm := 1.3;
       distanceStepKm := 0.26; distanceStepFareYen := 100;
       lowSpeedThresholdKmh := 10; lowSpeedStepSeconds := 95;
       lowSpeedStepFareYen := 100 |} ]%float.

(** [FARE_PRESETS[0]!] *)
Definition DEFAULT_FARE_PRESET : FarePreset float :=
  match FARE_PRESETS with
  | preset :: _ => preset
  | [] => {| id := ""; label := ""; baseFareYen := 0; baseDistanceKm := 0;
             distanceStepKm := 0; distanceStepFareYen := 0;
             lowSpeedThresholdKmh := 0; lowSpeedStepSeconds := 0;
             lowSpeedStepFareYen := 0 |}%float
  end.

(** [FARE_PRESETS.find(p => p.id === id) ?? DEFAULT_FARE_PRESET] *)
Definition getPresetById (presetId : string) : FarePreset float :=
  match find (fun preset => String.eqb (id preset) presetId) FARE_PRESETS with
  | Some preset => preset
  | None => DEFAULT_FARE_PRESET
  end.

(** The preset of the distance-mode example of the design: the Tokyo
    schedule. *)
Definition tokyo : FarePreset float := getPresetById "tokyo".

(** The Tokyo schedule with a low-speed step one unit in the last place
    above one second. *)
Definition tokyoOffGrid : FarePreset float :=
  {| id := "tokyo"; label := "東京";
     baseFareYen := 500; baseDistanceKm := 1.0;
     distanceStepKm := 0.255; distanceStepFareYen := 100;
     lowSpeedThresholdKmh := 10; lowSpeedStepSeconds := 1.0000000000000002;
     lowSpeedStepFareYen := 100 |}%float.

(** The same schedule in exact decimal arithmetic. *)
Definition tokyoExact : FarePreset Qc :=
  {| id := "tokyo"; label := "東京";
     baseFareYen := Exact.dec 500 0; baseDistanceKm := Exact.dec 1 0;
     distanceStepKm := Exact.dec 255 3; distanceStepFareYen := Exact.dec 100 0;
     lowSpeedThresholdKmh := Exact.dec 10 0; lowSpeedStepSeconds := Exact.dec 90 0;
     lowSpeedStepFareYen := Exact.dec 100 0 |}.

(** ** The host environment

    What the sources take from the JavaScript engine and from the Expo
    runtime.  ECMAScript leaves the results of [Math.sin], [Math.cos] and
    [Math.atan2] to the implementation; [Number.prototype.toString] and the
    JSON text codec are built in.  [JSON_parse] returns [None] where
    [JSON.parse] throws. *)

Inductive json :=
| JNull
| JBool (b : bool)
| JNumber (x : float)
| JString (s : string)
| JArray (items : list json)
| JObject (fields : list (string * json)).

Class Host := {
  Number_toString : float -> string;
  JSON_parse : string -> option json;
  JSON_stringify : json -> string;
  documentDirectory : option string;
  Math_sin : float -> float;
  Math_cos : float -> float;
  Math_atan2 : float -> float -> float;
  Date_toLocaleString : float -> string;  (* [new Date(ms).toLocaleString()] *)
}.

(** [!value] for a JSON value: [null], [false], [0], [NaN] and the empty
    string are falsy. *)
Definition jsonFalsy (v : json) : bool :=
  match v with
  | JNull => true
  | JBool b => negb b
  | JNumber x => PrimFloat.is_nan x || PrimFloat.is_zero x
  | JString s => String.eqb s ""
  | JArray _ | JObject _ => false
  end.

(** [typeof value === 'object'] *)
Definition jsonTypeofObject (v : json) : bool :=
  match v with
  | JNull | JArray _ | JObject _ => true
  | _ => false
  end.

(** A value of type [number | null] used as a condition. *)
Definition truthy (v : option float) : bool :=
  match v with
  | None => false
  | Some x => negb (PrimFloat.is_nan x || PrimFloat.is_zero x)
  end.

(** How [JSON.stringify] sees a number: the non-finite ones become [null]. *)
Definition jsonOfNumber (x : float) : json :=
  if PrimFloat.is_finite x then JNumber x else JNull.

(** A property of type [number | undefined]: an undefined property is left
    out of the object. *)
Definition jsonOptionalField (key : string) (v : option float) : list (string * json) :=
  match v with
  | Some x => [(key, jsonOfNumber x)]
  | None => []
  end.

(** ** geo.ts *)

Record LatLng := { latitude : float; longitude : float }.

Module Geo.

(** The remainder [x % y] on IEEE-754 data: exact, with the sign of the
    dividend. *)
Definition remSF (x y : spec_float) : spec_float :=
  match x, y with
  | S754_nan, _ | _, S754_nan => S754_nan
  | S754_infinity _, _ => S754_nan
  | _, S754_zero _ => S754_nan
  | _, S754_infinity _ => x
  | S754_zero _, _ => x
  | S754_finite sx mx ex, S754_finite _ my ey =>
      let e := Z.min ex ey in
      let r := Z.rem (Zpos mx * 2 ^ (ex - e)) (Zpos my * 2 ^ (ey - e)) in
      binary_normalize prec emax (cond_Zopp sx r) e sx
  end.

Definition rem (x y : float) : float := SF2Prim (remSF (Prim2SF x) (Prim2SF y)).

(** [s.padStart(2, '0')] *)
Definition padStart2 (s : string) : string :=
  match String.length s with
  | O => "00" ++ s
  | S O => "0" ++ s
  | _ => s
  end.

Section WithHost.
Context `{Host}.

Definition EARTH_RADIUS_KM : float := 6371%float.
Definition Math_PI : float := 3.141592653589793%float.

Definition toRadians (value : float) : float := (value * Math_PI / 180)%float.

Definition distanceKmBetween (a b : LatLng) : float :=
  let dLat := toRadians (latitude b - latitude a)%float in
  let dLon := toRadians (longitude b - longitude a)%float in
  let lat1 := toRadians (latitude a) in
  let lat2 := toRadians (latitude b) in
  let h := (Math_sin (dLat / 2) * Math_sin (dLat / 2)
            + Math_cos lat1 * Math_cos lat2 * Math_sin (dLon / 2) * Math_sin (dLon / 2))%float in
  let c := (2 * Math_atan2 (PrimFloat.sqrt h) (PrimFloat.sqrt (1 - h)))%float in
  (EARTH_RADIUS_KM * c)%float.

Definition formatDuration (ms : float) : string :=
  let totalSeconds := Binary64.max 0 (Binary64.floor (ms / 1000)) in
  let h := padStart2 (Number_toString (Binary64.floor (totalSeconds / 3600))) in
  let m := padStart2 (Number_toString (Binary64.floor (rem totalSeconds 3600 / 60))) in
  let s := padStart2 (Number_toString (Binary64.floor (rem totalSeconds 60))) in
  h ++ ":" ++ m ++ ":" ++ s.

End WithHost.

End Geo.

(** ** history.ts *)

Inductive SessionEventType := start | pause | resume | finish.

Record SessionEvent := { atMs : float; type : SessionEventType }.

Record PauseLog := { pausedAtMs : float; resumedAtMs : float; durationMs : float }.

Inductive BillingMode := distance | time | unknown.

(** ['running' | 'paused'], the state a snapshot is taken in. *)
Inductive SnapshotState := snapshotRunning | snapshotPaused.

Module DriveHistoryItem.
Record t := {
  id : string;
  createdAtMs : float;
  startedAtMs : float;
  finishedAtMs : float;
  elapsedMs : float;
  distanceKm : float;
  fareYen : float;
  presetId : string;
  from : option LatLng;
  to : option LatLng;
  acceptedSamples : float;
  filteredSamples : float;
  (* declared [number]; the value read off the runtime may be
     [undefined], which is [None] here *)
  distanceChargeSteps : option float;
  timeChargeSteps : option float;
  pauseLogs : list PauseLog;
  events : list SessionEvent;
}.
End DriveHistoryItem.

Module SessionSnapshot.
Record t := {
  savedAtMs : float;
  sessionState : SnapshotState;
  startedAtMs : float;
  elapsedMs : float;
  distanceKm : float;
  fareYen : float;
  billingMode : BillingMode;
  selectedPresetId : string;
  acceptedSamples : float;
  filteredSamples : float;
  fareRuntime : FareRuntime float;
  from : option LatLng;
  to : option LatLng;
  pauseLogs : list PauseLog;
  events : list SessionEvent;
}.
End SessionSnapshot.

(** The objects as [JSON.stringify] sees them. *)
Module ToJson.

Definition latLng (p : option LatLng) : json :=
  match p with
  | None => JNull
  | Some q => JObject [("latitude", jsonOfNumber (latitude q));
                       ("longitude", jsonOfNumber (longitude q))]
  end.

Definition eventType (t : SessionEventType) : json :=
  JString match t with
          | start => "start" | pause => "pause"
          | resume => "resume" | finish => "finish"
          end.

Definition event (e : SessionEvent) : json :=
  JObject [("type", eventType (type e)); ("atMs", jsonOfNumber (atMs e))].

Definition pauseLog (p : PauseLog) : json :=
  JObject [("pausedAtMs", jsonOfNumber (pausedAtMs p));
           ("resumedAtMs", jsonOfNumber (resumedAtMs p));
           ("durationMs", jsonOfNumber (durationMs p))].

Definition fareRuntime (r : FareRuntime float) : json :=
  JObject [("baseDistanceRemainingKm", jsonOfNumber (baseDistanceRemainingKm r));
           ("distanceRemainderKm", jsonOfNumber (distanceRemainderKm r));
           ("lowSpeedRemainderSeconds", jsonOfNumber (lowSpeedRemainderSeconds r));
           ("fareYen", jsonOfNumber (fareYen r))].

Definition billingMode (m : BillingMode) : json :=
  JString match m with
          | distance => "distance" | time => "time" | unknown => "unknown"
          end.

Definition snapshotState (s : SnapshotState) : json :=
  JString match s with snapshotRunning => "running" | snapshotPaused => "paused" end.

Definition driveHistoryItem (item : DriveHistoryItem.t) : json :=
  JObject ([("id", JString (DriveHistoryItem.id item));
            ("createdAtMs", jsonOfNumber (DriveHistoryItem.createdAtMs item));
            ("startedAtMs", jsonOfNumber (DriveHistoryItem.startedAtMs item));
            ("finishedAtMs", jsonOfNumber (DriveHistoryItem.finishedAtMs item));
            ("elapsedMs", jsonOfNumber (DriveHistoryItem.elapsedMs item));
            ("distanceKm", jsonOfNumber (DriveHistoryItem.distanceKm item));
            ("fareYen", jsonOfNumber (DriveHistoryItem.fareYen item));
            ("presetId", JString (DriveHistoryItem.presetId item));
            ("from", latLng (DriveHistoryItem.from item));
            ("to", latLng (DriveHistoryItem.to item));
            ("acceptedSamples", jsonOfNumber (DriveHistoryItem.acceptedSamples item));
            ("filteredSamples", jsonOfNumber (DriveHistoryItem.filteredSamples item))]
           ++ jsonOptionalField "distanceChargeSteps" (DriveHistoryItem.distanceChargeSteps item)
           ++ jsonOptionalField "timeChargeSteps" (DriveHistoryItem.timeChargeSteps item)
           ++ [("pauseLogs", JArray (map pauseLog (DriveHistoryItem.pauseLogs item)));
               ("events", JArray (map event (DriveHistoryItem.events item)))]).

Definition sessionSnapshot (s : SessionSnapshot.t) : json :=
  JObject [("savedAtMs", jsonOfNumber (SessionSnapshot.savedAtMs s));
           ("sessionState", snapshotState (SessionSnapshot.sessionState s));
           ("startedAtMs", jsonOfNumber (SessionSnapshot.startedAtMs s));
           ("elapsedMs", jsonOfNumber (SessionSnapshot.elapsedMs s));
           ("distanceKm", jsonOfNumber (SessionSnapshot.distanceKm s));
           ("fareYen", jsonOfNumber (SessionSnapshot.fareYen s));
           ("billingMode", billingMode (SessionSnapshot.billingMode s));
           ("selectedPresetId", JString (SessionSnapshot.selectedPresetId s));
           ("acceptedSamples", jsonOfNumber (SessionSnapshot.acceptedSamples s));
           ("filteredSamples", jsonOfNumber (SessionSnapshot.filteredSamples s));
           ("fareRuntime", fareRuntime (SessionSnapshot.fareRuntime s));
           ("from", latLng (SessionSnapshot.from s));
           ("to", latLng (SessionSnapshot.to s));
           ("pauseLogs", JArray (map pauseLog (SessionSnapshot.pauseLogs s)));
           ("events", JArray (map event (SessionSnapshot.events s)))].

End ToJson.

(** The files of the document directory: a map from file URI to contents. *)
Definition FileSystem := gmap string string.

(** What becomes of an awaited write.  [FileSystem.writeAsStringAsync]
    returns a promise.  When the promise is rejected the [await] throws:
    [appendDriveHistory] and [clearSessionSnapshot] have no [try], so they
    reject in turn, and a handler that awaits them without a [try] is left
    at that line.  [remains] is what the files hold after the write that
    failed; nothing is assumed of it. *)
Inductive WriteOutcome :=
| writeResolves
| writeRejects (remains : FileSystem).

Section History.

Context `{Host}.

Definition documentPath (name : string) : string :=
  match documentDirectory with
  | Some dir => dir ++ name
  | None => name
  end.

Definition HISTORY_FILE : string := documentPath "drive-history-v1.json".
Definition SESSION_SNAPSHOT_FILE : string := documentPath "session-snapshot-v1.json".
Definition MAX_HISTORY_ITEMS : nat := 100.

(** [(await FileSystem.getInfoAsync(uri)).exists] *)
Definition getInfoAsync (fs : FileSystem) (uri : string) : bool :=
  bool_decide (is_Some (fs !! uri)).

(** [None]: the promise is rejected (there is no such file). *)
Definition readAsStringAsync (fs : FileSystem) (uri : string) : option string :=
  fs !! uri.

Definition writeAsStringAsync (fs : FileSystem) (uri contents : string) : FileSystem :=
  <[uri := contents]> fs.

(** The items are the elements of the parsed array, taken as they are:
    the cast to [DriveHistoryItem[]] checks nothing. *)
Definition loadDriveHistory (fs : FileSystem) : list json :=
  if negb (getInfoAsync fs HISTORY_FILE) then []
  else
    match readAsStringAsync fs HISTORY_FILE with
    | None => []
    | Some raw =>
        match JSON_parse raw with
        | Some (JArray parsed) => parsed
        | Some _ => []
        | None => []
        end
    end.

Definition appendDriveHistory (fs : FileSystem) (item : DriveHistoryItem.t) : FileSystem :=
  let current := loadDriveHistory fs in
  let next := firstn MAX_HISTORY_ITEMS (ToJson.driveHistoryItem item :: current) in
  writeAsStringAsync fs HISTORY_FILE (JSON_stringify (JArray next)).

(** [SessionSnapshot | null]; the value is the parsed object as it is. *)
Definition loadSessionSnapshot (fs : FileSystem) : option json :=
  if negb (getInfoAsync fs SESSION_SNAPSHOT_FILE) then None
  else
    match readAsStringAsync fs SESSION_SNAPSHOT_FILE with
    | None => None
    | Some raw =>
        match JSON_parse raw with
        | None => None
        | Some parsed =>
            if jsonFalsy parsed || negb (jsonTypeofObject parsed) then None
            else Some parsed
        end
    end.

Definition saveSessionSnapshot (fs : FileSystem) (snapshot : SessionSnapshot.t)
  : FileSystem :=
  writeAsStringAsync fs SESSION_SNAPSHOT_FILE
    (JSON_stringify (ToJson.sessionSnapshot snapshot)).

Definition clearSessionSnapshot (fs : FileSystem) : FileSystem :=
  writeAsStringAsync fs SESSION_SNAPSHOT_FILE "".

End History.

(** ** App.tsx *)

Inductive PermissionState := permissionUnknown | granted | denied.
Inductive SessionState := idle | running | paused.

Definition LOCATION_UPDATE_INTERVAL_MS : float := 1000%float.
Definition MAX_REASONABLE_SPEED_KMH : float := 180%float.
Definition POOR_ACCURACY_METERS : float := 80%float.
Definition MAX_DISTANCE_FACTOR_KM_PER_SEC : float :=
  (MAX_REASONABLE_SPEED_KMH / 3600 * 1.5)%float.

(** The first guard of the classifier, line 55. *)
Definition invalidDelta (deltaKm deltaSeconds : float) : bool :=
  negb (PrimFloat.is_finite deltaKm)
  || negb (PrimFloat.is_finite deltaSeconds)
  || PrimFloat.leb deltaSeconds 0.

(** Line 63. *)
Definition dynamicDistanceCap (deltaSeconds : float) : float :=
  (MAX_DISTANCE_FACTOR_KM_PER_SEC * deltaSeconds + 0.02)%float.

(** [accuracyMeters !== null && accuracyMeters > POOR_ACCURACY_METERS
     && deltaKm > 0.03], line 68. *)
Definition poorAccuracyJump (deltaKm : float) (accuracyMeters : option float) : bool :=
  match accuracyMeters with
  | None => false
  | Some accuracy =>
      PrimFloat.ltb POOR_ACCURACY_METERS accuracy && PrimFloat.ltb 0.03 deltaKm
  end.

(** The result is the reason, or [None] for [null]: the sample is kept. *)
Definition getNoisySampleReason (deltaKm deltaSeconds speedKmh : float)
           (accuracyMeters : option float) : option string :=
  if invalidDelta deltaKm deltaSeconds then Some "invalid_delta"
  else if PrimFloat.ltb MAX_REASONABLE_SPEED_KMH speedKmh then Some "speed_spike"
  else if PrimFloat.ltb (dynamicDistanceCap deltaSeconds) deltaKm then Some "distance_jump"
  else if poorAccuracyJump deltaKm accuracyMeters then Some "poor_accuracy_jump"
  else None.

(** What the location callback receives: [loc.coords] and [loc.timestamp].
    [speed] and [accuracy] are [number | null]. *)
Record LocationObject := {
  coordsLatitude : float;
  coordsLongitude : float;
  coordsSpeed : option float;
  coordsAccuracy : option float;
  timestamp : float;
}.

(** Lines 245-248 of the callback: the duration, not below a tenth of a
    second, and the speed: the reported one when it is positive, else the
    one derived from the distance. *)
Definition sampleDeltaSeconds (timestampMs lastSampleTimeMs : float) : float :=
  Binary64.max 0.1 ((timestampMs - lastSampleTimeMs) / 1000)%float.

Definition sampleSpeedKmh (deltaKm deltaSeconds : float) (speed : option float) : float :=
  let rawSpeedKmh := (match speed with Some v => v | None => 0 end * 3.6)%float in
  let fallbackSpeedKmh :=
    if PrimFloat.ltb 0 deltaSeconds then (deltaKm / deltaSeconds * 3600)%float else 0%float in
  if PrimFloat.ltb 0 rawSpeedKmh then rawSpeedKmh else fallbackSpeedKmh.

(** A property read off a runtime object.  [FareRuntime] has four
    properties; any other name gives [undefined], which is [None]. *)
Definition runtimeProperty (runtime : FareRuntime float) (name : string) : option float :=
  if String.eqb name "baseDistanceRemainingKm" then Some (baseDistanceRemainingKm runtime)
  else if String.eqb name "distanceRemainderKm" then Some (distanceRemainderKm runtime)
  else if String.eqb name "lowSpeedRemainderSeconds" then Some (lowSpeedRemainderSeconds runtime)
  else if String.eqb name "fareYen" then Some (fareYen runtime)
  else None.

(** The cells of the component: the [useState] values first, then the
    [useRef] cells.  [watching] and [ticking] stand for the location
    subscription and the elapsed-time timer being set. *)
Module App.

Record t := {
  permission : PermissionState;
  sessionState : SessionState;
  selectedPresetId : string;
  startedAtMs : option float;
  elapsedMs : float;
  distanceKm : float;
  speedKmh : option float;
  fareYen : float;
  billingMode : BillingMode;
  acceptedSamples : float;
  filteredSamples : float;
  historyItems : list DriveHistoryItem.t;
  restorableSnapshot : option SessionSnapshot.t;
  errorMessage : option string;
  watching : bool;
  ticking : bool;
  lastPoint : option LatLng;
  lastSampleTimeMs : option float;
  fareRuntimeRef : FareRuntime float;
  elapsedAccumulatedMsRef : float;
  runningSegmentStartMsRef : option float;
  firstAcceptedPointRef : option LatLng;
  lastAcceptedPointRef : option LatLng;
  sessionEventsRef : list SessionEvent;
  pauseLogsRef : list PauseLog;
  pauseStartedAtRef : option float;
  lastSnapshotSavedAtMsRef : float;
}.

(** The component as it is first rendered. *)
Definition initial : t :=
  {| permission := permissionUnknown;
     sessionState := idle;
     selectedPresetId := id DEFAULT_FARE_PRESET;
     startedAtMs := None;
     elapsedMs := 0;
     distanceKm := 0;
     speedKmh := None;
     fareYen := baseFareYen DEFAULT_FARE_PRESET;
     billingMode := unknown;
     acceptedSamples := 0;
     filteredSamples := 0;
     historyItems := [];
     restorableSnapshot := None;
     errorMessage := None;
     watching := false;
     ticking := false;
     lastPoint := None;
     lastSampleTimeMs := None;
     fareRuntimeRef := createFareRuntime DEFAULT_FARE_PRESET;
     elapsedAccumulatedMsRef := 0;
     runningSegmentStartMsRef := None;
     firstAcceptedPointRef := None;
     lastAcceptedPointRef := None;
     sessionEventsRef := [];
     pauseLogsRef := [];
     pauseStartedAtRef := None;
     lastSnapshotSavedAtMsRef := 0 |}.

(** [useMemo(() => getPresetById(selectedPresetId))] *)
Definition selectedPreset (app : t) : FarePreset float :=
  getPresetById (selectedPresetId app).

(** Assignment to one cell; the others are carried over. *)
Definition set_permission (v : PermissionState) (a : t) : t :=
  Build_t v (sessionState a) (selectedPresetId a) (startedAtMs a) (elapsedMs a)
    (distanceKm a) (speedKmh a) (fareYen a) (billingMode a) (acceptedSamples a)
    (filteredSamples a) (historyItems a) (restorableSnapshot a) (errorMessage a)
    (watching a) (ticking a) (lastPoint a) (lastSampleTimeMs a) (fareRuntimeRef a)
    (elapsedAccumulatedMsRef a) (runningSegmentStartMsRef a) (firstAcceptedPointRef a)
    (lastAcceptedPointRef a) (sessionEventsRef a) (pauseLogsRef a)
    (pauseStartedAtRef a) (lastSnapshotSavedAtMsRef a).
Definition set_sessionState (v : SessionState) (a : t) : t :=
  Build_t (permission a) v (selectedPresetId a) (startedAtMs a) (elapsedMs a)
    (distanceKm a) (speedKmh a) (fareYen a) (billingMode a) (acceptedSamples a)
    (filteredSamples a) (historyItems a) (restorableSnapshot a) (errorMessage a)
    (watching a) (ticking a) (lastPoint a) (lastSampleTimeMs a) (fareRuntimeRef a)
    (elapsedAccumulatedMsRef a) (runningSegmentStartMsRef a) (firstAcceptedPointRef a)
    (lastAcceptedPointRef a) (sessionEventsRef a) (pauseLogsRef a)
    (pauseStartedAtRef a) (lastSnapshotSavedAtMsRef a).
Definition set_selectedPresetId (v : string) (a : t) : t :=
  Build_t (permission a) (sessionState a) v (startedAtMs a) (elapsedMs a)
    (distanceKm a) (speedKmh a) (fareYen a) (billingMode a) (acceptedSamples a)
    (filteredSamples a) (historyItems a) (restorableSnapshot a) (errorMessage a)
    (watching a) (ticking a) (lastPoint a) (lastSampleTimeMs a) (fareRuntimeRef a)
    (elapsedAccumulatedMsRef a) (runningSegmentStartMsRef a) (firstAcceptedPointRef a)
    (lastAcceptedPointRef a) (sessionEventsRef a) (pauseLogsRef a)
    (pauseStartedAtRef a) (lastSnapshotSavedAtMsRef a).
Definition set_startedAtMs (v : option float) (a : t) : t :=
  Build_t (permission a) (sessionState a) (selectedPresetId a) v (elapsedMs a)
    (distanceKm a) (speedKmh a) (fareYen a) (billingMode a) (acceptedSamples a)
    (filteredSamples a) (historyItems a) (restorableSnapshot a) (errorMessage a)
    (watching a) (ticking a) (lastPoint a) (lastSampleTimeMs a) (fareRuntimeRef a)
    (elapsedAccumulatedMsRef a) (runningSegmentStartMsRef a) (firstAcceptedPointRef a)
    (lastAcceptedPointRef a) (sessionEventsRef a) (pauseLogsRef a)
    (pauseStartedAtRef a) (lastSnapshotSavedAtMsRef a).
Definition set_elapsedMs (v : float) (a : t) : t :=
  Build_t (permission a) (sessionState a) (selectedPresetId a) (startedAtMs a) v
    (distanceKm a) (speedKmh a) (fareYen a) (billingMode a) (acceptedSamples a)
    (filteredSamples a) (historyItems a) (restorableSnapshot a) (errorMessage a)
    (watching a) (ticking a) (lastPoint a) (lastSampleTimeMs a) (fareRuntimeRef a)
    (elapsedAccumulatedMsRef a) (runningSegmentStartMsRef a) (firstAcceptedPointRef a)
    (lastAcceptedPointRef a) (sessionEventsRef a) (pauseLogsRef a)
    (pauseStartedAtRef a) (lastSnapshotSavedAtMsRef a).
Definition set_distanceKm (v : float) (a : t) : t :=
  Build_t (permission a) (sessionState a) (selectedPresetId a) (startedAtMs a)
    (elapsedMs a) v (speedKmh a) (fareYen a) (billingMode a) (acceptedSamples a)
    (filteredSamples a) (historyItems a) (restorableSnapshot a) (errorMessage a)
    (watching a) (ticking a) (lastPoint a) (lastSampleTimeMs a) (fareRuntimeRef a)
    (elapsedAccumulatedMsRef a) (runningSegmentStartMsRef a) (firstAcceptedPointRef a)
    (lastAcceptedPointRef a) (sessionEventsRef a) (pauseLogsRef a)
    (pauseStartedAtRef a) (lastSnapshotSavedAtMsRef a).
Definition set_speedKmh (v : option float) (a : t) : t :=
  Build_t (permission a) (sessionState a) (selectedPresetId a) (startedAtMs a)
    (elapsedMs a) (distanceKm a) v (fareYen a) (billingMode a) (acceptedSamples a)
    (filteredSamples a) (historyItems a) (restorableSnapshot a) (errorMessage a)
    (watching a) (ticking a) (lastPoint a) (lastSampleTimeMs a) (fareRuntimeRef a)
    (elapsedAccumulatedMsRef a) (runningSegmentStartMsRef a) (firstAcceptedPointRef a)
    (lastAcceptedPointRef a) (sessionEventsRef a) (pauseLogsRef a)
    (pauseStartedAtRef a) (lastSnapshotSavedAtMsRef a).
Definition set_fareYen (v : float) (a : t) : t :=
  Build_t (permission a) (sessionState a) (selectedPresetId a) (startedAtMs a)
    (elapsedMs a) (distanceKm a) (speedKmh a) v (billingMode a) (acceptedSamples a)
    (filteredSamples a) (historyItems a) (restorableSnapshot a) (errorMessage a)
    (watching a) (ticking a) (lastPoint a) (lastSampleTimeMs a) (fareRuntimeRef a)
    (elapsedAccumulatedMsRef a) (runningSegmentStartMsRef a) (firstAcceptedPointRef a)
    (lastAcceptedPointRef a) (sessionEventsRef a) (pauseLogsRef a)
    (pauseStartedAtRef a) (lastSnapshotSavedAtMsRef a).
Definition set_billingMode (v : BillingMode) (a : t) : t :=
  Build_t (permission a) (sessionState a) (selectedPresetId a) (startedAtMs a)
    (elapsedMs a) (distanceKm a) (speedKmh a) (fareYen a) v (acceptedSamples a)
    (filteredSamples a) (historyItems a) (restorableSnapshot a) (errorMessage a)
    (watching a) (ticking a) (lastPoint a) (lastSampleTimeMs a) (fareRuntimeRef a)
    (elapsedAccumulatedMsRef a) (runningSegmentStartMsRef a) (firstAcceptedPointRef a)
    (lastAcceptedPointRef a) (sessionEventsRef a) (pauseLogsRef a)
    (pauseStartedAtRef a) (lastSnapshotSavedAtMsRef a).
Definition set_acceptedSamples (v : float) (a : t) : t :=
  Build_t (permission a) (sessionState a) (selectedPresetId a) (startedAtMs a)
    (elapsedMs a) (distanceKm a) (speedKmh a) (fareYen a) (billingMode a) v
    (filteredSamples a) (historyItems a) (restorableSnapshot a) (errorMessage a)
    (watching a) (ticking a) (lastPoint a) (lastSampleTimeMs a) (fareRuntimeRef a)
    (elapsedAccumulatedMsRef a) (runningSegmentStartMsRef a) (firstAcceptedPointRef a)
    (lastAcceptedPointRef a) (sessionEventsRef a) (pauseLogsRef a)
    (pauseStartedAtRef a) (lastSnapshotSavedAtMsRef a).
Definition set_filteredSamples (v : float) (a : t) : t :=
  Build_t (permission a) (sessionState a) (selectedPresetId a) (startedAtMs a)
    (elapsedMs a) (distanceKm a) (speedKmh a) (fareYen a) (billingMode a)
    (acceptedSamples a) v (historyItems a) (restorableSnapshot a) (errorMessage a)
    (watching a) (ticking a) (lastPoint a) (lastSampleTimeMs a) (fareRuntimeRef a)
    (elapsedAccumulatedMsRef a) (runningSegmentStartMsRef a) (firstAcceptedPointRef a)
    (lastAcceptedPointRef a) (sessionEventsRef a) (pauseLogsRef a)
    (pauseStartedAtRef a) (lastSnapshotSavedAtMsRef a).
Definition set_historyItems (v : list DriveHistoryItem.t) (a : t) : t :=
  Build_t (permission a) (sessionState a) (selectedPresetId a) (startedAtMs a)
    (elapsedMs a) (distanceKm a) (speedKmh a) (fareYen a) (billingMode a)
    (acceptedSamples a) (filteredSamples a) v (restorableSnapshot a) (errorMessage a)
    (watching a) (ticking a) (lastPoint a) (lastSampleTimeMs a) (fareRuntimeRef a)
    (elapsedAccumulatedMsRef a) (runningSegmentStartMsRef a) (firstAcceptedPointRef a)
    (lastAcceptedPointRef a) (sessionEventsRef a) (pauseLogsRef a)
    (pauseStartedAtRef a) (lastSnapshotSavedAtMsRef a).
Definition set_restorableSnapshot (v : option SessionSnapshot.t) (a : t) : t :=
  Build_t (permission a) (sessionState a) (selectedPresetId a) (startedAtMs a)
    (elapsedMs a) (distanceKm a) (speedKmh a) (fareYen a) (billingMode a)
    (acceptedSamples a) (filteredSamples a) (historyItems a) v (errorMessage a)
    (watching a) (ticking a) (lastPoint a) (lastSampleTimeMs a) (fareRuntimeRef a)
    (elapsedAccumulatedMsRef a) (runningSegmentStartMsRef a) (firstAcceptedPointRef a)
    (lastAcceptedPointRef a) (sessionEventsRef a) (pauseLogsRef a)
    (pauseStartedAtRef a) (lastSnapshotSavedAtMsRef a).
Definition set_errorMessage (v : option string) (a : t) : t :=
  Build_t (permission a) (sessionState a) (selectedPresetId a) (startedAtMs a)
    (elapsedMs a) (distanceKm a) (speedKmh a) (fareYen a) (billingMode a)
    (acceptedSamples a) (filteredSamples a) (historyItems a) (restorableSnapshot a) v
    (watching a) (ticking a) (lastPoint a) (lastSampleTimeMs a) (fareRuntimeRef a)
    (elapsedAccumulatedMsRef a) (runningSegmentStartMsRef a) (firstAcceptedPointRef a)
    (lastAcceptedPointRef a) (sessionEventsRef a) (pauseLogsRef a)
    (pauseStartedAtRef a) (lastSnapshotSavedAtMsRef a).
Definition set_watching (v : bool) (a : t) : t :=
  Build_t (permission a) (sessionState a) (selectedPresetId a) (startedAtMs a)
    (elapsedMs a) (distanceKm a) (speedKmh a) (fareYen a) (billingMode a)
    (acceptedSamples a) (filteredSamples a) (historyItems a) (restorableSnapshot a)
    (errorMessage a) v (ticking a) (lastPoint a) (lastSampleTimeMs a)
    (fareRuntimeRef a) (elapsedAccumulatedMsRef a) (runningSegmentStartMsRef a)
    (firstAcceptedPointRef a) (lastAcceptedPointRef a) (sessionEventsRef a)
    (pauseLogsRef a) (pauseStartedAtRef a) (lastSnapshotSavedAtMsRef a).
Definition set_ticking (v : bool) (a : t) : t :=
  Build_t (permission a) (sessionState a) (selectedPresetId a) (startedAtMs a)
    (elapsedMs a) (distanceKm a) (speedKmh a) (fareYen a) (billingMode a)
    (acceptedSamples a) (filteredSamples a) (historyItems a) (restorableSnapshot a)
    (errorMessage a) (watching a) v (lastPoint a) (lastSampleTimeMs a)
    (fareRuntimeRef a) (elapsedAccumulatedMsRef a) (runningSegmentStartMsRef a)
    (firstAcceptedPointRef a) (lastAcceptedPointRef a) (sessionEventsRef a)
    (pauseLogsRef a) (pauseStartedAtRef a) (lastSnapshotSavedAtMsRef a).
Definition set_lastPoint (v : option LatLng) (a : t) : t :=
  Build_t (permission a) (sessionState a) (selectedPresetId a) (startedAtMs a)
    (elapsedMs a) (distanceKm a) (speedKmh a) (fareYen a) (billingMode a)
    (acceptedSamples a) (filteredSamples a) (historyItems a) (restorableSnapshot a)
    (errorMessage a) (watching a) (ticking a) v (lastSampleTimeMs a)
    (fareRuntimeRef a) (elapsedAccumulatedMsRef a) (runningSegmentStartMsRef a)
    (firstAcceptedPointRef a) (lastAcceptedPointRef a) (sessionEventsRef a)
    (pauseLogsRef a) (pauseStartedAtRef a) (lastSnapshotSavedAtMsRef a).
Definition set_lastSampleTimeMs (v : option float) (a : t) : t :=
  Build_t (permission a) (sessionState a) (selectedPresetId a) (startedAtMs a)
    (elapsedMs a) (distanceKm a) (speedKmh a) (fareYen a) (billingMode a)
    (acceptedSamples a) (filteredSamples a) (historyItems a) (restorableSnapshot a)
    (errorMessage a) (watching a) (ticking a) (lastPoint a) v (fareRuntimeRef a)
    (elapsedAccumulatedMsRef a) (runningSegmentStartMsRef a) (firstAcceptedPointRef a)
    (lastAcceptedPointRef a) (sessionEventsRef a) (pauseLogsRef a)
    (pauseStartedAtRef a) (lastSnapshotSavedAtMsRef a).
Definition set_fareRuntimeRef (v : FareRuntime float) (a : t) : t :=
  Build_t (permission a) (sessionState a) (selectedPresetId a) (startedAtMs a)
    (elapsedMs a) (distanceKm a) (speedKmh a) (fareYen a) (billingMode a)
    (acceptedSamples a) (filteredSamples a) (historyItems a) (restorableSnapshot a)
    (errorMessage a) (watching a) (ticking a) (lastPoint a) (lastSampleTimeMs a) v
    (elapsedAccumulatedMsRef a) (runningSegmentStartMsRef a) (firstAcceptedPointRef a)
    (lastAcceptedPointRef a) (sessionEventsRef a) (pauseLogsRef a)
    (pauseStartedAtRef a) (lastSnapshotSavedAtMsRef a).
Definition set_elapsedAccumulatedMsRef (v : float) (a : t) : t :=
  Build_t (permission a) (sessionState a) (selectedPresetId a) (startedAtMs a)
    (elapsedMs a) (distanceKm a) (speedKmh a) (fareYen a) (billingMode a)
    (acceptedSamples a) (filteredSamples a) (historyItems a) (restorableSnapshot a)
    (errorMessage a) (watching a) (ticking a) (lastPoint a) (lastSampleTimeMs a)
    (fareRuntimeRef a) v (runningSegmentStartMsRef a) (firstAcceptedPointRef a)
    (lastAcceptedPointRef a) (sessionEventsRef a) (pauseLogsRef a)
    (pauseStartedAtRef a) (lastSnapshotSavedAtMsRef a).
Definition set_runningSegmentStartMsRef (v : option float) (a : t) : t :=
  Build_t (permission a) (sessionState a) (selectedPresetId a) (startedAtMs a)
    (elapsedMs a) (distanceKm a) (speedKmh a) (fareYen a) (billingMode a)
    (acceptedSamples a) (filteredSamples a) (historyItems a) (restorableSnapshot a)
    (errorMessage a) (watching a) (ticking a) (lastPoint a) (lastSampleTimeMs a)
    (fareRuntimeRef a) (elapsedAccumulatedMsRef a) v (firstAcceptedPointRef a)
    (lastAcceptedPointRef a) (sessionEventsRef a) (pauseLogsRef a)
    (pauseStartedAtRef a) (lastSnapshotSavedAtMsRef a).
Definition set_firstAcceptedPointRef (v : option LatLng) (a : t) : t :=
  Build_t (permission a) (sessionState a) (selectedPresetId a) (startedAtMs a)
    (elapsedMs a) (distanceKm a) (speedKmh a) (fareYen a) (billingMode a)
    (acceptedSamples a) (filteredSamples a) (historyItems a) (restorableSnapshot a)
    (errorMessage a) (watching a) (ticking a) (lastPoint a) (lastSampleTimeMs a)
    (fareRuntimeRef a) (elapsedAccumulatedMsRef a) (runningSegmentStartMsRef a) v
    (lastAcceptedPointRef a) (sessionEventsRef a) (pauseLogsRef a)
    (pauseStartedAtRef a) (lastSnapshotSavedAtMsRef a).
Definition set_lastAcceptedPointRef (v : option LatLng) (a : t) : t :=
  Build_t (permission a) (sessionState a) (selectedPresetId a) (startedAtMs a)
    (elapsedMs a) (distanceKm a) (speedKmh a) (fareYen a) (billingMode a)
    (acceptedSamples a) (filteredSamples a) (historyItems a) (restorableSnapshot a)
    (errorMessage a) (watching a) (ticking a) (lastPoint a) (lastSampleTimeMs a)
    (fareRuntimeRef a) (elapsedAccumulatedMsRef a) (runningSegmentStartMsRef a)
    (firstAcceptedPointRef a) v (sessionEventsRef a) (pauseLogsRef a)
    (pauseStartedAtRef a) (lastSnapshotSavedAtMsRef a).
Definition set_sessionEventsRef (v : list SessionEvent) (a : t) : t :=
  Build_t (permission a) (sessionState a) (selectedPresetId a) (startedAtMs a)
    (elapsedMs a) (distanceKm a) (speedKmh a) (fareYen a) (billingMode a)
    (acceptedSamples a) (filteredSamples a) (historyItems a) (restorableSnapshot a)
    (errorMessage a) (watching a) (ticking a) (lastPoint a) (lastSampleTimeMs a)
    (fareRuntimeRef a) (elapsedAccumulatedMsRef a) (runningSegmentStartMsRef a)
    (firstAcceptedPointRef a) (lastAcceptedPointRef a) v (pauseLogsRef a)
    (pauseStartedAtRef a) (lastSnapshotSavedAtMsRef a).
Definition set_pauseLogsRef (v : list PauseLog) (a : t) : t :=
  Build_t (permission a) (sessionState a) (selectedPresetId a) (startedAtMs a)
    (elapsedMs a) (distanceKm a) (speedKmh a) (fareYen a) (billingMode a)
    (acceptedSamples a) (filteredSamples a) (historyItems a) (restorableSnapshot a)
    (errorMessage a) (watching a) (ticking a) (lastPoint a) (lastSampleTimeMs a)
    (fareRuntimeRef a) (elapsedAccumulatedMsRef a) (runningSegmentStartMsRef a)
    (firstAcceptedPointRef a) (lastAcceptedPointRef a) (sessionEventsRef a) v
    (pauseStartedAtRef a) (lastSnapshotSavedAtMsRef a).
Definition set_pauseStartedAtRef (v : option float) (a : t) : t :=
  Build_t (permission a) (sessionState a) (selectedPresetId a) (startedAtMs a)
    (elapsedMs a) (distanceKm a) (speedKmh a) (fareYen a) (billingMode a)
    (acceptedSamples a) (filteredSamples a) (historyItems a) (restorableSnapshot a)
    (errorMessage a) (watching a) (ticking a) (lastPoint a) (lastSampleTimeMs a)
    (fareRuntimeRef a) (elapsedAccumulatedMsRef a) (runningSegmentStartMsRef a)
    (firstAcceptedPointRef a) (lastAcceptedPointRef a) (sessionEventsRef a)
    (pauseLogsRef a) v (lastSnapshotSavedAtMsRef a).
Definition set_lastSnapshotSavedAtMsRef (v : float) (a : t) : t :=
  Build_t (permission a) (sessionState a) (selectedPresetId a) (startedAtMs a)
    (elapsedMs a) (distanceKm a) (speedKmh a) (fareYen a) (billingMode a)
    (acceptedSamples a) (filteredSamples a) (historyItems a) (restorableSnapshot a)
    (errorMessage a) (watching a) (ticking a) (lastPoint a) (lastSampleTimeMs a)
    (fareRuntimeRef a) (elapsedAccumulatedMsRef a) (runningSegmentStartMsRef a)
    (firstAcceptedPointRef a) (lastAcceptedPointRef a) (sessionEventsRef a)
    (pauseLogsRef a) (pauseStartedAtRef a) v.

End App.

(** *** The handlers

    A handler reads the [useState] values of the render it was created in
    and the current contents of the [useRef] cells.  A handler below takes
    the component as it was rendered; what it reads from a state cell it
    reads from that argument, and every assignment goes to the result.
    The instants [Date.now()] returns, the outcome of the permission
    request and the files are arguments. *)

Section Handlers.

Context `{Host}.

Definition resetMeter (preset : FarePreset float) (app : App.t) : App.t :=
  let app := App.set_startedAtMs None app in
  let app := App.set_elapsedMs 0 app in
  let app := App.set_distanceKm 0 app in
  let app := App.set_speedKmh None app in
  let app := App.set_fareYen (baseFareYen preset) app in
  let app := App.set_billingMode unknown app in
  let app := App.set_acceptedSamples 0 app in
  let app := App.set_filteredSamples 0 app in
  let app := App.set_fareRuntimeRef (createFareRuntime preset) app in
  let app := App.set_elapsedAccumulatedMsRef 0 app in
  let app := App.set_runningSegmentStartMsRef None app in
  let app := App.set_firstAcceptedPointRef None app in
  let app := App.set_lastAcceptedPointRef None app in
  let app := App.set_sessionEventsRef [] app in
  let app := App.set_pauseLogsRef [] app in
  let app := App.set_pauseStartedAtRef None app in
  let app := App.set_lastPoint None app in
  App.set_lastSampleTimeMs None app.

Definition stopLocationWatch (app : App.t) : App.t := App.set_watching false app.
Definition stopElapsedTimer (app : App.t) : App.t := App.set_ticking false app.
Definition stopSession (app : App.t) : App.t := stopElapsedTimer (stopLocationWatch app).
Definition startElapsedTimer (app : App.t) : App.t :=
  App.set_ticking true (stopElapsedTimer app).
Definition startLocationWatch (app : App.t) : App.t :=
  App.set_watching true (stopLocationWatch app).

(** One firing of the 250 ms interval set by [startElapsedTimer]. *)
Definition elapsedTimerTick (nowMs : float) (app : App.t) : App.t :=
  match App.runningSegmentStartMsRef app with
  | Some startMs =>
      if truthy (Some startMs) then
        let segmentElapsed := (nowMs - startMs)%float in
        App.set_elapsedMs (App.elapsedAccumulatedMsRef app + segmentElapsed)%float app
      else app
  | None => app
  end.

Definition finalizeRunningSegment (nowMs : float) (app : App.t) : App.t :=
  match App.runningSegmentStartMsRef app with
  | Some startMs =>
      if truthy (Some startMs) then
        let segmentElapsed := (nowMs - startMs)%float in
        let accumulated :=
          (App.elapsedAccumulatedMsRef app + Binary64.max 0 segmentElapsed)%float in
        let app := App.set_elapsedAccumulatedMsRef accumulated app in
        let app := App.set_runningSegmentStartMsRef None app in
        App.set_elapsedMs accumulated app
      else app
  | None => app
  end.

Definition addSessionEvent (eventType : SessionEventType) (at_ : float) (app : App.t)
  : App.t :=
  App.set_sessionEventsRef
    (App.sessionEventsRef app ++ [{| type := eventType; atMs := at_ |}]) app.

(** [rendered] is the render the calling handler belongs to, [app] holds
    the cells as they are when the snapshot is built. *)
Definition buildSessionSnapshot (rendered app : App.t) (state : SnapshotState)
           (nowMs : float) : option SessionSnapshot.t :=
  match App.startedAtMs rendered with
  | Some started =>
      if truthy (Some started) then
        Some {| SessionSnapshot.savedAtMs := nowMs;
                SessionSnapshot.sessionState := state;
                SessionSnapshot.startedAtMs := started;
                SessionSnapshot.elapsedMs := App.elapsedAccumulatedMsRef app;
                SessionSnapshot.distanceKm := App.distanceKm rendered;
                SessionSnapshot.fareYen := App.fareYen rendered;
                SessionSnapshot.billingMode := App.billingMode rendered;
                SessionSnapshot.selectedPresetId := App.selectedPresetId rendered;
                SessionSnapshot.acceptedSamples := App.acceptedSamples rendered;
                SessionSnapshot.filteredSamples := App.filteredSamples rendered;
                SessionSnapshot.fareRuntime := App.fareRuntimeRef app;
                SessionSnapshot.from := App.firstAcceptedPointRef app;
                SessionSnapshot.to := App.lastAcceptedPointRef app;
                SessionSnapshot.pauseLogs := App.pauseLogsRef app;
                SessionSnapshot.events := App.sessionEventsRef app |}
      else None
  | None => None
  end.

Definition persistSessionSnapshot (rendered : App.t) (state : SnapshotState)
           (nowMs : float) (app : App.t) (fs : FileSystem) : App.t * FileSystem :=
  match buildSessionSnapshot rendered app state nowMs with
  | None => (app, fs)
  | Some snapshot =>
      (App.set_lastSnapshotSavedAtMsRef (SessionSnapshot.savedAtMs snapshot) app,
       saveSessionSnapshot fs snapshot)
  end.

(** The effect that follows a render (lines 135-160), without the
    interval it sets. *)
Definition snapshotEffect (nowMs : float) (app : App.t) (fs : FileSystem)
  : App.t * FileSystem :=
  match App.sessionState app with
  | idle => (app, clearSessionSnapshot fs)
  | running => persistSessionSnapshot app snapshotRunning nowMs app fs
  | paused => persistSessionSnapshot app snapshotPaused nowMs app fs
  end.

Definition closePause (atMs_ : float) (app : App.t) : App.t :=
  match App.pauseStartedAtRef app with
  | Some pausedAt =>
      if truthy (Some pausedAt) then
        let app :=
          App.set_pauseLogsRef
            (App.pauseLogsRef app
             ++ [{| pausedAtMs := pausedAt; resumedAtMs := atMs_;
                    durationMs := (atMs_ - pausedAt)%float |}]) app in
        App.set_pauseStartedAtRef None app
      else app
  | None => app
  end.

Definition enterPausedState (nowMs savedAtMs_ : float) (rendered : App.t)
           (fs : FileSystem) : App.t * FileSystem :=
  let app := finalizeRunningSegment nowMs rendered in
  let app := stopSession app in
  let app := App.set_speedKmh None app in
  let app := App.set_pauseStartedAtRef (Some nowMs) app in
  let app := addSessionEvent pause nowMs app in
  let app := App.set_sessionState paused app in
  persistSessionSnapshot rendered snapshotPaused savedAtMs_ app fs.

(** [`${startedAtMs}-${finishedAtMs}`] *)
Definition historyId (started finished : float) : string :=
  (Number_toString started ++ "-" ++ Number_toString finished)%string.

(** The record of lines 370-387. *)
Definition buildHistoryRecord (rendered app : App.t) (started finishedAtMs_ : float)
  : DriveHistoryItem.t :=
  {| DriveHistoryItem.id := historyId started finishedAtMs_;
     DriveHistoryItem.createdAtMs := finishedAtMs_;
     DriveHistoryItem.startedAtMs := started;
     DriveHistoryItem.finishedAtMs := finishedAtMs_;
     DriveHistoryItem.elapsedMs := App.elapsedAccumulatedMsRef app;
     DriveHistoryItem.distanceKm := App.distanceKm rendered;
     DriveHistoryItem.fareYen := App.fareYen rendered;
     DriveHistoryItem.presetId := id (App.selectedPreset rendered);
     DriveHistoryItem.from := App.firstAcceptedPointRef app;
     DriveHistoryItem.to := App.lastAcceptedPointRef app;
     DriveHistoryItem.acceptedSamples := App.acceptedSamples rendered;
     DriveHistoryItem.filteredSamples := App.filteredSamples rendered;
     DriveHistoryItem.distanceChargeSteps :=
       runtimeProperty (App.fareRuntimeRef app) "distanceChargeSteps";
     DriveHistoryItem.timeChargeSteps :=
       runtimeProperty (App.fareRuntimeRef app) "timeChargeSteps";
     DriveHistoryItem.pauseLogs := App.pauseLogsRef app;
     DriveHistoryItem.events := App.sessionEventsRef app |}.

(** The record [finishSession] builds, if it builds one. *)
Definition finishedRecord (finishedAtMs_ : float) (rendered : App.t)
  : option DriveHistoryItem.t :=
  let app := closePause finishedAtMs_ rendered in
  let app := addSessionEvent finish finishedAtMs_ app in
  match App.startedAtMs rendered with
  | Some started =>
      if truthy (Some started)
      then Some (buildHistoryRecord rendered app started finishedAtMs_)
      else None
  | None => None
  end.

(** Lines 393-396: the snapshot is cleared, and once that write has
    resolved the session is stopped and the meter reset.  [app] and [fs]
    are the cells and the files as lines 355-391 have left them. *)
Definition finishSessionReset (clearOutcome : WriteOutcome) (rendered app : App.t)
           (fs : FileSystem) : App.t * FileSystem :=
  match clearOutcome with
  | writeRejects remains => (app, remains)
  | writeResolves =>
      let fs := clearSessionSnapshot fs in
      let app := stopSession app in
      let app := resetMeter (App.selectedPreset rendered) app in
      (App.set_sessionState idle app, fs)
  end.

(** [appendOutcome] is what becomes of the write awaited at line 389, if
    the handler gets there, [clearOutcome] of the one awaited at line 393.
    The handler has no [try]: after a rejected write the lines that follow
    are not run. *)
Definition finishSession (appendOutcome clearOutcome : WriteOutcome)
           (finishedAtMs_ : float) (rendered : App.t) (fs : FileSystem)
  : App.t * FileSystem :=
  let app := closePause finishedAtMs_ rendered in
  let app := addSessionEvent finish finishedAtMs_ app in
  match finishedRecord finishedAtMs_ rendered with
  | Some record =>
      match appendOutcome with
      | writeRejects remains => (app, remains)
      | writeResolves =>
          finishSessionReset clearOutcome rendered
            (App.set_historyItems (firstn 100 (record :: App.historyItems app)) app)
            (appendDriveHistory fs record)
      end
  | None => finishSessionReset clearOutcome rendered app fs
  end.

(** [permissionGranted] is what the permission query and request come
    to. *)
Definition requestLocationPermission (permissionGranted : bool) (app : App.t) : App.t :=
  if permissionGranted then App.set_permission granted app
  else
    App.set_errorMessage
      (Some "位置情報の許可が必要です。端末設定から許可してください。")
      (App.set_permission denied app).


Definition resumeSession (nowMs savedAtMs_ : float) (rendered : App.t)
           (fs : FileSystem) : App.t * FileSystem :=
  match App.sessionState rendered with
  | paused =>
      let app := closePause nowMs rendered in
      let app := addSessionEvent resume nowMs app in
      let app := App.set_runningSegmentStartMsRef (Some nowMs) app in
      let app := App.set_lastPoint None app in
      let app := App.set_lastSampleTimeMs None app in
      let app := App.set_sessionState running app in
      let app := startElapsedTimer app in
      let app := startLocationWatch app in
      persistSessionSnapshot rendered snapshotRunning savedAtMs_ app fs
  | _ => (rendered, fs)
  end.

Definition canChangePreset (app : App.t) : bool :=
  match App.sessionState app with idle => true | _ => false end.

Definition handlePresetChange (nextPresetId : string) (rendered : App.t) : App.t :=
  if negb (canChangePreset rendered) then rendered
  else
    let nextPreset := getPresetById nextPresetId in
    resetMeter nextPreset (App.set_selectedPresetId nextPresetId rendered).

Definition discardRestorableSnapshot (rendered : App.t) (fs : FileSystem)
  : App.t * FileSystem :=
  (App.set_restorableSnapshot None rendered, clearSessionSnapshot fs).

Definition restoreFromSnapshot (permissionGranted : bool) (savedAtMs_ : float)
           (rendered : App.t) (fs : FileSystem) : App.t * FileSystem :=
  match App.restorableSnapshot rendered with
  | None => (rendered, fs)
  | Some snapshot =>
      let app := requestLocationPermission permissionGranted rendered in
      if negb permissionGranted then (app, fs)
      else
        let app := App.set_selectedPresetId (SessionSnapshot.selectedPresetId snapshot) app in
        let app := App.set_startedAtMs (Some (SessionSnapshot.startedAtMs snapshot)) app in
        let app := App.set_elapsedMs (SessionSnapshot.elapsedMs snapshot) app in
        let app := App.set_distanceKm (SessionSnapshot.distanceKm snapshot) app in
        let app := App.set_fareYen (SessionSnapshot.fareYen snapshot) app in
        let app := App.set_billingMode (SessionSnapshot.billingMode snapshot) app in
        let app := App.set_acceptedSamples (SessionSnapshot.acceptedSamples snapshot) app in
        let app := App.set_filteredSamples (SessionSnapshot.filteredSamples snapshot) app in
        let app := App.set_speedKmh None app in
        let app := App.set_fareRuntimeRef (SessionSnapshot.fareRuntime snapshot) app in
        let app := App.set_elapsedAccumulatedMsRef (SessionSnapshot.elapsedMs snapshot) app in
        let app := App.set_runningSegmentStartMsRef None app in
        let app := App.set_firstAcceptedPointRef (SessionSnapshot.from snapshot) app in
        let app := App.set_lastAcceptedPointRef (SessionSnapshot.to snapshot) app in
        let app := App.set_pauseLogsRef (SessionSnapshot.pauseLogs snapshot) app in
        let app := App.set_sessionEventsRef (SessionSnapshot.events snapshot) app in
        let app := App.set_pauseStartedAtRef None app in
        let app := App.set_lastPoint None app in
        let app := App.set_lastSampleTimeMs None app in
        let app := App.set_sessionState paused app in
        let app := App.set_restorableSnapshot None app in
        let '(app, fs) := persistSessionSnapshot rendered snapshotPaused savedAtMs_ app fs in
        let preset := getPresetById (SessionSnapshot.selectedPresetId snapshot) in
        (App.set_errorMessage
           (Some ("中断セッションを復元しました（" ++ label preset ++ " / "
                  ++ Date_toLocaleString (SessionSnapshot.startedAtMs snapshot)
                  ++ "）")%string) app,
         fs)
  end.

(** The callback of [watchPositionAsync], lines 237-299.  [preset] is the
    [selectedPreset] of the render in which the watch was started. *)
Definition onLocation (preset : FarePreset float) (loc : LocationObject) (app : App.t)
  : App.t :=
  let nextPoint := {| latitude := coordsLatitude loc; longitude := coordsLongitude loc |} in
  let baseline (app : App.t) : App.t :=
    App.set_lastSampleTimeMs (Some (timestamp loc)) (App.set_lastPoint (Some nextPoint) app) in
  match App.lastPoint app, App.lastSampleTimeMs app with
  | Some last, Some lastTime =>
      if truthy (Some lastTime) then
        let deltaKm := Geo.distanceKmBetween last nextPoint in
        let deltaSeconds_ := sampleDeltaSeconds (timestamp loc) lastTime in
        let currentSpeedKmh := sampleSpeedKmh deltaKm deltaSeconds_ (coordsSpeed loc) in
        match getNoisySampleReason deltaKm deltaSeconds_ currentSpeedKmh
                (coordsAccuracy loc) with
        | Some _ =>
            let app := App.set_filteredSamples (App.filteredSamples app + 1)%float app in
            let app := App.set_speedKmh None app in
            let app := App.set_billingMode unknown app in
            baseline app
        | None =>
            let app := App.set_acceptedSamples (App.acceptedSamples app + 1)%float app in
            let app :=
              match App.firstAcceptedPointRef app with
              | Some _ => app
              | None => App.set_firstAcceptedPointRef (Some nextPoint) app
              end in
            let app := App.set_lastAcceptedPointRef (Some nextPoint) app in
            let app :=
              if PrimFloat.ltb 0 deltaKm
              then App.set_distanceKm (App.distanceKm app + deltaKm)%float app
              else app in
            let nextRuntime :=
              updateFareBySegment preset (App.fareRuntimeRef app)
                {| deltaDistanceKm := Binary64.max 0 deltaKm;
                   deltaSeconds := deltaSeconds_;
                   speedKmh := currentSpeedKmh |} in
            let app := App.set_fareRuntimeRef nextRuntime app in
            let app := App.set_fareYen (fareYen nextRuntime) app in
            let app := App.set_speedKmh (Some currentSpeedKmh) app in
            let app :=
              App.set_billingMode
                (if PrimFloat.leb currentSpeedKmh (lowSpeedThresholdKmh preset)
                 then time else distance) app in
            baseline app
        end
      else baseline app
  | _, _ => baseline app
  end.

End Handlers.


(** *** The parts of the location callback

    What the callback computes from the baseline and a sample: the
    distance, the segment it hands to the fare engine when it keeps the
    sample, and the verdict of the classifier. *)

Section LocationSample.

Context `{Host}.

(** The distance between the last point and the one of the sample, and the
    segment the callback hands to the fare engine for a sample it keeps. *)
Definition sampleDeltaKm (last : LatLng) (loc : LocationObject) : float :=
  Geo.distanceKmBetween last
    {| latitude := coordsLatitude loc; longitude := coordsLongitude loc |}.

Definition sampleSegment (last : LatLng) (lastTime : float) (loc : LocationObject)
  : Segment float :=
  let deltaSeconds_ := sampleDeltaSeconds (timestamp loc) lastTime in
  {| deltaDistanceKm := Binary64.max 0 (sampleDeltaKm last loc);
     deltaSeconds := deltaSeconds_;
     speedKmh := sampleSpeedKmh (sampleDeltaKm last loc) deltaSeconds_ (coordsSpeed loc) |}.

Definition sampleReason (last : LatLng) (lastTime : float) (loc : LocationObject)
  : option string :=
  let deltaSeconds_ := sampleDeltaSeconds (timestamp loc) lastTime in
  getNoisySampleReason (sampleDeltaKm last loc) deltaSeconds_
    (sampleSpeedKmh (sampleDeltaKm last loc) deltaSeconds_ (coordsSpeed loc))
    (coordsAccuracy loc).

End LocationSample.

(** ** A host for the instances

    The statements below hold for every host.  Where an instance of a
    statement has to be exhibited, this one is used: it renders the
    integer-valued numbers in decimal, and reads and writes the JSON texts
    whose numbers are integers and whose strings need no escape, which is
    all the instances contain.  Its trigonometry is the small-angle one. *)

Module HostModel.

Definition quote : ascii := Ascii.ascii_of_nat 34.

Definition decimal (n : Z) : string := NilZero.string_of_int (Z.to_int n).

Definition numberToString (x : float) : string :=
  match Binary64.toZ x with
  | Some n => decimal n
  | None =>
      if PrimFloat.is_nan x then "NaN"
      else if PrimFloat.eqb x infinity then "Infinity"
      else if PrimFloat.eqb x neg_infinity then "-Infinity"
      else ""
  end.

Fixpoint stringify (v : json) : string :=
  match v with
  | JNull => "null"
  | JBool true => "true"
  | JBool false => "false"
  | JNumber x => numberToString x
  | JString s => String quote (s ++ String quote "")
  | JArray items =>
      "[" ++ (fix elements (l : list json) : string :=
                match l with
                | [] => ""
                | [x] => stringify x
                | x :: rest => stringify x ++ "," ++ elements rest
                end) items ++ "]"
  | JObject fields =>
      "{" ++ (fix members (l : list (string * json)) : string :=
                match l with
                | [] => ""
                | [(k, x)] => String quote (k ++ String quote (":" ++ stringify x))
                | (k, x) :: rest =>
                    String quote (k ++ String quote (":" ++ stringify x)) ++ "," ++ members rest
                end) fields ++ "}"
  end%string.

Definition isSpace (c : ascii) : bool :=
  let n := Ascii.nat_of_ascii c in
  (n =? 32)%nat || (n =? 9)%nat || (n =? 10)%nat || (n =? 13)%nat.

Definition isDigit (c : ascii) : bool :=
  let n := Ascii.nat_of_ascii c in (48 <=? n)%nat && (n <=? 57)%nat.

Fixpoint skipSpace (s : string) : string :=
  match s with
  | String c rest => if isSpace c then skipSpace rest else s
  | EmptyString => s
  end.

Fixpoint dropPrefix (p s : string) : option string :=
  match p, s with
  | EmptyString, _ => Some s
  | String a p', String b s' => if Ascii.eqb a b then dropPrefix p' s' else None
  | _, _ => None
  end.

(** The characters up to the closing quote; a backslash or a control
    character ends the reading without a result. *)
Fixpoint readString (s : string) : option (string * string) :=
  match s with
  | EmptyString => None
  | String c rest =>
      if Ascii.eqb c quote then Some (EmptyString, rest)
      else if Ascii.eqb c "\"%char || (Ascii.nat_of_ascii c <? 32)%nat then None
      else match readString rest with
           | Some (body, rest') => Some (String c body, rest')
           | None => None
           end
  end.

Fixpoint readDigits (s : string) (acc : Z) : Z * string :=
  match s with
  | String c rest =>
      if isDigit c
      then readDigits rest (10 * acc + Z.of_nat (Ascii.nat_of_ascii c - 48))
      else (acc, s)
  | EmptyString => (acc, s)
  end.

Definition startsNumber (s : string) : bool :=
  match s with
  | String c _ => isDigit c
  | EmptyString => false
  end.

(** An integer; a fraction or an exponent after it is not read. *)
Definition readNumber (s : string) : option (json * string) :=
  let '(negative, digits) :=
    match dropPrefix "-" s with
    | Some rest => (true, rest)
    | None => (false, s)
    end in
  if startsNumber digits then
    let '(n, rest) := readDigits digits 0 in
    match rest with
    | String c _ =>
        if Ascii.eqb c "."%char || Ascii.eqb c "e"%char || Ascii.eqb c "E"%char then None
        else Some (JNumber (Binary64.ofZ (if negative then - n else n)), rest)
    | EmptyString => Some (JNumber (Binary64.ofZ (if negative then - n else n)), rest)
    end
  else None.

Fixpoint readValue (fuel : nat) (s : string) : option (json * string) :=
  match fuel with
  | O => None
  | S fuel' =>
      let s := skipSpace s in
      match s with
      | EmptyString => None
      | String c rest =>
          if Ascii.eqb c "n"%char then
            option_map (fun r => (JNull, r)) (dropPrefix "null" s)
          else if Ascii.eqb c "t"%char then
            option_map (fun r => (JBool true, r)) (dropPrefix "true" s)
          else if Ascii.eqb c "f"%char then
            option_map (fun r => (JBool false, r)) (dropPrefix "false" s)
          else if Ascii.eqb c quote then
            option_map (fun '(body, r) => (JString body, r)) (readString rest)
          else if Ascii.eqb c "["%char then
            match dropPrefix "]" (skipSpace rest) with
            | Some r => Some (JArray [], r)
            | None => option_map (fun '(items, r) => (JArray items, r))
                                 (readElements fuel' rest)
            end
          else if Ascii.eqb c "{"%char then
            match dropPrefix "}" (skipSpace rest) with
            | Some r => Some (JObject [], r)
            | None => option_map (fun '(fields, r) => (JObject fields, r))
                                 (readMembers fuel' rest)
            end
          else readNumber s
      end
  end
with readElements (fuel : nat) (s : string) : option (list json * string) :=
  match fuel with
  | O => None
  | S fuel' =>
      match readValue fuel' s with
      | None => None
      | Some (v, r) =>
          match skipSpace r with
          | String c rest =>
              if Ascii.eqb c ","%char then
                option_map (fun '(items, r') => (v :: items, r')) (readElements fuel' rest)
              else if Ascii.eqb c "]"%char then Some ([v], rest)
              else None
          | EmptyString => None
          end
      end
  end
with readMembers (fuel : nat) (s : string) : option (list (string * json) * string) :=
  match fuel with
  | O => None
  | S fuel' =>
      match skipSpace s with
      | String c rest =>
          if Ascii.eqb c quote then
            match readString rest with
            | None => None
            | Some (key, r) =>
                match dropPrefix ":" (skipSpace r) with
                | None => None
                | Some r1 =>
                    match readValue fuel' r1 with
                    | None => None
                    | Some (v, r2) =>
                        match skipSpace r2 with
                        | String d rest2 =>
                            if Ascii.eqb d ","%char then
                              option_map (fun '(fields, r') => ((key, v) :: fields, r'))
                                         (readMembers fuel' rest2)
                            else if Ascii.eqb d "}"%char then Some ([(key, v)], rest2)
                            else None
                        | EmptyString => None
                        end
                    end
                end
            end
          else None
      | EmptyString => None
      end
  end.

Definition parse (s : string) : option json :=
  match readValue (2 * String.length s + 2) s with
  | Some (v, rest) =>
      match skipSpace rest with
      | EmptyString => Some v
      | _ => None
      end
  | None => None
  end.

Definition host : Host :=
  {| Number_toString := numberToString;
     JSON_parse := parse;
     JSON_stringify := stringify;
     documentDirectory := Some "file:///documents/";
     Math_sin := fun x => x;
     Math_cos := fun _ => 1%float;
     Math_atan2 := fun y x => (y / x)%float;
     Date_toLocaleString := numberToString |}.

End HostModel.

(** * Facts *)

(** ** binary64 arithmetic

    The primitive operations are specified by the Standard Library through
    [Prim2SF] and the functions of [SpecFloat]; the facts below are proved
    from that specification. *)

Module Binary64Facts.

Import Binary64.

Local Abbreviation fexp64 := (SpecFloat.fexp prec emax).
Local Abbreviation emin64 := (SpecFloat.emin prec emax).

Lemma Prim2SF_zero : Prim2SF 0%float = S754_zero false.
Proof. reflexivity. Qed.
Lemma Prim2SF_infinity : Prim2SF infinity = S754_infinity false.
Proof. reflexivity. Qed.

Lemma SFcompare_antisym (x y : spec_float) :
SFcompare y x = option_map CompOpp (SFcompare x y).
Proof.
destruct x as [sx|sx| |sx mx ex], y as [sy|sy| |sy my ey]; simpl; try reflexivity;
  try (destruct sx; reflexivity); try (destruct sy; reflexivity);
  try (destruct sx, sy; reflexivity).
assert (Hm : Pos.compare_cont Eq my mx = CompOpp (Pos.compare_cont Eq mx my))
  by (symmetry; apply (Pos.compare_cont_antisym mx my Eq)).
rewrite (Z.compare_antisym ex ey), Hm.
destruct sx, sy; simpl; try reflexivity;
  destruct (ex ?= ey); simpl; try reflexivity;
  destruct (Pos.compare_cont Eq mx my); reflexivity.
Qed.

Lemma ltb_leb_false (a b : float) : (a <? b)%float = true -> (b <=? a)%float = false.
Proof.
rewrite ltb_spec, leb_spec. unfold SFltb, SFleb.
rewrite (SFcompare_antisym (Prim2SF a) (Prim2SF b)).
destruct (SFcompare (Prim2SF a) (Prim2SF b)) as [[]|]; simpl; congruence.
Qed.

Lemma is_finite_spec (x : float) : is_finite x = finiteSF (Prim2SF x).
Proof.
unfold is_finite, is_nan, is_infinity.
rewrite !FloatAxioms.eqb_spec, abs_spec, Prim2SF_infinity.
destruct (Prim2SF x) as [s|s| |s m e]; unfold SFeqb; simpl; try reflexivity.
- destruct s; reflexivity.
- rewrite Z.compare_refl, Pos.compare_cont_refl. destruct s; reflexivity.
Qed.

(** *** Digits and the exponent function *)

Lemma digits2_pos_bounds (p : positive) :
2 ^ (Zpos (digits2_pos p) - 1) <= Zpos p < 2 ^ Zpos (digits2_pos p).
Proof.
induction p as [p IH|p IH|]; simpl digits2_pos.
- rewrite Pos2Z.inj_succ. replace (Z.succ (Zpos (digits2_pos p)) - 1) with (Z.succ (Zpos (digits2_pos p) - 1)) by lia.
  rewrite !Z.pow_succ_r by lia. lia.
- rewrite Pos2Z.inj_succ. replace (Z.succ (Zpos (digits2_pos p)) - 1) with (Z.succ (Zpos (digits2_pos p) - 1)) by lia.
  rewrite !Z.pow_succ_r by lia. lia.
- simpl. lia.
Qed.

Lemma Zdigits2_bounds (m : Z) : 0 < m -> 2 ^ (Zdigits2 m - 1) <= m < 2 ^ Zdigits2 m.
Proof. destruct m as [|p|p]; try lia. intros _. apply digits2_pos_bounds. Qed.

Lemma Zdigits2_pos (m : Z) : 0 < m -> 0 < Zdigits2 m.
Proof. destruct m; simpl; lia. Qed.

Lemma Zdigits2_le (a b : Z) : 0 < a -> a <= b -> Zdigits2 a <= Zdigits2 b.
Proof.
intros Ha Hab.
pose proof (Zdigits2_bounds a Ha) as [La _].
pose proof (Zdigits2_bounds b ltac:(lia)) as [_ Ub].
pose proof (Zdigits2_pos b ltac:(lia)).
assert (2 ^ (Zdigits2 a - 1) < 2 ^ Zdigits2 b) as Hlt by lia.
apply Z.pow_lt_mono_r_iff in Hlt; lia.
Qed.

Lemma Zdigits2_shift (a k : Z) : 0 < a -> 0 <= k -> Zdigits2 (a * 2 ^ k) = Zdigits2 a + k.
Proof.
intros Ha Hk.
pose proof (Zdigits2_bounds a Ha) as [La Ua].
pose proof (Zdigits2_pos a Ha) as Hd.
assert (Hp : 0 < 2 ^ k) by (apply Z.pow_pos_nonneg; lia).
assert (Hm : 0 < a * 2 ^ k) by lia.
pose proof (Zdigits2_bounds _ Hm) as [L U].
pose proof (Zdigits2_pos _ Hm) as Hd'.
assert (E1 : 2 ^ (Zdigits2 a - 1 + k) <= a * 2 ^ k).
{ rewrite Z.pow_add_r by lia. nia. }
assert (E2 : a * 2 ^ k < 2 ^ (Zdigits2 a + k)).
{ rewrite Z.pow_add_r by lia. nia. }
assert (H1 : 2 ^ (Zdigits2 a - 1 + k) < 2 ^ Zdigits2 (a * 2 ^ k)) by lia.
assert (H2 : 2 ^ (Zdigits2 (a * 2 ^ k) - 1) < 2 ^ (Zdigits2 a + k)) by lia.
apply Z.pow_lt_mono_r_iff in H1; try lia.
apply Z.pow_lt_mono_r_iff in H2; lia.
Qed.

Lemma fexp64_mono (a b : Z) : a <= b -> fexp64 a <= fexp64 b.
Proof. unfold SpecFloat.fexp. lia. Qed.

Lemma fexp64_emin (a : Z) : emin64 <= fexp64 a.
Proof. unfold SpecFloat.fexp. lia. Qed.

(** *** Shifting a mantissa right *)
Lemma iter_pos_nat (A : Type) (f : A -> A) (p : positive) (x : A) :
SpecFloat.iter_pos f p x = Nat.iter (Pos.to_nat p) f x.
Proof.
revert x. induction p as [p IH|p IH|]; intros x; simpl SpecFloat.iter_pos.
- rewrite !IH, Pos2Nat.inj_xI. replace (S (2 * Pos.to_nat p)) with (Pos.to_nat p + S (Pos.to_nat p))%nat by lia.
  rewrite Nat.iter_add, Nat.iter_succ_r. reflexivity.
- rewrite !IH, Pos2Nat.inj_xO. replace (2 * Pos.to_nat p)%nat with (Pos.to_nat p + Pos.to_nat p)%nat by lia.
  rewrite Nat.iter_add. reflexivity.
- reflexivity.
Qed.

Lemma shr_1_spec (r : shr_record) : 0 <= shr_m r ->
shr_m (shr_1 r) = shr_m r / 2
/\ shr_s (shr_1 r) = shr_r r || shr_s r
/\ (shr_m r mod 2 = 0 -> shr_r (shr_1 r) = false).
Proof.
destruct r as [m r s]. cbn [shr_m shr_r shr_s]. intros Hm.
destruct m as [|[p|p|]|p]; cbn [shr_1 shr_m shr_r shr_s]; try lia;
  (split; [|split]); try reflexivity;
  try (intros _; reflexivity);
  try (intros Hodd; exfalso);
  try pose proof (Pos2Z.inj_xI p) as Hp;
  try pose proof (Pos2Z.inj_xO p) as Hq;
  Z.div_mod_to_equations; lia.
Qed.

Lemma iter_shr_1_spec (m0 : Z) (k : nat) : 0 <= m0 ->
let r := Nat.iter k shr_1 {| shr_m := m0; shr_r := false; shr_s := false |} in
shr_m r = m0 / 2 ^ Z.of_nat k
/\ (m0 mod 2 ^ Z.of_nat k = 0 -> shr_r r = false /\ shr_s r = false).
Proof.
intros Hm. induction k as [|k IH]; intros r.
- subst r. simpl. rewrite Z.div_1_r. auto.
- subst r. simpl Nat.iter. cbv zeta in IH.
  set (rk := Nat.iter k shr_1 _) in *.
  destruct IH as [IHm IHb].
  assert (Hp : 0 < 2 ^ Z.of_nat k) by (apply Z.pow_pos_nonneg; lia).
  assert (Hrk : 0 <= shr_m rk) by (rewrite IHm; apply Z.div_pos; lia).
  destruct (shr_1_spec rk Hrk) as (S1 & S2 & S3).
  rewrite Nat2Z.inj_succ, Z.pow_succ_r by lia.
  split.
  + rewrite S1, IHm, Z.div_div by lia. f_equal. lia.
  + intros Hmod.
    assert (Hk : m0 mod 2 ^ Z.of_nat k = 0 /\ (m0 / 2 ^ Z.of_nat k) mod 2 = 0).
    { apply Z.mod_divide in Hmod; [|lia]. destruct Hmod as [q Hq].
      split.
      - apply Z.mod_divide; [lia|]. exists (q * 2). lia.
      - replace m0 with ((q * 2) * 2 ^ Z.of_nat k) by lia.
        rewrite Z.div_mul by lia. apply Z.mod_mul. lia. }
    destruct Hk as [Hk1 Hk2]. destruct (IHb Hk1) as [Hr Hs].
    split.
    * apply S3. rewrite IHm. exact Hk2.
    * rewrite S2, Hr, Hs. reflexivity.
Qed.

Lemma shr_fexp_spec (m e : Z) : 0 <= m ->
let e' := Z.max e (fexp64 (Zdigits2 m + e)) in
exists r, shr_fexp prec emax m e loc_Exact = (r, e')
  /\ shr_m r = m / 2 ^ (e' - e)
  /\ (m mod 2 ^ (e' - e) = 0 -> loc_of_shr_record r = loc_Exact).
Proof.
intros Hm e'. unfold shr_fexp, shr. simpl shr_record_of_loc.
destruct (fexp64 (Zdigits2 m + e) - e) as [|p|p] eqn:En.
- exists {| shr_m := m; shr_r := false; shr_s := false |}.
  replace e' with e by (unfold e'; lia). rewrite Z.sub_diag. simpl.
  rewrite Z.div_1_r. auto.
- pose proof (iter_shr_1_spec m (Pos.to_nat p) Hm) as Hs. cbv zeta in Hs.
  rewrite positive_nat_Z in Hs. rewrite iter_pos_nat.
  set (r := Nat.iter _ _ _) in *.
  exists r. replace e' with (e + Zpos p) by (unfold e'; lia).
  replace (e + Zpos p - e) with (Zpos p) by lia.
  destruct Hs as [H1 H2]. repeat split; auto.
  intros Hmod. destruct (H2 Hmod) as [Hr Hss].
  destruct r as [rm rr rs]. simpl in *. subst. reflexivity.
- exists {| shr_m := m; shr_r := false; shr_s := false |}.
  replace e' with e by (unfold e'; lia). rewrite Z.sub_diag. simpl.
  rewrite Z.div_1_r. auto.
Qed.

(** *** Rounding a positive mantissa *)
Lemma binary_round_aux_spec (M E : Z) : 0 <= M ->
let F := Z.max E (fexp64 (Zdigits2 M + E)) in
let m1 := M / 2 ^ (F - E) in
exists m2, (m2 = m1 \/ (m2 = m1 + 1 /\ M mod 2 ^ (F - E) <> 0))
   /\ binary_round_aux prec emax false M E loc_Exact = finalSF m2 F.
Proof.
intros HM F m1. unfold binary_round_aux.
destruct (shr_fexp_spec M E HM) as (r & Hr & Hm & Hl). fold F in Hr, Hm, Hl.
rewrite Hr.
set (m2 := round_nearest_even (shr_m r) (loc_of_shr_record r)).
assert (Hp : 0 < 2 ^ (F - E)) by (apply Z.pow_pos_nonneg; unfold F; lia).
assert (Hm1 : 0 <= m1) by (apply Z.div_pos; lia).
assert (Hcases : m2 = m1 \/ (m2 = m1 + 1 /\ M mod 2 ^ (F - E) <> 0)).
{ unfold m2. rewrite Hm. fold m1.
  destruct (loc_of_shr_record r) as [|[]] eqn:El; simpl; auto.
  - destruct (Z.even m1); auto. right. split; auto. intros H0. specialize (Hl H0). congruence.
  - right. split; auto. intros H0. specialize (Hl H0). congruence. }
assert (Hm2 : 0 <= m2) by lia.
destruct (shr_fexp_spec m2 F Hm2) as (r' & Hr' & Hm' & _).
rewrite Hr'. exists m2. split; [exact Hcases|].
unfold finalSF. rewrite Hm'. reflexivity.
Qed.

Lemma shl_align_spec (mx : positive) (ex e' : Z) :
snd (shl_align mx ex e') = Z.min ex e'
/\ Zpos (fst (shl_align mx ex e')) = Zpos mx * 2 ^ (ex - Z.min ex e').
Proof.
unfold shl_align. destruct (e' - ex) as [|d|d] eqn:Ed; simpl fst; simpl snd.
- replace (Z.min ex e') with ex by lia. rewrite Z.sub_diag. simpl. lia.
- replace (Z.min ex e') with ex by lia. rewrite Z.sub_diag. simpl. lia.
- replace (Z.min ex e') with e' by lia. split; [reflexivity|].
  change (Pos.iter xO mx d) with (shift_pos d mx).
  rewrite shift_pos_correct, Z.pow_pos_fold.
  replace (ex - e') with (Zpos d) by lia. lia.
Qed.

Lemma binary_round_spec (M : positive) (E : Z) :
let F := fexp64 (Zdigits2 (Zpos M) + E) in
let ez := Z.min E F in
let Mz := Zpos M * 2 ^ (E - ez) in
let m1 := Mz / 2 ^ (F - ez) in
exists m2, (m2 = m1 \/ (m2 = m1 + 1 /\ Mz mod 2 ^ (F - ez) <> 0))
   /\ binary_round prec emax false M E = finalSF m2 F.
Proof.
intros F ez Mz m1. unfold binary_round.
pose proof (shl_align_spec M E (fexp64 (Zpos (digits2_pos M) + E))) as [Hs Hf].
destruct (shl_align M E (fexp64 (Zpos (digits2_pos M) + E))) as [mz ez'].
cbn [fst snd] in Hs, Hf. change (Zpos (digits2_pos M)) with (Zdigits2 (Zpos M)) in Hs, Hf.
fold F in Hs, Hf. fold ez in Hs, Hf. subst ez'. fold Mz in Hf.
assert (Hpos : 0 < Mz) by (unfold Mz; apply Z.mul_pos_pos; [lia|apply Z.pow_pos_nonneg; unfold ez; lia]).
destruct (binary_round_aux_spec (Zpos mz) ez ltac:(lia)) as (m2 & Hc & Hr).
rewrite Hf in Hc, Hr.
assert (HD : Zdigits2 Mz + ez = Zdigits2 (Zpos M) + E).
{ unfold Mz. rewrite Zdigits2_shift by (unfold ez; lia). lia. }
rewrite HD in Hc, Hr. fold F in Hc, Hr.
replace (Z.max ez F) with F in Hc, Hr by (unfold ez; lia).
exists m2. split; [exact Hc|]. rewrite Hf. exact Hr.
Qed.

Lemma finalSF_zero (F : Z) : finalSF 0 F = S754_zero false.
Proof. unfold finalSF. rewrite Zdiv_0_l. reflexivity. Qed.

Lemma finalSF_pos (m2 F : Z) : 0 < m2 -> emin64 <= F ->
let F' := Z.max F (fexp64 (Zdigits2 m2 + F)) in
exists m3 : positive, m2 / 2 ^ (F' - F) = Zpos m3
  /\ finalSF m2 F = if F' <=? emax - prec then S754_finite false m3 F' else S754_infinity false.
Proof.
intros Hm HF F'.
assert (H3 : 0 < m2 / 2 ^ (F' - F)).
{ destruct (Z.eq_dec F' F) as [->|Hne].
  - rewrite Z.sub_diag, Z.pow_0_r, Z.div_1_r. exact Hm.
  - assert (HF' : F' = Zdigits2 m2 + F - prec).
    { unfold F' in *. unfold SpecFloat.fexp in *. unfold SpecFloat.emin in *. lia. }
    replace (F' - F) with (Zdigits2 m2 - prec) by lia.
    pose proof (Zdigits2_bounds m2 Hm) as [L _].
    assert (Hk : 0 <= Zdigits2 m2 - prec) by (unfold F' in *; lia).
    apply Z.div_str_pos. split; [apply Z.pow_pos_nonneg; lia|].
    eapply Z.le_trans; [|exact L]. apply Z.pow_le_mono_r; [lia|]. unfold prec. lia. }
destruct (m2 / 2 ^ (F' - F)) as [|m3|m3] eqn:E3; try lia.
exists m3. split; [reflexivity|]. unfold finalSF. fold F'. rewrite E3. reflexivity.
Qed.

Lemma bounded_canonical (mx : positive) (ex : Z) : bounded prec emax mx ex = true ->
fexp64 (Zdigits2 (Zpos mx) + ex) = ex /\ ex <= emax - prec /\ emin64 <= ex.
Proof.
unfold bounded, canonical_mantissa. intros H. apply andb_prop in H as [H1 H2].
apply Z.eqb_eq in H1. apply Z.leb_le in H2. simpl Zdigits2.
repeat split; auto. rewrite <- H1. apply fexp64_emin.
Qed.

Lemma binary_round_ge (mx : positive) (ex : Z) (M : positive) (E : Z) :
bounded prec emax mx ex = true -> E <= ex -> Zpos mx * 2 ^ (ex - E) <= Zpos M ->
geSF mx ex (binary_round prec emax false M E).
Proof.
intros Hb HE HM.
destruct (bounded_canonical mx ex Hb) as (Hc & Hmax & Hmin).
destruct (binary_round_spec M E) as (m2 & Hm2 & Hr). cbv zeta in Hm2, Hr.
set (d := Zdigits2 (Zpos M)) in *. set (F := fexp64 (d + E)) in *.
assert (Hp : 0 < 2 ^ (ex - E)) by (apply Z.pow_pos_nonneg; lia).
assert (Hd : Zdigits2 (Zpos mx) + (ex - E) <= d).
{ rewrite <- Zdigits2_shift by lia. apply Zdigits2_le; lia. }
assert (HF : ex <= F).
{ rewrite <- Hc. apply fexp64_mono. lia. }
replace (Z.min E F) with E in Hm2 by lia.
rewrite Z.sub_diag, Z.pow_0_r, Z.mul_1_r in Hm2.
assert (HpF : 0 < 2 ^ (F - E)) by (apply Z.pow_pos_nonneg; lia).
rewrite Hr. clear Hr.
set (m1 := Zpos M / 2 ^ (F - E)) in *.
assert (Hge : m1 <= m2) by lia.
destruct (Z.eq_dec F ex) as [Heq|Hne].
- assert (H1 : Zpos mx <= m1).
  { unfold m1. apply Z.div_le_lower_bound; [lia|]. rewrite Heq. lia. }
  destruct (finalSF_pos m2 F ltac:(lia) ltac:(lia)) as (m3 & E3 & ->).
  cbv zeta in E3.
  set (F' := Z.max F (fexp64 (Zdigits2 m2 + F))) in *.
  destruct (F' <=? emax - prec); simpl; [|exact I].
  destruct (Z.eq_dec F' F) as [Heq'|Hne'].
  + right. split; [lia|]. rewrite <- E3, Heq', Z.sub_diag, Z.pow_0_r, Z.div_1_r. lia.
  + left. unfold F' in *. lia.
- assert (HFd : F = d + E - prec).
  { unfold F in *. unfold SpecFloat.fexp in *. lia. }
  assert (H1 : 0 < m1).
  { unfold m1. apply Z.div_str_pos. split; [lia|].
    pose proof (Zdigits2_bounds (Zpos M) ltac:(lia)) as [L _]. fold d in L.
    eapply Z.le_trans; [|exact L]. apply Z.pow_le_mono_r; [lia|]. rewrite HFd. unfold prec. lia. }
  destruct (finalSF_pos m2 F ltac:(lia) ltac:(lia)) as (m3 & E3 & ->).
  cbv zeta in E3.
  set (F' := Z.max F (fexp64 (Zdigits2 m2 + F))) in *.
  destruct (F' <=? emax - prec); simpl; [|exact I].
  left. unfold F'. lia.
Qed.

Lemma binary_round_le (mx : positive) (ex : Z) (M : positive) (E : Z) :
bounded prec emax mx ex = true -> E <= ex -> Zpos M <= Zpos mx * 2 ^ (ex - E) ->
leSF mx ex (binary_round prec emax false M E).
Proof.
intros Hb HE HM.
destruct (bounded_canonical mx ex Hb) as (Hc & Hmax & Hmin).
destruct (binary_round_spec M E) as (m2 & Hm2 & Hr). cbv zeta in Hm2, Hr.
set (d := Zdigits2 (Zpos M)) in *. set (F := fexp64 (d + E)) in *.
set (ez := Z.min E F) in *. set (Mz := Zpos M * 2 ^ (E - ez)) in *.
set (n := F - ez) in *. set (m1 := Mz / 2 ^ n) in *.
assert (Hp : 0 < 2 ^ (ex - E)) by (apply Z.pow_pos_nonneg; lia).
assert (Hd : d <= Zdigits2 (Zpos mx) + (ex - E)).
{ rewrite <- Zdigits2_shift by lia. apply Zdigits2_le; lia. }
assert (HF : F <= ex).
{ rewrite <- Hc. apply fexp64_mono. lia. }
assert (Hn : 0 <= n) by (unfold n, ez; lia).
assert (Hpn : 0 < 2 ^ n) by (apply Z.pow_pos_nonneg; lia).
assert (Hpz : 0 < 2 ^ (E - ez)) by (apply Z.pow_pos_nonneg; unfold ez; lia).
assert (HpK : 0 < 2 ^ (ex - F)) by (apply Z.pow_pos_nonneg; lia).
set (K := Zpos mx * 2 ^ (ex - F)).
assert (HMz : Mz <= K * 2 ^ n).
{ unfold Mz, K. rewrite <- Z.mul_assoc, <- Z.pow_add_r by lia.
  replace (ex - F + n) with ((ex - E) + (E - ez)) by (unfold n; lia).
  rewrite Z.pow_add_r by (unfold ez; lia). nia. }
assert (HMz0 : 0 < Mz) by (unfold Mz; nia).
assert (Hm1 : 0 <= m1) by (apply Z.div_pos; lia).
assert (H2 : m2 <= K).
{ destruct Hm2 as [->|[-> Hmod]].
  - unfold m1. apply Z.div_le_upper_bound; [lia|]. lia.
  - assert (Mz <> K * 2 ^ n).
    { intros Heq. apply Hmod. rewrite Heq. apply Z.mod_mul. lia. }
    assert (m1 < K); [|lia].
    unfold m1. apply Z.div_lt_upper_bound; [lia|]. lia. }
assert (H0 : 0 <= m2) by lia.
rewrite Hr. clear Hr.
destruct (Z.eq_dec m2 0) as [->|Hnz].
- rewrite finalSF_zero. exact I.
- destruct (finalSF_pos m2 F ltac:(lia) ltac:(apply fexp64_emin)) as (m3 & E3 & ->).
  cbv zeta in E3.
  set (F' := Z.max F (fexp64 (Zdigits2 m2 + F))) in *.
  assert (HK : 0 < K) by (unfold K; nia).
  assert (HD2 : Zdigits2 m2 + F <= Zdigits2 (Zpos mx) + ex).
  { assert (Zdigits2 m2 <= Zdigits2 K) by (apply Zdigits2_le; lia).
    unfold K in H. rewrite Zdigits2_shift in H by lia. lia. }
  assert (HF' : F' <= ex).
  { unfold F'. apply Z.max_lub; [lia|]. rewrite <- Hc. apply fexp64_mono. lia. }
  replace (F' <=? emax - prec) with true by (symmetry; apply Z.leb_le; lia).
  simpl.
  destruct (Z.eq_dec F' ex) as [Heq|Hne]; [right|left; lia].
  split; [exact Heq|].
  rewrite <- E3.
  assert (Hq : 0 < 2 ^ (F' - F)) by (apply Z.pow_pos_nonneg; unfold F'; lia).
  apply Z.div_le_upper_bound; [lia|].
  rewrite Heq. unfold K in H2. lia.
Qed.

(** *** Comparison and arithmetic on IEEE-754 data *)
Lemma SFleb_finite (m1 : positive) (e1 : Z) (m2 : positive) (e2 : Z) :
SFleb (S754_finite false m1 e1) (S754_finite false m2 e2) = true
<-> e1 < e2 \/ (e1 = e2 /\ Zpos m1 <= Zpos m2).
Proof.
unfold SFleb, SFcompare. rewrite Pos.compare_cont_spec. simpl Pos.switch_Eq.
destruct (Z.compare_spec e1 e2); destruct (Pos.compare_spec m1 m2);
  split; intros Hx; try reflexivity; try discriminate; lia.
Qed.

Lemma SFltb_finite (m1 : positive) (e1 : Z) (m2 : positive) (e2 : Z) :
SFltb (S754_finite false m1 e1) (S754_finite false m2 e2) = true
<-> e1 < e2 \/ (e1 = e2 /\ Zpos m1 < Zpos m2).
Proof.
unfold SFltb, SFcompare. rewrite Pos.compare_cont_spec. simpl Pos.switch_Eq.
destruct (Z.compare_spec e1 e2); destruct (Pos.compare_spec m1 m2);
  split; intros Hx; try reflexivity; try discriminate; lia.
Qed.

Lemma geSF_leb (mx : positive) (ex : Z) (r : spec_float) :
geSF mx ex r -> SFleb (S754_finite false mx ex) r = true /\ posSF r = true.
Proof.
destruct r as [s|[]| |[] m e]; cbn [geSF posSF]; try tauto; intros Hx;
  (split; [|reflexivity]); try reflexivity.
apply SFleb_finite. lia.
Qed.

Lemma leSF_leb (mx : positive) (ex : Z) (r : spec_float) :
leSF mx ex r -> SFleb r (S754_finite false mx ex) = true /\ nonnegSF r = true
                /\ SFleb (S754_zero false) r = true.
Proof.
destruct r as [[]|s| |[] m e]; cbn [leSF nonnegSF]; try tauto; intros Hx;
  (split; [|split; reflexivity]); try reflexivity.
apply SFleb_finite. lia.
Qed.

Lemma SFleb_trans (a b c : spec_float) :
nonnegSF a = true -> nonnegSF b = true -> nonnegSF c = true ->
SFleb a b = true -> SFleb b c = true -> SFleb a c = true.
Proof.
destruct a as [sa|[]| |[] ma ea], b as [sb|[]| |[] mb eb], c as [sc|[]| |[] mc ec];
  simpl; try discriminate; auto; intros _ _ _.
rewrite !SFleb_finite. lia.
Qed.

Lemma SFleb_refl (a : spec_float) : a <> S754_nan -> SFleb a a = true.
Proof.
destruct a as [s|s| |s m e]; unfold SFleb; simpl; try congruence; intros _.
- destruct s; reflexivity.
- rewrite Z.compare_refl, Pos.compare_cont_refl. destruct s; reflexivity.
Qed.

Lemma SFadd_pos_nonneg (x y : spec_float) :
valid_binary x = true -> posSF x = true -> nonnegSF y = true ->
SFleb x (SF64add x y) = true /\ posSF (SF64add x y) = true.
Proof.
intros Hv Hx Hy.
destruct x as [sx|[]| |[] mx ex]; try discriminate;
  destruct y as [sy|[]| |[] my ey]; try discriminate; simpl in Hv;
  try (split; [apply SFleb_refl; discriminate|reflexivity]);
  try (split; reflexivity).
unfold SF64add, SFadd. cbn [cond_Zopp].
pose proof (shl_align_spec mx ex (Z.min ex ey)) as [_ Ha].
pose proof (shl_align_spec my ey (Z.min ex ey)) as [_ Hb].
set (a := fst (shl_align mx ex (Z.min ex ey))) in *.
set (b := fst (shl_align my ey (Z.min ex ey))) in *.
change (Zpos a + Zpos b) with (Zpos (a + b)). cbn [binary_normalize].
apply geSF_leb. apply binary_round_ge; [exact Hv|lia|].
replace (Z.min ex (Z.min ex ey)) with (Z.min ex ey) in Ha by lia.
rewrite Pos2Z.inj_add, Ha. lia.
Qed.

Lemma SFmul_pos (x y : spec_float) :
posSF x = true -> posSF y = true -> nonnegSF (SF64mul x y) = true.
Proof.
intros Hx Hy.
destruct x as [sx|[]| |[] mx ex]; try discriminate;
  destruct y as [sy|[]| |[] my ey]; try discriminate; try reflexivity.
unfold SF64mul, SFmul. cbn [xorb].
destruct (binary_round_aux_spec (Zpos (mx * my)) (ex + ey) ltac:(lia)) as (m2 & Hc & ->).
cbv zeta in Hc.
set (F := Z.max (ex + ey) (fexp64 (Zdigits2 (Zpos (mx * my)) + (ex + ey)))) in *.
assert (Hp : 0 < 2 ^ (F - (ex + ey))) by (apply Z.pow_pos_nonneg; unfold F; lia).
assert (H1 : 0 <= Zpos (mx * my) / 2 ^ (F - (ex + ey))) by (apply Z.div_pos; lia).
destruct (Z.eq_dec m2 0) as [->|Hnz].
- rewrite finalSF_zero. reflexivity.
- assert (HF : emin64 <= F).
  { unfold F. pose proof (fexp64_emin (Zdigits2 (Zpos (mx * my)) + (ex + ey))). lia. }
  destruct (finalSF_pos m2 F ltac:(lia) HF) as (m3 & _ & ->).
  destruct (_ <=? _); reflexivity.
Qed.

Lemma canonical_lt (mx : positive) (ex : Z) (my : positive) (ey : Z) :
bounded prec emax mx ex = true -> bounded prec emax my ey = true -> ey < ex ->
Zpos my < Zpos mx * 2 ^ (ex - ey).
Proof.
intros Hx Hy Hlt.
destruct (bounded_canonical mx ex Hx) as (Hcx & _ & _).
destruct (bounded_canonical my ey Hy) as (Hcy & _ & _).
assert (Hd : Zdigits2 (Zpos my) + ey < Zdigits2 (Zpos mx) + ex).
{ destruct (Z.lt_ge_cases (Zdigits2 (Zpos my) + ey) (Zdigits2 (Zpos mx) + ex)) as [H|H]; auto.
  apply fexp64_mono in H. lia. }
pose proof (Zdigits2_bounds (Zpos my) ltac:(lia)) as [_ Uy].
pose proof (Zdigits2_bounds (Zpos mx) ltac:(lia)) as [Lx _].
pose proof (Zdigits2_pos (Zpos mx) ltac:(lia)) as Hdx.
pose proof (Zdigits2_pos (Zpos my) ltac:(lia)) as Hdy.
assert (H1 : 2 ^ Zdigits2 (Zpos my) <= 2 ^ (Zdigits2 (Zpos mx) - 1 + (ex - ey))).
{ apply Z.pow_le_mono_r; lia. }
rewrite Z.pow_add_r in H1 by lia.
assert (Hp : 0 < 2 ^ (ex - ey)) by (apply Z.pow_pos_nonneg; lia).
nia.
Qed.

Lemma SFsub_lt (x y : spec_float) :
valid_binary x = true -> valid_binary y = true ->
posSF x = true -> nonnegSF y = true -> SFltb y x = true -> finiteSF y = true ->
SFleb (SF64sub x y) x = true /\ SFleb (S754_zero false) (SF64sub x y) = true
/\ nonnegSF (SF64sub x y) = true.
Proof.
intros Hvx Hvy Hx Hy Hlt Hfin.
destruct x as [sx|[]| |[] mx ex]; try discriminate;
  destruct y as [sy|[]| |[] my ey]; try discriminate; simpl in Hvx, Hvy;
  try (repeat split; try reflexivity; apply SFleb_refl; discriminate).
apply SFltb_finite in Hlt.
unfold SF64sub, SFsub. cbn [cond_Zopp].
pose proof (shl_align_spec mx ex (Z.min ex ey)) as [_ Ha].
pose proof (shl_align_spec my ey (Z.min ex ey)) as [_ Hb].
set (a := fst (shl_align mx ex (Z.min ex ey))) in *.
set (b := fst (shl_align my ey (Z.min ex ey))) in *.
replace (Z.min ex (Z.min ex ey)) with (Z.min ex ey) in Ha by lia.
replace (Z.min ey (Z.min ex ey)) with (Z.min ex ey) in Hb by lia.
assert (Hab : Zpos b < Zpos a).
{ destruct Hlt as [Hlt|[He Hm]].
  - pose proof (canonical_lt mx ex my ey Hvx Hvy Hlt).
    replace (Z.min ex ey) with ey in Ha, Hb by lia.
    rewrite Z.sub_diag, Z.pow_0_r in Hb. lia.
  - subst ey. replace (Z.min ex ex) with ex in Ha, Hb by lia.
    rewrite Z.sub_diag, Z.pow_0_r in Ha, Hb. lia. }
destruct (Zpos a - Zpos b) as [|p|p] eqn:Ep; try lia.
cbn [binary_normalize].
assert (Hle : leSF mx ex (binary_round prec emax false p (Z.min ex ey))).
{ apply binary_round_le; [exact Hvx|lia|]. lia. }
apply leSF_leb in Hle. tauto.
Qed.

Lemma SFsub_diag (x : spec_float) : finiteSF x = true -> posSF x = true ->
SF64sub x x = S754_zero false.
Proof.
destruct x as [sx|[]| |[] mx ex]; try discriminate. intros _ _.
unfold SF64sub, SFsub. cbn [cond_Zopp]. rewrite Z.sub_diag. reflexivity.
Qed.

(** *** The primitive operations *)

Lemma ltb_zero_spec (x : float) : (0 <? x)%float = posSF (Prim2SF x).
Proof.
rewrite ltb_spec, Prim2SF_zero.
destruct (Prim2SF x) as [s|[]| |[] m e]; reflexivity.
Qed.

Lemma leb_zero_spec (x : float) : (0 <=? x)%float = nonnegSF (Prim2SF x).
Proof.
rewrite leb_spec, Prim2SF_zero.
destruct (Prim2SF x) as [s|[]| |[] m e]; reflexivity.
Qed.

Lemma posSF_nonnegSF (x : spec_float) : posSF x = true -> nonnegSF x = true.
Proof. destruct x as [s|[]| |[] m e]; simpl; congruence. Qed.

Lemma posSF_not_nan (x : spec_float) : nonnegSF x = true -> x <> S754_nan.
Proof. destruct x; simpl; congruence. Qed.

Lemma leb_refl_nonneg (x : float) : (0 <=? x)%float = true -> (x <=? x)%float = true.
Proof.
rewrite leb_zero_spec, leb_spec. intros Hx.
apply SFleb_refl, posSF_not_nan, Hx.
Qed.

Lemma ltb_zero_leb_zero (x : float) : (0 <? x)%float = true -> (0 <=? x)%float = true.
Proof. rewrite ltb_zero_spec, leb_zero_spec. apply posSF_nonnegSF. Qed.

Lemma add_pos_nonneg (x y : float) :
(0 <? x)%float = true -> nonnegSF (Prim2SF y) = true ->
(x <=? x + y)%float = true /\ (0 <? x + y)%float = true.
Proof.
rewrite !ltb_zero_spec, leb_spec, add_spec. intros Hx Hy.
apply SFadd_pos_nonneg; auto. apply Prim2SF_valid.
Qed.

Lemma mul_pos_pos (a b : float) :
(0 <? a)%float = true -> (0 <? b)%float = true -> nonnegSF (Prim2SF (a * b)) = true.
Proof. rewrite !ltb_zero_spec, mul_spec. apply SFmul_pos. Qed.

Lemma leb_trans_nonneg (a b c : float) :
(0 <=? a)%float = true -> (a <=? b)%float = true -> (b <=? c)%float = true ->
(a <=? c)%float = true.
Proof.
rewrite leb_zero_spec, !leb_spec. intros Ha Hab Hbc.
assert (Hb : nonnegSF (Prim2SF b) = true).
{ destruct (Prim2SF a) as [sa|[]| |[] ma ea]; try discriminate;
    destruct (Prim2SF b) as [sb|[]| |[] mb eb]; try reflexivity; discriminate. }
assert (Hc : nonnegSF (Prim2SF c) = true).
{ destruct (Prim2SF b) as [sb|[]| |[] mb eb]; try discriminate;
    destruct (Prim2SF c) as [sc|[]| |[] mc ec]; try reflexivity; discriminate. }
apply (SFleb_trans (Prim2SF a) (Prim2SF b) (Prim2SF c)); assumption.
Qed.

Lemma is_nan_spec (x : float) :
is_nan x = match Prim2SF x with S754_nan => true | _ => false end.
Proof.
unfold is_nan. rewrite FloatAxioms.eqb_spec.
destruct (Prim2SF x) as [s|s| |s m e]; unfold SFeqb; simpl; try reflexivity.
- destruct s; reflexivity.
- rewrite Z.compare_refl, Pos.compare_cont_refl. destruct s; reflexivity.
Qed.

Lemma is_zero_spec (x : float) :
is_zero x = match Prim2SF x with S754_zero _ => true | _ => false end.
Proof.
unfold is_zero. rewrite FloatAxioms.eqb_spec. change (Prim2SF PrimFloat.zero) with (S754_zero false).
destruct (Prim2SF x) as [s|s| |s m e]; unfold SFeqb; simpl; try reflexivity;
  destruct s; reflexivity.
Qed.

(** The free distance left after taking the smaller of it and a segment's
  distance off it. *)
Lemma SFsub_min (x y : spec_float) :
valid_binary x = true -> valid_binary y = true ->
posSF x = true -> nonnegSF y = true -> finiteSF y = true ->
let m := if SFltb x y then x else if SFltb y x then y else x in
SFleb (SF64sub x m) x = true /\ SFleb (S754_zero false) (SF64sub x m) = true.
Proof.
intros Hvx Hvy Hx Hy Hfy m.
assert (Hdiag : finiteSF x = true ->
                SFleb (SF64sub x x) x = true
                /\ SFleb (S754_zero false) (SF64sub x x) = true).
{ intros Hfx. rewrite (SFsub_diag x Hfx Hx).
  destruct x as [sx|[]| |[] mx ex]; try discriminate; split; reflexivity. }
subst m. destruct (SFltb x y) eqn:Hxy.
- apply Hdiag.
  destruct x as [sx|[]| |[] mx ex]; try discriminate; try reflexivity.
  destruct y as [sy|[]| |[] my ey]; discriminate.
- destruct (SFltb y x) eqn:Hyx.
  + destruct (SFsub_lt x y Hvx Hvy Hx Hy Hyx Hfy) as (H1 & H2 & _). auto.
  + apply Hdiag.
    destruct x as [sx|[]| |[] mx ex]; try discriminate; try reflexivity.
    destruct y as [sy|[]| |[] my ey]; discriminate.
Qed.

Lemma sub_min_bounds (a d : float) :
(0 <? a)%float = true -> (0 <=? d)%float = true -> is_finite d = true ->
(a - Binary64.min a d <=? a)%float = true
/\ (0 <=? a - Binary64.min a d)%float = true.
Proof.
rewrite ltb_zero_spec, leb_zero_spec, is_finite_spec. intros Ha Hd Hfd.
assert (Hmin : Prim2SF (Binary64.min a d)
               = if SFltb (Prim2SF a) (Prim2SF d) then Prim2SF a
                 else if SFltb (Prim2SF d) (Prim2SF a) then Prim2SF d else Prim2SF a).
{ unfold Binary64.min. rewrite !is_nan_spec, is_zero_spec, !ltb_spec.
  destruct (Prim2SF a) as [sa|[]| |[] ma ea] eqn:Ea; try discriminate;
    destruct (Prim2SF d) as [sd|[]| |[] md ed] eqn:Ed; try discriminate;
    repeat match goal with
           | |- context [if ?c then _ else _] => destruct c
           end; congruence. }
rewrite !leb_spec, sub_spec, Prim2SF_zero, Hmin.
apply SFsub_min; auto using Prim2SF_valid.
Qed.

(** *** Order and the extrema *)

Lemma ltb_leb (a b : float) : (a <? b)%float = true -> (a <=? b)%float = true.
Proof.
  rewrite ltb_spec, leb_spec. unfold SFltb, SFleb.
  destruct (SFcompare (Prim2SF a) (Prim2SF b)) as [[]|]; congruence.
Qed.

Lemma leb_refl (a : float) : is_nan a = false -> (a <=? a)%float = true.
Proof.
  rewrite is_nan_spec, leb_spec. intros Ha. apply SFleb_refl.
  destruct (Prim2SF a); congruence.
Qed.

Lemma SFcompare_some (x y : spec_float) :
  x <> S754_nan -> y <> S754_nan -> exists c, SFcompare x y = Some c.
Proof.
  destruct x as [sx|sx| |sx mx ex], y as [sy|sy| |sy my ey]; simpl;
    intros Hx Hy; try congruence; eexists; reflexivity.
Qed.

Lemma leb_total (a b : float) :
  is_nan a = false -> is_nan b = false -> (b <? a)%float = false -> (a <=? b)%float = true.
Proof.
  rewrite !is_nan_spec, ltb_spec, leb_spec. intros Ha Hb. unfold SFltb, SFleb.
  rewrite (SFcompare_antisym (Prim2SF a) (Prim2SF b)).
  destruct (SFcompare_some (Prim2SF a) (Prim2SF b)) as [c Hc];
    [destruct (Prim2SF a); congruence|destruct (Prim2SF b); congruence|].
  rewrite Hc. destruct c; simpl; congruence.
Qed.

Lemma max_ge_left (a b : float) :
  is_nan a = false -> is_nan b = false -> (a <=? Binary64.max a b)%float = true.
Proof.
  intros Ha Hb. unfold Binary64.max. rewrite Ha, Hb.
  destruct (a <? b)%float eqn:Hab; [apply ltb_leb, Hab|].
  destruct (b <? a)%float eqn:Hba; [apply leb_refl, Ha|].
  destruct (is_zero a); [|apply leb_refl, Ha].
  destruct (get_sign a); [|apply leb_refl, Ha].
  apply leb_total; assumption.
Qed.

Lemma max_not_nan (a b : float) :
  is_nan a = false -> is_nan b = false -> is_nan (Binary64.max a b) = false.
Proof.
  intros Ha Hb. unfold Binary64.max. rewrite Ha, Hb.
  repeat match goal with |- context [if ?c then _ else _] => destruct c end; assumption.
Qed.

(** *** Sums of values that are not negative *)

Lemma SFadd_nonneg (x y : spec_float) :
  valid_binary x = true -> nonnegSF x = true -> nonnegSF y = true ->
  SFleb x (SF64add x y) = true /\ nonnegSF (SF64add x y) = true.
Proof.
  intros Hv Hx Hy.
  destruct (posSF x) eqn:Hpos.
  - destruct (SFadd_pos_nonneg x y Hv Hpos Hy) as [H1 H2].
    split; [exact H1|apply posSF_nonnegSF, H2].
  - destruct x as [sx|[]| |[] mx ex]; try discriminate.
    destruct y as [sy|[]| |[] my ey]; try discriminate;
      destruct sx; try destruct sy; split; reflexivity.
Qed.

Lemma add_nonneg (x y : float) :
  (0 <=? x)%float = true -> (0 <=? y)%float = true ->
  (x <=? x + y)%float = true /\ (0 <=? x + y)%float = true.
Proof.
  rewrite !leb_zero_spec, leb_spec, add_spec. intros Hx Hy.
  apply SFadd_nonneg; auto. apply Prim2SF_valid.
Qed.

(** *** The sign of a rounded value *)

Lemma binary_round_aux_opp (m e : Z) (l : location) :
  binary_round_aux prec emax true m e l = SFopp (binary_round_aux prec emax false m e l).
Proof.
  unfold binary_round_aux.
  destruct (shr_fexp prec emax m e l) as [mrs' e'].
  destruct (shr_fexp prec emax _ e' loc_Exact) as [mrs'' e''].
  destruct (shr_m mrs''); try reflexivity.
  destruct (e'' <=? emax - prec); reflexivity.
Qed.

Lemma binary_round_opp (m : positive) (e : Z) :
  binary_round prec emax true m e = SFopp (binary_round prec emax false m e).
Proof.
  unfold binary_round. destruct (shl_align m e _) as [mz ez].
  apply binary_round_aux_opp.
Qed.

Lemma binary_round_nonneg (m : positive) (e : Z) :
  nonnegSF (binary_round prec emax false m e) = true.
Proof.
  destruct (binary_round_spec m e) as (m2 & Hm2 & ->). cbv zeta in Hm2.
  set (F := fexp64 (Zdigits2 (Zpos m) + e)) in *.
  assert (H0 : 0 <= m2).
  { assert (0 <= Zpos m * 2 ^ (e - Z.min e F) / 2 ^ (F - Z.min e F)).
    { apply Z.div_pos; [|apply Z.pow_pos_nonneg; lia].
      apply Z.mul_nonneg_nonneg; [lia|]. apply Z.pow_nonneg. lia. }
    lia. }
  destruct (Z.eq_dec m2 0) as [->|Hnz].
  - rewrite finalSF_zero. reflexivity.
  - destruct (finalSF_pos m2 F ltac:(lia) (fexp64_emin _)) as (m3 & _ & ->).
    destruct (_ <=? _); reflexivity.
Qed.

Lemma binary_normalize_not_nan (m e : Z) (s : bool) :
  binary_normalize prec emax m e s <> S754_nan.
Proof.
  destruct m as [|p|p]; cbn [binary_normalize]; [discriminate| |].
  - pose proof (binary_round_nonneg p e) as Hn.
    destruct (binary_round prec emax false p e); discriminate.
  - rewrite binary_round_opp. pose proof (binary_round_nonneg p e) as Hn.
    destruct (binary_round prec emax false p e); discriminate.
Qed.

(** The difference of two finite values is not NaN. *)
Lemma sub_finite_not_nan (a b : float) :
  is_finite a = true -> is_finite b = true -> is_nan (a - b) = false.
Proof.
  rewrite !is_finite_spec, is_nan_spec, sub_spec. intros Ha Hb.
  destruct (Prim2SF a) as [sa|sa| |sa ma ea]; try discriminate;
    destruct (Prim2SF b) as [sb|sb| |sb mb eb]; try discriminate;
    unfold SF64sub, SFsub.
  - destruct sa, sb; reflexivity.
  - reflexivity.
  - reflexivity.
  - match goal with
    | |- context [binary_normalize ?p ?q ?m ?e ?s] =>
        pose proof (binary_normalize_not_nan m e s) as Hn;
        destruct (binary_normalize p q m e s)
    end; congruence.
Qed.

Lemma is_finite_not_nan (a : float) : is_finite a = true -> is_nan a = false.
Proof.
  rewrite is_finite_spec, is_nan_spec. destruct (Prim2SF a); simpl; congruence.
Qed.

Lemma leb_zero_not_nan (a : float) : (0 <=? a)%float = true -> is_nan a = false.
Proof.
  rewrite leb_zero_spec, is_nan_spec. destruct (Prim2SF a); simpl; congruence.
Qed.

(** A value at least a tenth is not [<= 0]. *)
Lemma tenth_leb_not_leb_zero (a : float) :
  (0.1 <=? a)%float = true -> (a <=? 0)%float = false.
Proof.
  rewrite !leb_spec, Prim2SF_zero.
  change (Prim2SF 0.1) with (S754_finite false 7205759403792794 (-56)).
  destruct (Prim2SF a) as [s|[]| |[] m e]; unfold SFleb; simpl; congruence.
Qed.

(** What is left to charge of a distance within the free allowance. *)
Lemma SFsub_min_within (x y : spec_float) :
  valid_binary x = true -> valid_binary y = true ->
  posSF x = true -> nonnegSF y = true -> finiteSF y = true -> SFleb y x = true ->
  let m := if SFltb x y then x else if SFltb y x then y else x in
  SF64sub y m = S754_zero false.
Proof.
  intros Hvx Hvy Hx Hy Hfy Hle m.
  assert (Hxy : SFltb x y = false).
  { revert Hle. unfold SFleb, SFltb. rewrite (SFcompare_antisym y x).
    destruct (SFcompare y x) as [[]|]; simpl; congruence. }
  subst m. rewrite Hxy.
  destruct (SFltb y x) eqn:Hyx.
  - destruct y as [sy|[]| |[] my ey]; try discriminate.
    + destruct sy; reflexivity.
    + apply SFsub_diag; reflexivity.
  - assert (Heq : y = x).
    { revert Hle Hyx. unfold SFleb, SFltb.
      destruct x as [sx|[]| |[] mx ex]; try discriminate;
        destruct y as [sy|[]| |[] my ey]; try discriminate; simpl;
        try congruence.
      destruct (Z.compare_spec ey ex); try congruence.
      change (PosDef.Pos.compare_cont Eq my mx) with (Pos.compare my mx).
      destruct (Pos.compare_spec my mx); congruence. }
    rewrite Heq. apply SFsub_diag; [|exact Hx].
    rewrite <- Heq. exact Hfy.
Qed.

Lemma sub_min_within (a d : float) :
  (0 <? a)%float = true -> (0 <=? d)%float = true -> is_finite d = true ->
  (d <=? a)%float = true ->
  (0 <? d - Binary64.min a d)%float = false.
Proof.
  rewrite ltb_zero_spec, leb_zero_spec, is_finite_spec, leb_spec. intros Ha Hd Hfd Hle.
  assert (Hmin : Prim2SF (Binary64.min a d)
                 = if SFltb (Prim2SF a) (Prim2SF d) then Prim2SF a
                   else if SFltb (Prim2SF d) (Prim2SF a) then Prim2SF d else Prim2SF a).
  { unfold Binary64.min. rewrite !is_nan_spec, is_zero_spec, !ltb_spec.
    destruct (Prim2SF a) as [sa|[]| |[] ma ea] eqn:Ea; try discriminate;
      destruct (Prim2SF d) as [sd|[]| |[] md ed] eqn:Ed; try discriminate;
      repeat match goal with
             | |- context [if ?c then _ else _] => destruct c
             end; congruence. }
  rewrite ltb_zero_spec, sub_spec, Hmin.
  rewrite SFsub_min_within; auto using Prim2SF_valid.
Qed.

(** *** Quotients are not NaN *)

Lemma iter_shr_1_nonneg (k : nat) (r : shr_record) :
  0 <= shr_m r -> 0 <= shr_m (Nat.iter k shr_1 r).
Proof.
  intros Hr. induction k as [|k IH]; [exact Hr|].
  simpl Nat.iter. destruct (shr_1_spec _ IH) as (-> & _).
  apply Z.div_pos; lia.
Qed.

Lemma shr_fexp_nonneg (m e : Z) (l : location) :
  0 <= m -> 0 <= shr_m (fst (shr_fexp prec emax m e l)).
Proof.
  intros Hm. unfold shr_fexp, shr.
  assert (H0 : 0 <= shr_m (shr_record_of_loc m l)) by (destruct l as [|[]]; exact Hm).
  destruct (fexp prec emax (Zdigits2 m + e) - e) as [|p|p]; cbn [fst]; try exact H0.
  rewrite iter_pos_nat. apply iter_shr_1_nonneg, H0.
Qed.

Lemma binary_round_aux_not_nan (s : bool) (m e : Z) (l : location) :
  0 <= m -> binary_round_aux prec emax s m e l <> S754_nan.
Proof.
  intros Hm. unfold binary_round_aux.
  pose proof (shr_fexp_nonneg m e l Hm) as H1.
  destruct (shr_fexp prec emax m e l) as [mrs' e']. cbn [fst] in H1.
  set (m2 := round_nearest_even (shr_m mrs') (loc_of_shr_record mrs')).
  assert (H2 : 0 <= m2).
  { unfold m2, round_nearest_even.
    destruct (loc_of_shr_record mrs') as [|[]]; try lia.
    destruct (Z.even (shr_m mrs')); lia. }
  pose proof (shr_fexp_nonneg m2 e' loc_Exact H2) as H3.
  destruct (shr_fexp prec emax m2 e' loc_Exact) as [mrs'' e'']. cbn [fst] in H3.
  destruct (shr_m mrs'') as [|p|p]; [discriminate| |lia].
  destruct (e'' <=? emax - prec); discriminate.
Qed.

Lemma SFdiv_finite_not_nan (x : spec_float) (s : bool) (m : positive) (e : Z) :
  x <> S754_nan -> SF64div x (S754_finite s m e) <> S754_nan.
Proof.
  intros Hx. destruct x as [sx|sx| |sx mx ex]; try discriminate; [congruence|].
  unfold SF64div, SFdiv, SFdiv_core_binary.
  set (m' := match _ - _ - _ with 0 => Zpos mx | Zpos _ => _ | Zneg _ => 0 end).
  assert (Hm' : 0 <= m').
  { unfold m'. destruct (_ - _ - _) as [|p|p]; try lia.
    rewrite Z.shiftl_mul_pow2 by lia. apply Z.mul_nonneg_nonneg; [lia|].
    apply Z.pow_nonneg. lia. }
  pose proof (Z.div_eucl_eq m' (Zpos m) ltac:(lia)) as Hq.
  pose proof (Z.mod_pos_bound m' (Zpos m) ltac:(lia)) as Hr.
  unfold Z.modulo in Hr.
  change (IntDef.Z.div_eucl m' (Zpos m)) with (Z.div_eucl m' (Zpos m)).
  destruct (Z.div_eucl m' (Zpos m)) as [q r].
  apply binary_round_aux_not_nan. nia.
Qed.

(** Dividing a number by a finite non-zero constant gives a number. *)
Lemma div_finite_not_nan (a b : float) :
  is_nan a = false -> is_finite b = true -> is_zero b = false ->
  is_nan (a / b) = false.
Proof.
  rewrite !is_nan_spec, is_finite_spec, is_zero_spec, div_spec. intros Ha Hb Hz.
  destruct (Prim2SF b) as [sb|sb| |sb mb eb]; try discriminate.
  pose proof (SFdiv_finite_not_nan (Prim2SF a) sb mb eb) as Hn.
  destruct (SF64div (Prim2SF a) (S754_finite sb mb eb)); try reflexivity.
  exfalso. apply Hn; [|reflexivity]. destruct (Prim2SF a); congruence.
Qed.

Lemma tenth_leb_pos (a : float) :
  (0.1 <=? a)%float = true -> (0 <? a)%float = true.
Proof.
  rewrite leb_spec, ltb_spec, Prim2SF_zero.
  change (Prim2SF 0.1) with (S754_finite false 7205759403792794 (-56)).
  destruct (Prim2SF a) as [s|[]| |[] m e]; unfold SFleb, SFltb; simpl; congruence.
Qed.

(** *** Zeros *)

Lemma sub_diag_finite (x : float) : is_finite x = true -> (x - x)%float = 0%float.
Proof.
  rewrite is_finite_spec. intros Hx.
  rewrite <- (SF2Prim_Prim2SF (x - x)), sub_spec.
  destruct (Prim2SF x) as [s|s| |s m e]; try discriminate.
  - destruct s; reflexivity.
  - unfold SF64sub, SFsub. rewrite Z.sub_diag. reflexivity.
Qed.

(** A finite value times zero is a zero, and a zero added to [+0] is [+0]. *)
Lemma zero_plus_finite_times_zero (p : float) :
  is_finite p = true -> (0 * 0 + p * 0 * 0)%float = 0%float.
Proof.
  rewrite is_finite_spec. intros Hp.
  rewrite <- (SF2Prim_Prim2SF (0 * 0 + p * 0 * 0)), add_spec, !mul_spec.
  change (Prim2SF 0) with (S754_zero false).
  destruct (Prim2SF p) as [s|s| |s m e]; try discriminate; destruct s; reflexivity.
Qed.

(** *** Rounded values are data of the format *)

Lemma Zdigits2_unique (a n : Z) : 0 < a -> 2 ^ (n - 1) <= a < 2 ^ n -> Zdigits2 a = n.
Proof.
  intros Ha [L U].
  assert (Hn : 0 < n).
  { destruct (Z.lt_ge_cases 0 n) as [|Hle]; [assumption|exfalso].
    destruct (Z.eq_dec n 0) as [->|Hne]; [simpl in U; lia|].
    rewrite Z.pow_neg_r in U by lia. lia. }
  pose proof (Zdigits2_bounds a Ha) as [La Ua].
  pose proof (Zdigits2_pos a Ha) as Hd.
  assert (H1 : 2 ^ (n - 1) < 2 ^ Zdigits2 a) by lia.
  assert (H2 : 2 ^ (Zdigits2 a - 1) < 2 ^ n) by lia.
  apply Z.pow_lt_mono_r_iff in H1; try lia.
  apply Z.pow_lt_mono_r_iff in H2; lia.
Qed.

Lemma Zdigits2_div_pow2 (a k : Z) :
  0 <= k -> 0 < a / 2 ^ k -> Zdigits2 (a / 2 ^ k) = Zdigits2 a - k.
Proof.
  intros Hk Hq.
  assert (Hp : 0 < 2 ^ k) by (apply Z.pow_pos_nonneg; lia).
  pose proof (Zdigits2_bounds _ Hq) as [L U].
  pose proof (Zdigits2_pos _ Hq) as Hd.
  pose proof (Z.div_mod a (2 ^ k) ltac:(lia)) as Hdm.
  pose proof (Z.mod_pos_bound a (2 ^ k) Hp) as Hr.
  set (q := a / 2 ^ k) in *.
  assert (Ha : 0 < a) by nia.
  assert (Hu : Zdigits2 a = Zdigits2 q + k).
  { apply Zdigits2_unique; [exact Ha|].
    replace (Zdigits2 q + k - 1) with (Zdigits2 q - 1 + k) by lia.
    rewrite !Z.pow_add_r by lia. nia. }
  lia.
Qed.

Lemma finalSF_valid (m2 F : Z) :
  0 <= m2 -> emin64 <= F -> (0 < m2 -> F <= fexp64 (Zdigits2 m2 + F)) ->
  valid_binary (finalSF m2 F) = true.
Proof.
  intros H0 HF Hcanon.
  destruct (Z.eq_dec m2 0) as [->|Hne]; [rewrite finalSF_zero; reflexivity|].
  assert (Hpos : 0 < m2) by lia. specialize (Hcanon Hpos).
  destruct (finalSF_pos m2 F Hpos HF) as (m3 & Hm3 & ->). cbv zeta in Hm3.
  replace (Z.max F (fexp64 (Zdigits2 m2 + F))) with (fexp64 (Zdigits2 m2 + F)) in * by lia.
  set (G := fexp64 (Zdigits2 m2 + F)) in *.
  destruct (G <=? emax - prec) eqn:Hle; [|reflexivity].
  cbn [valid_binary]. unfold bounded, canonical_mantissa. rewrite Hle, andb_true_r.
  apply Z.eqb_eq.
  change (Zpos (digits2_pos m3)) with (Zdigits2 (Zpos m3)). rewrite <- Hm3.
  rewrite Zdigits2_div_pow2 by lia.
  replace (Zdigits2 m2 - (G - F) + G) with (Zdigits2 m2 + F) by lia. reflexivity.
Qed.

Lemma valid_binary_SFopp (x : spec_float) : valid_binary (SFopp x) = valid_binary x.
Proof. destruct x; reflexivity. Qed.

Lemma binary_round_valid (s : bool) (M : positive) (E : Z) :
  valid_binary (binary_round prec emax s M E) = true.
Proof.
  assert (Hfalse : valid_binary (binary_round prec emax false M E) = true).
  { destruct (binary_round_spec M E) as (m2 & Hm2 & ->). cbv zeta in Hm2.
    set (d := Zdigits2 (Zpos M)) in *. set (F := fexp64 (d + E)) in *.
    set (ez := Z.min E F) in *. set (Mz := Zpos M * 2 ^ (E - ez)) in *.
    assert (Hp : 0 < 2 ^ (F - ez)) by (apply Z.pow_pos_nonneg; unfold ez; lia).
    assert (HMz : 0 < Mz)
      by (unfold Mz; apply Z.mul_pos_pos; [lia|apply Z.pow_pos_nonneg; unfold ez; lia]).
    assert (HdMz : Zdigits2 Mz = d + (E - ez))
      by (unfold Mz, d; apply Zdigits2_shift; unfold ez; lia).
    assert (Hm1 : 0 <= Mz / 2 ^ (F - ez)) by (apply Z.div_pos; lia).
    apply finalSF_valid; [lia|apply fexp64_emin|].
    intros Hpos2.
    destruct (Z.eq_dec (Mz / 2 ^ (F - ez)) 0) as [Hzero|Hnz].
    - apply Z.div_small_iff in Hzero; [|lia].
      destruct Hzero as [[_ Hlt]|[_ Hle]]; [|lia].
      pose proof (Zdigits2_bounds Mz HMz) as [L _].
      pose proof (Zdigits2_pos Mz HMz) as HdM.
      assert (Hpw : 2 ^ (Zdigits2 Mz - 1) < 2 ^ (F - ez)) by lia.
      assert (Hk : 0 <= F - ez) by (unfold ez; lia).
      apply Z.pow_lt_mono_r_iff in Hpw; [|lia|lia].
      assert (HFmin : F = emin64).
      { unfold F, SpecFloat.fexp in *. unfold prec in *. lia. }
      rewrite HFmin. apply fexp64_emin.
    - assert (Hk : 0 <= F - ez) by (unfold ez; lia).
      assert (Hd1 : Zdigits2 (Mz / 2 ^ (F - ez)) = d + E - F).
      { rewrite Zdigits2_div_pow2 by lia. lia. }
      assert (Hd2 : Zdigits2 (Mz / 2 ^ (F - ez)) <= Zdigits2 m2)
        by (apply Zdigits2_le; lia).
      change F with (fexp64 (d + E)) at 1. apply fexp64_mono. lia. }
  destruct s; [|exact Hfalse].
  rewrite binary_round_opp, valid_binary_SFopp. exact Hfalse.
Qed.

Lemma binary_normalize_valid (m e : Z) (s : bool) :
  valid_binary (binary_normalize prec emax m e s) = true.
Proof.
  destruct m as [|p|p]; cbn [binary_normalize];
    [reflexivity|apply binary_round_valid|apply binary_round_valid].
Qed.

Lemma floorSF_valid (x : spec_float) :
  valid_binary x = true -> valid_binary (floorSF x) = true.
Proof.
  intros Hx. destruct x as [s|s| |s m e]; try exact Hx.
  unfold floorSF. destruct (0 <=? e); [exact Hx|].
  destruct s; apply binary_normalize_valid.
Qed.

Lemma Prim2SF_floor (x : float) : Prim2SF (floor x) = floorSF (Prim2SF x).
Proof.
  unfold floor. apply Prim2SF_SF2Prim, floorSF_valid, Prim2SF_valid.
Qed.

(** *** Values that are not above zero *)

Lemma binary_round_aux_nonneg (m e : Z) (l : location) :
  0 <= m -> nonnegSF (binary_round_aux prec emax false m e l) = true.
Proof.
  intros Hm. unfold binary_round_aux.
  pose proof (shr_fexp_nonneg m e l Hm) as H1.
  destruct (shr_fexp prec emax m e l) as [mrs' e']. cbn [fst] in H1.
  set (m2 := round_nearest_even (shr_m mrs') (loc_of_shr_record mrs')).
  assert (H2 : 0 <= m2).
  { unfold m2, round_nearest_even.
    destruct (loc_of_shr_record mrs') as [|[]]; try lia.
    destruct (Z.even (shr_m mrs')); lia. }
  pose proof (shr_fexp_nonneg m2 e' loc_Exact H2) as H3.
  destruct (shr_fexp prec emax m2 e' loc_Exact) as [mrs'' e'']. cbn [fst] in H3.
  destruct (shr_m mrs'') as [|p|p]; [reflexivity| |lia].
  destruct (e'' <=? emax - prec); reflexivity.
Qed.

Lemma SFopp_nonneg_leb_zero (x : spec_float) :
  nonnegSF x = true -> SFleb (SFopp x) (S754_zero false) = true.
Proof. destruct x as [s|[]| |[] m e]; try discriminate; reflexivity. Qed.

Lemma floorSF_nonpos (x : spec_float) :
  SFleb x (S754_zero false) = true -> SFleb (floorSF x) (S754_zero false) = true.
Proof.
  intros Hx. destruct x as [s|s| |s m e]; try exact Hx.
  destruct s; [|discriminate Hx].
  unfold floorSF. destruct (0 <=? e); [exact Hx|].
  set (q := Z.shiftr (Zpos m) (- e)).
  assert (Hq : 0 <= q) by (apply Z.shiftr_nonneg; lia).
  set (c := if Z.land (Zpos m) (Z.ones (- e)) =? 0 then q else q + 1).
  assert (Hc : 0 <= c) by (unfold c; destruct (_ =? 0); lia).
  fold q. fold c. clearbody c. destruct c as [|p|p]; [reflexivity| |lia].
  change (- Zpos p) with (Zneg p). cbn [binary_normalize]. rewrite binary_round_opp.
  apply SFopp_nonneg_leb_zero, binary_round_nonneg.
Qed.

Lemma floor_nonpos (x : float) :
  (x <=? 0)%float = true -> (floor x <=? 0)%float = true.
Proof.
  rewrite !leb_spec, Prim2SF_floor, Prim2SF_zero. apply floorSF_nonpos.
Qed.

Lemma div_pos_finite_nonpos (x y : float) (m : positive) (e : Z) :
  Prim2SF y = S754_finite false m e ->
  (x <=? 0)%float = true -> (x / y <=? 0)%float = true.
Proof.
  intros Hy. rewrite !leb_spec, div_spec, Hy, Prim2SF_zero. intros Hx.
  destruct (Prim2SF x) as [s|s| |s mx ex]; try discriminate Hx.
  - reflexivity.
  - destruct s; [reflexivity|discriminate Hx].
  - destruct s; [|discriminate Hx].
    unfold SF64div, SFdiv, SFdiv_core_binary.
    set (m' := match _ - _ - _ with 0 => Zpos mx | Zpos _ => _ | Zneg _ => 0 end).
    assert (Hm' : 0 <= m').
    { unfold m'. destruct (_ - _ - _) as [|p|p]; try lia.
      rewrite Z.shiftl_mul_pow2 by lia. apply Z.mul_nonneg_nonneg; [lia|].
      apply Z.pow_nonneg. lia. }
    pose proof (Z.div_eucl_eq m' (Zpos m) ltac:(lia)) as Hq.
    pose proof (Z.mod_pos_bound m' (Zpos m) ltac:(lia)) as Hr.
    unfold Z.modulo in Hr.
    change (IntDef.Z.div_eucl m' (Zpos m)) with (Z.div_eucl m' (Zpos m)).
    destruct (Z.div_eucl m' (Zpos m)) as [q r].
    cbn [xorb]. rewrite binary_round_aux_opp.
    apply SFopp_nonneg_leb_zero, binary_round_aux_nonneg. nia.
Qed.

Lemma max_zero_nonpos (x : float) :
  (x <=? 0)%float = true -> Binary64.max 0 x = 0%float.
Proof.
  intros Hx.
  assert (Hnan : is_nan x = false).
  { revert Hx. rewrite leb_spec, is_nan_spec.
    destruct (Prim2SF x); unfold SFleb; simpl; congruence. }
  assert (Hlt : (0 <? x)%float = false).
  { revert Hx. rewrite leb_spec, ltb_spec, Prim2SF_zero.
    destruct (Prim2SF x) as [s|[]| |[] m e]; unfold SFleb, SFltb; simpl; congruence. }
  unfold Binary64.max. change (is_nan 0) with false. cbv iota.
  rewrite Hnan, Hlt. destruct (x <? 0)%float; reflexivity.
Qed.

End Binary64Facts.

(** ** The fare engine on binary64 *)

Section FareBinary64.

Import Binary64Facts.

Implicit Types (preset : FarePreset float) (runtime : FareRuntime float)
         (seg : Segment float).

Lemma validSegment_not_rejected seg :
  validSegment seg = true -> rejectedSegment seg = false.
Proof.
  unfold validSegment, rejectedSegment. cbn [isFinite nltb nleb nzero binary64].
  intros Hv. apply andb_prop in Hv as [Hv Hs]. apply andb_prop in Hv as [Hd Ht].
  rewrite Hd, Ht, (ltb_leb_false _ _ Hs). reflexivity.
Qed.

Lemma presetInvariant_fields preset :
  presetInvariant preset = true ->
  (0 <? baseFareYen preset)%float = true
  /\ (0 <? baseDistanceKm preset)%float = true
  /\ (0 <? distanceStepKm preset)%float = true
  /\ (0 <? distanceStepFareYen preset)%float = true
  /\ (0 <=? lowSpeedThresholdKmh preset)%float = true
  /\ (0 <? lowSpeedStepSeconds preset)%float = true
  /\ (0 <? lowSpeedStepFareYen preset)%float = true.
Proof.
  unfold presetInvariant. cbn [nltb nleb nzero binary64]. intros Hp.
  repeat (apply andb_prop in Hp as [Hp ?]). tauto.
Qed.

(** One call keeps a positive fare positive and does not lower it. *)
Lemma updateFareBySegment_fare preset runtime seg :
  presetInvariant preset = true ->
  (0 <? fareYen runtime)%float = true ->
  (fareYen runtime <=? fareYen (updateFareBySegment preset runtime seg))%float = true
  /\ (0 <? fareYen (updateFareBySegment preset runtime seg))%float = true.
Proof.
  intros Hp Hf.
  destruct (presetInvariant_fields preset Hp) as (_ & _ & _ & Hdf & _ & _ & Hlf).
  assert (Hsame : (fareYen runtime <=? fareYen runtime)%float = true
                  /\ (0 <? fareYen runtime)%float = true).
  { split; [|exact Hf]. apply leb_refl_nonneg, ltb_zero_leb_zero, Hf. }
  unfold updateFareBySegment.
  destruct (rejectedSegment seg); [exact Hsame|].
  destruct (inLowSpeedMode preset seg).
  - unfold chargeLowSpeed.
    destruct (nltb nzero (timeSteps preset _)) eqn:Hk; cbn [fareYen]; [|exact Hsame].
    cbn [nltb nzero nadd nmul binary64] in *.
    apply add_pos_nonneg; [exact Hf|]. apply mul_pos_pos; assumption.
  - unfold chargeDistance.
    destruct (nltb nzero (snd (consumeBaseDistance runtime seg))); cbn [fareYen];
      [|exact Hsame].
    destruct (nltb nzero (distanceSteps preset _)) eqn:Hk; cbn [fareYen]; [|exact Hsame].
    cbn [nltb nzero nadd nmul binary64] in *.
    apply add_pos_nonneg; [exact Hf|]. apply mul_pos_pos; assumption.
Qed.

Lemma applySegments_fare_positive preset segs : forall runtime,
  presetInvariant preset = true ->
  (0 <? fareYen runtime)%float = true ->
  (0 <? fareYen (applySegments preset runtime segs))%float = true.
Proof.
  unfold applySegments.
  induction segs as [|seg segs IH]; intros runtime Hp Hf; cbn [fold_left]; [exact Hf|].
  apply IH; [exact Hp|]. apply updateFareBySegment_fare; assumption.
Qed.

End FareBinary64.

(** C1.  From [createFareRuntime preset], for a preset that satisfies the
    preset invariant, after any run of valid segments one more valid
    segment does not lower [fareYen]: the fare never decreases from one call
    of [updateFareBySegment] to the next. *)
Theorem fareYen_never_decreases
        (preset : FarePreset float) (segs : list (Segment float)) (seg : Segment float) :
  presetInvariant preset = true ->
  forallb validSegment segs = true ->
  validSegment seg = true ->
  let runtime := applySegments preset (createFareRuntime preset) segs in
  nleb (fareYen runtime) (fareYen (updateFareBySegment preset runtime seg)) = true.
Proof.
  intros Hp _ _ runtime.
  apply updateFareBySegment_fare; [exact Hp|].
  apply applySegments_fare_positive; [exact Hp|].
  cbn [createFareRuntime fareYen].
  apply (presetInvariant_fields preset Hp).
Qed.

Lemma fareYen_never_decreases_witness :
  nleb (fareYen (applySegments tokyo (createFareRuntime tokyo)
                   [ {| deltaDistanceKm := 1.2; deltaSeconds := 120; speedKmh := 36 |};
                     {| deltaDistanceKm := 0.01; deltaSeconds := 100; speedKmh := 0.36 |} ]%float))
       (fareYen (updateFareBySegment tokyo
                   (applySegments tokyo (createFareRuntime tokyo)
                      [ {| deltaDistanceKm := 1.2; deltaSeconds := 120; speedKmh := 36 |};
                        {| deltaDistanceKm := 0.01; deltaSeconds := 100; speedKmh := 0.36 |} ]%float)
                   {| deltaDistanceKm := 0.6; deltaSeconds := 60; speedKmh := 36 |}%float))
  = true.
Proof.
  exact (fareYen_never_decreases tokyo
           [ {| deltaDistanceKm := 1.2; deltaSeconds := 120; speedKmh := 36 |};
             {| deltaDistanceKm := 0.01; deltaSeconds := 100; speedKmh := 0.36 |} ]%float
           {| deltaDistanceKm := 0.6; deltaSeconds := 60; speedKmh := 36 |}%float
           eq_refl eq_refl eq_refl).
Defined.

(** C7.  A segment whose distance or duration is not finite, or whose
    duration is not positive, leaves the runtime as it was, whatever the
    speed. *)
Theorem updateFareBySegment_rejects
        (preset : FarePreset float) (runtime : FareRuntime float) (seg : Segment float) :
  isFinite (deltaDistanceKm seg) = false
  \/ isFinite (deltaSeconds seg) = false
  \/ nleb (deltaSeconds seg) nzero = true ->
  updateFareBySegment preset runtime seg = runtime.
Proof.
  intros Hr. unfold updateFareBySegment, rejectedSegment.
  destruct Hr as [Hr|[Hr|Hr]]; rewrite Hr; cbn [negb orb];
    rewrite ?orb_true_r; reflexivity.
Qed.

Lemma updateFareBySegment_rejects_witness :
  updateFareBySegment tokyo (createFareRuntime tokyo)
    {| deltaDistanceKm := 0.3; deltaSeconds := 0; speedKmh := 200 |}%float
  = createFareRuntime tokyo.
Proof.
  exact (updateFareBySegment_rejects tokyo (createFareRuntime tokyo)
           {| deltaDistanceKm := 0.3; deltaSeconds := 0; speedKmh := 200 |}%float
           (or_intror (or_intror eq_refl))).
Defined.

(** C6.  For a valid segment: above the threshold the call leaves
    [lowSpeedRemainderSeconds] as it was; at or below the threshold it
    leaves [baseDistanceRemainingKm] and [distanceRemainderKm] as they
    were. *)
Theorem mode_exclusivity
        (preset : FarePreset float) (runtime : FareRuntime float) (seg : Segment float) :
  validSegment seg = true ->
  (nltb (lowSpeedThresholdKmh preset) (speedKmh seg) = true ->
   lowSpeedRemainderSeconds (updateFareBySegment preset runtime seg)
   = lowSpeedRemainderSeconds runtime)
  /\ (nleb (speedKmh seg) (lowSpeedThresholdKmh preset) = true ->
      baseDistanceRemainingKm (updateFareBySegment preset runtime seg)
      = baseDistanceRemainingKm runtime
      /\ distanceRemainderKm (updateFareBySegment preset runtime seg)
         = distanceRemainderKm runtime).
Proof.
  intros Hv. unfold updateFareBySegment, inLowSpeedMode.
  rewrite (validSegment_not_rejected seg Hv).
  split.
  - intros Habove. cbn [nltb nleb binary64] in *.
    rewrite (Binary64Facts.ltb_leb_false _ _ Habove).
    unfold chargeDistance.
    destruct (nltb nzero (snd (consumeBaseDistance runtime seg))); [|reflexivity].
    destruct (nltb nzero (distanceSteps preset _)); reflexivity.
  - intros Hlow. rewrite Hlow. unfold chargeLowSpeed.
    destruct (nltb nzero (timeSteps preset _)); split; reflexivity.
Qed.

Lemma mode_exclusivity_witness :
  (nltb (lowSpeedThresholdKmh tokyo) 30%float = true ->
   lowSpeedRemainderSeconds
     (updateFareBySegment tokyo (createFareRuntime tokyo)
        {| deltaDistanceKm := 1.5; deltaSeconds := 180; speedKmh := 30 |}%float)
   = lowSpeedRemainderSeconds (createFareRuntime tokyo))
  /\ (nleb 30%float (lowSpeedThresholdKmh tokyo) = true ->
      baseDistanceRemainingKm
        (updateFareBySegment tokyo (createFareRuntime tokyo)
           {| deltaDistanceKm := 1.5; deltaSeconds := 180; speedKmh := 30 |}%float)
      = baseDistanceRemainingKm (createFareRuntime tokyo)
      /\ distanceRemainderKm
           (updateFareBySegment tokyo (createFareRuntime tokyo)
              {| deltaDistanceKm := 1.5; deltaSeconds := 180; speedKmh := 30 |}%float)
         = distanceRemainderKm (createFareRuntime tokyo)).
Proof.
  exact (mode_exclusivity tokyo (createFareRuntime tokyo)
           {| deltaDistanceKm := 1.5; deltaSeconds := 180; speedKmh := 30 |}%float eq_refl).
Defined.

(** ** Exact rational arithmetic *)

Module ExactFacts.

Local Open Scope Qc_scope.

Lemma leb_spec (a b : Qc) : Exact.leb a b = true <-> a <= b.
Proof. unfold Exact.leb. apply Qle_bool_iff. Qed.

Lemma leb_false (a b : Qc) : Exact.leb a b = false <-> b < a.
Proof.
rewrite <- not_true_iff_false, leb_spec. split.
- apply Qcnot_le_lt.
- apply Qclt_not_le.
Qed.

Lemma ltb_spec (a b : Qc) : Exact.ltb a b = true <-> a < b.
Proof. unfold Exact.ltb. rewrite negb_true_iff. apply leb_false. Qed.

Lemma ltb_false (a b : Qc) : Exact.ltb a b = false <-> b <= a.
Proof. unfold Exact.ltb. rewrite negb_false_iff. apply leb_spec. Qed.

(** The integer a floor stands for. *)
Lemma floor_inject (a : Qc) : Exact.floor a = Q2Qc (inject_Z (Qfloor a)).
Proof. reflexivity. Qed.

Lemma inject_le (z : Z) (a : Qc) : Q2Qc (inject_Z z) <= a <-> (z <= Qfloor a)%Z.
Proof.
unfold Qcle. cbn [this Q2Qc]. rewrite Qred_correct. split; intros Hz.
- rewrite <- (Qfloor_Z z). apply Qfloor_resp_le. exact Hz.
- eapply Qle_trans; [|apply Qfloor_le]. rewrite <- Zle_Qle. exact Hz.
Qed.

Lemma lt_inject (z : Z) (a : Qc) : a < Q2Qc (inject_Z z) <-> (Qfloor a < z)%Z.
Proof.
split; intros Hz.
- destruct (Z.lt_ge_cases (Qfloor a) z) as [Hlt|Hge]; [exact Hlt|].
  apply inject_le in Hge. exfalso. eapply Qclt_not_le; eauto.
- apply Qcnot_le_lt. intros Hle. apply inject_le in Hle. lia.
Qed.

Lemma inject_add (x y : Z) : Q2Qc (inject_Z (x + y)) = Q2Qc (inject_Z x) + Q2Qc (inject_Z y).
Proof.
apply Qc_is_canon. cbn [this Q2Qc Qcplus]. rewrite !Qred_correct.
rewrite inject_Z_plus. apply Qeq_refl.
Qed.

Lemma inject_0 : Q2Qc (inject_Z 0) = 0.
Proof. apply Qc_is_canon. reflexivity. Qed.

Lemma inject_1 : Q2Qc (inject_Z 1) = 1.
Proof. apply Qc_is_canon. reflexivity. Qed.

Lemma div_mul (x s : Qc) : 0 < s -> x / s * s = x.
Proof. intros Hs. field. intros H0. rewrite H0 in Hs. discriminate Hs. Qed.

Lemma floor_bounds (x s : Qc) : 0 < s ->
Exact.floor (x / s) * s <= x /\ x < (Exact.floor (x / s) + 1) * s.
Proof.
intros Hs. rewrite floor_inject.
assert (H1 : Q2Qc (inject_Z (Qfloor (x / s)%Qc)) <= x / s) by (apply inject_le; lia).
assert (H2 : x / s < Q2Qc (inject_Z (Qfloor (x / s)%Qc + 1))) by (apply lt_inject; lia).
rewrite inject_add, inject_1 in H2.
split.
- rewrite <- (div_mul x s Hs) at 2. apply Qcmult_le_compat_r; [exact H1|].
  apply Qclt_le_weak, Hs.
- rewrite <- (div_mul x s Hs) at 1. apply Qcmult_lt_compat_r; assumption.
Qed.

Lemma inject_mono (a b : Z) : (a <= b)%Z -> Q2Qc (inject_Z a) <= Q2Qc (inject_Z b).
Proof.
intros Hab. unfold Qcle. cbn [this Q2Qc]. rewrite !Qred_correct.
rewrite <- Zle_Qle. exact Hab.
Qed.

Lemma floor_unique (x s : Qc) (z : Z) : 0 < s ->
Q2Qc (inject_Z z) * s <= x -> x < (Q2Qc (inject_Z z) + 1) * s ->
Qfloor (x / s)%Qc = z.
Proof.
intros Hs H1 H2.
destruct (floor_bounds x s Hs) as [B1 B2]. rewrite floor_inject in B1, B2.
set (k := Qfloor (x / s)%Qc) in *.
assert (Hs0 : 0 <= s) by (apply Qclt_le_weak, Hs).
destruct (Z.lt_trichotomy k z) as [Hlt|[Heq|Hgt]]; [exfalso|exact Heq|exfalso].
- assert (Hm : Q2Qc (inject_Z (k + 1)) * s <= Q2Qc (inject_Z z) * s).
  { apply Qcmult_le_compat_r; [apply inject_mono; lia|exact Hs0]. }
  rewrite inject_add, inject_1 in Hm.
  apply (Qclt_not_le _ _ B2). eapply Qcle_trans; eassumption.
- assert (Hm : Q2Qc (inject_Z (z + 1)) * s <= Q2Qc (inject_Z k) * s).
  { apply Qcmult_le_compat_r; [apply inject_mono; lia|exact Hs0]. }
  rewrite inject_add, inject_1 in Hm.
  apply (Qclt_not_le _ _ H2). eapply Qcle_trans; eassumption.
Qed.

End ExactFacts.

(** ** The fare engine on exact rationals *)

Section FareExact.

Import ExactFacts.
Local Open Scope Qc_scope.

Implicit Types (preset : FarePreset Qc) (runtime : FareRuntime Qc) (seg : Segment Qc).

(** Order facts over [Qc], read as facts over [Q] and closed there. *)
Ltac qc_order :=
  unfold Qcle, Qclt in *;
  cbn [this Qcplus Qcminus Qcopp Qcmult Q2Qc] in *;
  rewrite ?Qred_correct in *;
  nra.

Lemma floor_ge_one (x s : Qc) : 0 < s -> (s <= x <-> (1 <= Qfloor (x / s)%Qc)%Z).
Proof.
  intros Hs. destruct (floor_bounds x s Hs) as [B1 B2]. rewrite floor_inject in B1, B2.
  set (k := Qfloor (x / s)%Qc) in *.
  split; intros Hx.
  - destruct (Z.lt_ge_cases k 1) as [Hlt|Hge]; [exfalso|exact Hge].
    assert (Hk : Q2Qc (inject_Z k) <= 0).
    { rewrite <- inject_0. apply inject_mono. lia. }
    clearbody k. clear Hlt.
    qc_order.
  - assert (Hk : 1 <= Q2Qc (inject_Z k)).
    { rewrite <- inject_1. apply inject_mono. lia. }
    clearbody k. clear Hx.
    qc_order.
Qed.

Lemma inject_pred (k : Z) : Q2Qc (inject_Z (k - 1)) = Q2Qc (inject_Z k) - 1.
Proof.
  replace (k - 1)%Z with (k + -1)%Z by lia. rewrite inject_add.
  replace (Q2Qc (inject_Z (-1))) with (- (1))%Qc by (apply Qc_is_canon; reflexivity).
  ring.
Qed.

Lemma floor_positive (a : Qc) :
  Exact.ltb 0 (Exact.floor a) = true <-> (0 < Qfloor a)%Z.
Proof.
  rewrite ltb_spec, floor_inject, lt_inject. reflexivity.
Qed.

(** With enough fuel the loop of the reference takes as many steps as the
    integer part of [remainder / step], none if that is not positive. *)
Lemma chargeStepsLoop_exact (fuel : nat) : forall step stepFare remainder fare : Qc,
  0 < step ->
  (Z.to_nat (Qfloor (remainder / step)%Qc) <= fuel)%nat ->
  chargeStepsLoop fuel step stepFare remainder fare
  = (remainder - Q2Qc (inject_Z (Z.max 0 (Qfloor (remainder / step)%Qc))) * step,
     fare + Q2Qc (inject_Z (Z.max 0 (Qfloor (remainder / step)%Qc))) * stepFare).
Proof.
  induction fuel as [|fuel IH]; intros step sf r f Hs Hfuel; cbn [chargeStepsLoop].
  - replace (Z.max 0 (Qfloor (r / step)%Qc)) with 0%Z by lia.
    rewrite inject_0. f_equal; ring.
  - cbn [nleb nsub nadd exact].
    pose proof (floor_ge_one r step Hs) as Hone.
    destruct (floor_bounds r step Hs) as [B1 B2]. rewrite floor_inject in B1, B2.
    set (k := Qfloor (r / step)%Qc) in *.
    destruct (Exact.leb step r) eqn:Hle.
    + apply leb_spec in Hle. apply Hone in Hle.
      assert (Hk' : Qfloor ((r - step) / step)%Qc = (k - 1)%Z).
      { apply floor_unique; [exact Hs| |]; rewrite inject_pred; clearbody k; qc_order. }
      rewrite IH by (try exact Hs; rewrite Hk'; lia).
      rewrite Hk'.
      replace (Z.max 0 (k - 1)) with (k - 1)%Z by lia.
      replace (Z.max 0 k) with k by lia.
      rewrite inject_pred. f_equal; ring.
    + apply leb_false in Hle.
      assert (Hk : (k <= 0)%Z).
      { destruct (Z.lt_ge_cases k 1) as [Hlt|Hge]; [lia|].
        apply Hone in Hge. exfalso. exact (Qclt_not_le _ _ Hle Hge). }
      replace (Z.max 0 k) with 0%Z by lia.
      rewrite inject_0. f_equal; ring.
Qed.

(** The batched step count, as the same integer. *)
Lemma batched_steps (a : Qc) :
  (Exact.ltb 0 (Exact.floor a) = true ->
   Exact.floor a = Q2Qc (inject_Z (Z.max 0 (Qfloor a))))
  /\ (Exact.ltb 0 (Exact.floor a) = false ->
      Q2Qc (inject_Z (Z.max 0 (Qfloor a))) = 0).
Proof.
  split; intros Hk.
  - apply floor_positive in Hk. rewrite floor_inject.
    replace (Z.max 0 (Qfloor a)) with (Qfloor a) by lia. reflexivity.
  - assert (Hle : (Qfloor a <= 0)%Z).
    { destruct (Z.lt_ge_cases 0 (Qfloor a)) as [Hlt|Hge]; [|exact Hge].
      apply floor_positive in Hlt. congruence. }
    replace (Z.max 0 (Qfloor a)) with 0%Z by lia. apply inject_0.
Qed.

Lemma presetInvariant_exact preset :
  presetInvariant preset = true ->
  0 < baseFareYen preset /\ 0 < baseDistanceKm preset
  /\ 0 < distanceStepKm preset /\ 0 < distanceStepFareYen preset
  /\ 0 <= lowSpeedThresholdKmh preset
  /\ 0 < lowSpeedStepSeconds preset /\ 0 < lowSpeedStepFareYen preset.
Proof.
  unfold presetInvariant. cbn [nltb nleb nzero exact]. intros Hp.
  repeat (apply andb_prop in Hp as [Hp ?]).
  repeat match goal with
         | H : Exact.ltb _ _ = true |- _ => apply ltb_spec in H
         | H : Exact.leb _ _ = true |- _ => apply leb_spec in H
         end.
  tauto.
Qed.

Lemma referenceUpdate_exact preset runtime seg (fuel : nat) :
  presetInvariant preset = true ->
  (Z.to_nat (Qfloor ((lowSpeedRemainderSeconds runtime + deltaSeconds seg)
                     / lowSpeedStepSeconds preset)%Qc)
   + Z.to_nat (Qfloor ((distanceRemainderKm runtime + snd (consumeBaseDistance runtime seg))
                       / distanceStepKm preset)%Qc) <= fuel)%nat ->
  referenceUpdate fuel preset runtime seg = updateFareBySegment preset runtime seg.
Proof.
  intros Hp Hfuel.
  destruct (presetInvariant_exact preset Hp) as (_ & _ & Hds & _ & _ & Hls & _).
  unfold referenceUpdate, updateFareBySegment.
  destruct (rejectedSegment seg); [reflexivity|].
  destruct (inLowSpeedMode preset seg).
  - unfold referenceLowSpeed, chargeLowSpeed, timeSteps.
    cbn [nadd nsub nmul ndiv nltb nzero Math_floor exact].
    rewrite chargeStepsLoop_exact by (try exact Hls; lia). cbn [fst snd].
    destruct (batched_steps ((lowSpeedRemainderSeconds runtime + deltaSeconds seg)
                             / lowSpeedStepSeconds preset)) as [Hyes Hno].
    destruct (Exact.ltb 0 (Exact.floor _)) eqn:Hk.
    + rewrite <- (Hyes eq_refl). reflexivity.
    + rewrite (Hno eq_refl). f_equal; ring.
  - unfold referenceDistance, chargeDistance, distanceSteps.
    cbn [nadd nsub nmul ndiv nltb nzero Math_floor exact].
    destruct (Exact.ltb 0 (snd (consumeBaseDistance runtime seg))); [|reflexivity].
    rewrite chargeStepsLoop_exact by (try exact Hds; lia). cbn [fst snd].
    destruct (batched_steps ((distanceRemainderKm runtime
                              + snd (consumeBaseDistance runtime seg))
                             / distanceStepKm preset)) as [Hyes Hno].
    destruct (Exact.ltb 0 (Exact.floor _)) eqn:Hk.
    + rewrite <- (Hyes eq_refl). reflexivity.
    + rewrite (Hno eq_refl). f_equal; ring.
Qed.

(** What is left of a non-negative amount after the batched steps. *)
Lemma remainder_range (x s : Qc) : 0 < s -> 0 <= x ->
  (Exact.ltb 0 (Exact.floor (x / s)) = true ->
   0 <= x - Exact.floor (x / s) * s /\ x - Exact.floor (x / s) * s < s)
  /\ (Exact.ltb 0 (Exact.floor (x / s)) = false -> x < s).
Proof.
  intros Hs Hx. destruct (floor_bounds x s Hs) as [B1 B2].
  split; intros Hk.
  - split; qc_order.
  - apply ltb_false in Hk. qc_order.
Qed.

(** The invariant of a runtime over exact rationals. *)
Lemma updateFareBySegment_exact_invariant preset runtime seg :
  presetInvariant preset = true ->
  nonNegativeDistance seg = true ->
  (0 <= baseDistanceRemainingKm runtime /\ baseDistanceRemainingKm runtime <= baseDistanceKm preset) ->
  (0 <= distanceRemainderKm runtime /\ distanceRemainderKm runtime < distanceStepKm preset) ->
  (0 <= lowSpeedRemainderSeconds runtime /\ lowSpeedRemainderSeconds runtime < lowSpeedStepSeconds preset) ->
  let after := updateFareBySegment preset runtime seg in
  baseDistanceRemainingKm after <= baseDistanceRemainingKm runtime
  /\ (0 <= baseDistanceRemainingKm after /\ baseDistanceRemainingKm after <= baseDistanceKm preset)
  /\ (0 <= distanceRemainderKm after /\ distanceRemainderKm after < distanceStepKm preset)
  /\ (0 <= lowSpeedRemainderSeconds after /\ lowSpeedRemainderSeconds after < lowSpeedStepSeconds preset).
Proof.
  intros Hp Hd [Hb0 Hb1] [Hr0 Hr1] [Hl0 Hl1] after.
  destruct (presetInvariant_exact preset Hp) as (_ & _ & Hds & _ & _ & Hls & _).
  unfold nonNegativeDistance in Hd. cbn [nleb nzero exact] in Hd. apply leb_spec in Hd.
  assert (Hsame : baseDistanceRemainingKm runtime <= baseDistanceRemainingKm runtime)
    by apply Qcle_refl.
  subst after. unfold updateFareBySegment.
  destruct (rejectedSegment seg) eqn:Hrej; [tauto|].
  unfold rejectedSegment in Hrej. cbn [nleb nzero isFinite exact negb orb] in Hrej.
  apply leb_false in Hrej.
  destruct (inLowSpeedMode preset seg).
  - unfold chargeLowSpeed, timeSteps.
    cbn [nadd nsub nmul ndiv nltb nzero Math_floor exact].
    assert (Hx : 0 <= lowSpeedRemainderSeconds runtime + deltaSeconds seg) by qc_order.
    destruct (remainder_range _ _ Hls Hx) as [Hyes Hno].
    destruct (Exact.ltb 0 (Exact.floor _)) eqn:Hk;
      cbn [baseDistanceRemainingKm distanceRemainderKm lowSpeedRemainderSeconds].
    + specialize (Hyes eq_refl). tauto.
    + specialize (Hno eq_refl). tauto.
  - unfold chargeDistance, distanceSteps.
    set (pair := consumeBaseDistance runtime seg).
    assert (Hpair : fst pair <= baseDistanceRemainingKm runtime
                    /\ 0 <= fst pair /\ 0 <= snd pair).
    { subst pair. unfold consumeBaseDistance.
      cbn [nsub nltb nzero Math_min exact]. unfold Exact.min.
      destruct (Exact.ltb 0 (baseDistanceRemainingKm runtime)) eqn:Hpos; cbn [fst snd].
      - destruct (Qle_bool (baseDistanceRemainingKm runtime) (deltaDistanceKm seg)) eqn:Hle.
        + apply (leb_spec (baseDistanceRemainingKm runtime)) in Hle.
          repeat split; qc_order.
        + apply (leb_false (baseDistanceRemainingKm runtime)) in Hle.
          repeat split; qc_order.
      - repeat split; assumption. }
    destruct Hpair as (Hf1 & Hf0 & Hs0).
    assert (Hf2 : fst pair <= baseDistanceKm preset) by (eapply Qcle_trans; eassumption).
    cbn [nadd nsub nmul ndiv nltb nzero Math_floor exact].
    destruct (Exact.ltb 0 (snd pair)) eqn:Hc;
      cbn [baseDistanceRemainingKm distanceRemainderKm lowSpeedRemainderSeconds];
      [|tauto].
    assert (Hx : 0 <= distanceRemainderKm runtime + snd pair) by qc_order.
    destruct (remainder_range _ _ Hds Hx) as [Hyes Hno].
    destruct (Exact.ltb 0 (Exact.floor _)) eqn:Hk;
      cbn [baseDistanceRemainingKm distanceRemainderKm lowSpeedRemainderSeconds].
    + specialize (Hyes eq_refl). tauto.
    + specialize (Hno eq_refl). tauto.
Qed.

Lemma applySegments_exact_invariant preset segs : forall runtime,
  presetInvariant preset = true ->
  forallb nonNegativeDistance segs = true ->
  (0 <= baseDistanceRemainingKm runtime /\ baseDistanceRemainingKm runtime <= baseDistanceKm preset) ->
  (0 <= distanceRemainderKm runtime /\ distanceRemainderKm runtime < distanceStepKm preset) ->
  (0 <= lowSpeedRemainderSeconds runtime /\ lowSpeedRemainderSeconds runtime < lowSpeedStepSeconds preset) ->
  let after := applySegments preset runtime segs in
  (0 <= baseDistanceRemainingKm after /\ baseDistanceRemainingKm after <= baseDistanceKm preset)
  /\ (0 <= distanceRemainderKm after /\ distanceRemainderKm after < distanceStepKm preset)
  /\ (0 <= lowSpeedRemainderSeconds after /\ lowSpeedRemainderSeconds after < lowSpeedStepSeconds preset).
Proof.
  unfold applySegments.
  induction segs as [|seg segs IH]; intros runtime Hp Hsegs Hb Hr Hl; cbn [fold_left].
  - tauto.
  - cbn [forallb] in Hsegs. apply andb_prop in Hsegs as [Hseg Hsegs].
    destruct (updateFareBySegment_exact_invariant preset runtime seg Hp Hseg Hb Hr Hl)
      as (_ & Hb' & Hr' & Hl').
    apply IH; assumption.
Qed.

End FareExact.

(** ** The free base distance on binary64 *)

Section BaseDistanceBinary64.

Import Binary64Facts.

Implicit Types (preset : FarePreset float) (runtime : FareRuntime float)
         (seg : Segment float).

Lemma updateFareBySegment_base preset runtime seg :
  nonNegativeDistance seg = true ->
  (0 <=? baseDistanceRemainingKm runtime)%float = true ->
  let after := updateFareBySegment preset runtime seg in
  (baseDistanceRemainingKm after <=? baseDistanceRemainingKm runtime)%float = true
  /\ (0 <=? baseDistanceRemainingKm after)%float = true.
Proof.
  intros Hd Hb after.
  assert (Hsame : (baseDistanceRemainingKm runtime <=? baseDistanceRemainingKm runtime)%float
                  = true
                  /\ (0 <=? baseDistanceRemainingKm runtime)%float = true).
  { split; [apply leb_refl_nonneg|]; exact Hb. }
  subst after. unfold updateFareBySegment.
  destruct (rejectedSegment seg) eqn:Hrej; [exact Hsame|].
  destruct (inLowSpeedMode preset seg).
  - unfold chargeLowSpeed. destruct (nltb nzero (timeSteps preset _)); exact Hsame.
  - assert (Hfst : (fst (consumeBaseDistance runtime seg)
                    <=? baseDistanceRemainingKm runtime)%float = true
                   /\ (0 <=? fst (consumeBaseDistance runtime seg))%float = true).
    { unfold consumeBaseDistance. cbn [nltb nzero nsub Math_min binary64].
      destruct (0 <? baseDistanceRemainingKm runtime)%float eqn:Hpos; cbn [fst];
        [|exact Hsame].
      apply sub_min_bounds; [exact Hpos|exact Hd|].
      unfold rejectedSegment in Hrej. cbn [isFinite binary64] in Hrej.
      destruct (is_finite (deltaDistanceKm seg)); [reflexivity|discriminate]. }
    unfold chargeDistance.
    destruct (nltb nzero (snd (consumeBaseDistance runtime seg))); [|exact Hfst].
    destruct (nltb nzero (distanceSteps preset _)); exact Hfst.
Qed.

Lemma applySegments_base preset segs : forall runtime,
  forallb nonNegativeDistance segs = true ->
  (0 <=? baseDistanceRemainingKm runtime)%float = true ->
  (baseDistanceRemainingKm runtime <=? baseDistanceKm preset)%float = true ->
  let after := applySegments preset runtime segs in
  (0 <=? baseDistanceRemainingKm after)%float = true
  /\ (baseDistanceRemainingKm after <=? baseDistanceKm preset)%float = true.
Proof.
  unfold applySegments.
  induction segs as [|seg segs IH]; intros runtime Hsegs Hb0 Hb1; cbn [fold_left].
  - split; assumption.
  - cbn [forallb] in Hsegs. apply andb_prop in Hsegs as [Hseg Hsegs].
    destruct (updateFareBySegment_base preset runtime seg Hseg Hb0) as [Hle Hge].
    apply IH; [exact Hsegs|exact Hge|].
    eapply leb_trans_nonneg; eassumption.
Qed.

Lemma baseDistanceInvariant_binary64 preset segs seg :
  presetInvariant preset = true ->
  forallb nonNegativeDistance segs = true ->
  nonNegativeDistance seg = true ->
  let runtime := applySegments preset (createFareRuntime preset) segs in
  baseDistanceInvariant preset runtime (updateFareBySegment preset runtime seg) = true.
Proof.
  intros Hp Hsegs Hseg runtime.
  destruct (presetInvariant_fields preset Hp) as (_ & Hbase & _).
  assert (H0 : (0 <=? baseDistanceKm preset)%float = true)
    by (apply ltb_zero_leb_zero, Hbase).
  destruct (applySegments_base preset segs (createFareRuntime preset) Hsegs H0
              (leb_refl_nonneg _ H0)) as [Hr0 Hr1].
  fold runtime in Hr0, Hr1.
  destruct (updateFareBySegment_base preset runtime seg Hseg Hr0) as [Hle Hge].
  unfold baseDistanceInvariant. cbn [nleb nzero binary64].
  rewrite Hle, Hge. cbn [andb].
  eapply leb_trans_nonneg; eassumption.
Qed.

End BaseDistanceBinary64.

Section BaseDistanceExact.

Import ExactFacts.
Local Open Scope Qc_scope.

Lemma invariants_exact (preset : FarePreset Qc) (segs : list (Segment Qc))
      (seg : Segment Qc) :
  presetInvariant preset = true ->
  forallb nonNegativeDistance segs = true ->
  nonNegativeDistance seg = true ->
  let runtime := applySegments preset (createFareRuntime preset) segs in
  baseDistanceInvariant preset runtime (updateFareBySegment preset runtime seg) = true
  /\ remainderInvariant preset (updateFareBySegment preset runtime seg) = true.
Proof.
  intros Hp Hsegs Hseg runtime.
  destruct (presetInvariant_exact preset Hp) as (_ & Hbase & Hds & _ & _ & Hls & _).
  assert (Hinit : (0 <= baseDistanceRemainingKm (createFareRuntime preset)
                   /\ baseDistanceRemainingKm (createFareRuntime preset)
                      <= baseDistanceKm preset)
                  /\ (0 <= distanceRemainderKm (createFareRuntime preset)
                      /\ distanceRemainderKm (createFareRuntime preset)
                         < distanceStepKm preset)
                  /\ (0 <= lowSpeedRemainderSeconds (createFareRuntime preset)
                      /\ lowSpeedRemainderSeconds (createFareRuntime preset)
                         < lowSpeedStepSeconds preset)).
  { cbn [createFareRuntime baseDistanceRemainingKm distanceRemainderKm
           lowSpeedRemainderSeconds nzero exact].
    repeat split; try assumption; try apply Qcle_refl.
    apply Qclt_le_weak, Hbase. }
  destruct Hinit as (Hb & Hr & Hl).
  destruct (applySegments_exact_invariant preset segs _ Hp Hsegs Hb Hr Hl)
    as (Hb' & Hr' & Hl').
  fold runtime in Hb', Hr', Hl'.
  destruct (updateFareBySegment_exact_invariant preset runtime seg Hp Hseg Hb' Hr' Hl')
    as (Hle & [Hb0 Hb1] & [Hr0 Hr1] & [Hl0 Hl1]).
  unfold baseDistanceInvariant, remainderInvariant. cbn [nleb nltb nzero exact].
  repeat match goal with
         | |- _ /\ _ => split
         | |- _ && _ = true => apply andb_true_intro; split
         | |- Exact.leb _ _ = true => apply leb_spec; assumption
         | |- Exact.ltb _ _ = true => apply ltb_spec; assumption
         end.
Qed.

End BaseDistanceExact.

(** C2, as amended.  From [createFareRuntime preset], for a preset that
    satisfies the preset invariant and segments whose distance is not
    negative (the caller clamps it with [Math.max(0, deltaKm)]): in
    binary64 a call does not raise [baseDistanceRemainingKm] and leaves it
    between zero and [baseDistanceKm]; in exact arithmetic it also leaves
    [distanceRemainderKm] in [[0, distanceStepKm)] and
    [lowSpeedRemainderSeconds] in [[0, lowSpeedStepSeconds)]. *)
Theorem baseDistance_and_remainders :
  (forall (preset : FarePreset float) (segs : list (Segment float)) (seg : Segment float),
      presetInvariant preset = true ->
      forallb nonNegativeDistance segs = true ->
      nonNegativeDistance seg = true ->
      let runtime := applySegments preset (createFareRuntime preset) segs in
      baseDistanceInvariant preset runtime (updateFareBySegment preset runtime seg) = true)
  /\ (forall (preset : FarePreset Qc) (segs : list (Segment Qc)) (seg : Segment Qc),
         presetInvariant preset = true ->
         forallb nonNegativeDistance segs = true ->
         nonNegativeDistance seg = true ->
         let runtime := applySegments preset (createFareRuntime preset) segs in
         baseDistanceInvariant preset runtime (updateFareBySegment preset runtime seg) = true
         /\ remainderInvariant preset (updateFareBySegment preset runtime seg) = true).
Proof.
  split.
  - exact baseDistanceInvariant_binary64.
  - exact invariants_exact.
Qed.

Lemma baseDistance_and_remainders_witness :
  baseDistanceInvariant tokyo
    (applySegments tokyo (createFareRuntime tokyo)
       [ {| deltaDistanceKm := 0.4; deltaSeconds := 60; speedKmh := 24 |} ]%float)
    (updateFareBySegment tokyo
       (applySegments tokyo (createFareRuntime tokyo)
          [ {| deltaDistanceKm := 0.4; deltaSeconds := 60; speedKmh := 24 |} ]%float)
       {| deltaDistanceKm := 0.9; deltaSeconds := 90; speedKmh := 36 |}%float) = true.
Proof.
  exact (proj1 baseDistance_and_remainders tokyo
           [ {| deltaDistanceKm := 0.4; deltaSeconds := 60; speedKmh := 24 |} ]%float
           {| deltaDistanceKm := 0.9; deltaSeconds := 90; speedKmh := 36 |}%float
           eq_refl eq_refl eq_refl).
Defined.

(** C2 as stated fails: a valid segment with a negative distance raises
    [baseDistanceRemainingKm], here from 1 km to 2 km, above
    [baseDistanceKm]. *)
Lemma baseDistance_raised_by_negative_distance :
  let seg := {| deltaDistanceKm := -1; deltaSeconds := 60; speedKmh := 30 |}%float in
  let after := updateFareBySegment tokyo (createFareRuntime tokyo) seg in
  presetInvariant tokyo = true
  /\ validSegment seg = true
  /\ baseDistanceRemainingKm (createFareRuntime tokyo) = 1%float
  /\ baseDistanceRemainingKm after = 2%float
  /\ nleb (baseDistanceRemainingKm after) (baseDistanceRemainingKm (createFareRuntime tokyo))
     = false
  /\ nleb (baseDistanceRemainingKm after) (baseDistanceKm tokyo) = false.
Proof. vm_compute. repeat split; reflexivity. Qed.

(** In binary64 a remainder can leave its range by a rounding error: with
    a step of 1.0000000000000002 s, a low-speed segment of
    3.0000000000000004 s is charged three steps and leaves a negative
    [lowSpeedRemainderSeconds]. *)
Lemma remainder_outside_range_by_rounding :
  let seg := {| deltaDistanceKm := 0; deltaSeconds := 3.0000000000000004;
                speedKmh := 5 |}%float in
  let after := updateFareBySegment tokyoOffGrid (createFareRuntime tokyoOffGrid) seg in
  presetInvariant tokyoOffGrid = true
  /\ validSegment seg = true
  /\ nonNegativeDistance seg = true
  /\ fareYen after = 800%float
  /\ nltb (lowSpeedRemainderSeconds after) nzero = true
  /\ remainderInvariant tokyoOffGrid after = false.
Proof. vm_compute. repeat split; reflexivity. Qed.

(** C3, as amended.  With the Tokyo schedule (base fare 500, 1.0 km free,
    0.255 km steps of 100 yen) a single segment of 1.765 km at 30 km/h over
    60 s from the fresh runtime gives [fareYen = 700], no free distance
    left and a remainder of 0.2549999999999999 km: in binary64
    [1.765 - 1.0] is just below three steps of [0.255].  The segment
    [1.0 + 0.255 * 3] computed in binary64 gives [fareYen = 800] and a
    remainder of 1.1e-16 km.  In exact decimal arithmetic the result is
    800 yen with nothing left over. *)
Theorem distance_mode_example :
  updateFareBySegment tokyo (createFareRuntime tokyo)
    {| deltaDistanceKm := 1.765; deltaSeconds := 60; speedKmh := 30 |}%float
  = {| baseDistanceRemainingKm := 0; distanceRemainderKm := 0.25499999999999989;
       lowSpeedRemainderSeconds := 0; fareYen := 700 |}%float
  /\ updateFareBySegment tokyo (createFareRuntime tokyo)
       {| deltaDistanceKm := 1.0 + 0.255 * 3; deltaSeconds := 60; speedKmh := 30 |}%float
     = {| baseDistanceRemainingKm := 0; distanceRemainderKm := 1.1102230246251565e-16;
          lowSpeedRemainderSeconds := 0; fareYen := 800 |}%float
  /\ updateFareBySegment tokyoExact (createFareRuntime tokyoExact)
       {| deltaDistanceKm := Exact.dec 1765 3; deltaSeconds := Exact.dec 60 0;
          speedKmh := Exact.dec 30 0 |}
     = {| baseDistanceRemainingKm := Exact.dec 0 0; distanceRemainderKm := Exact.dec 0 0;
          lowSpeedRemainderSeconds := Exact.dec 0 0; fareYen := Exact.dec 800 0 |}.
Proof.
  split; [vm_compute; reflexivity|]. split; [vm_compute; reflexivity|].
  vm_compute. f_equal; apply Qc_is_canon; reflexivity.
Qed.

(** C3 as stated fails: the fare after the 1.765 km segment is 700 yen, not
    800, and the remainder is not zero. *)
Lemma distance_mode_example_not_800 :
  let after := updateFareBySegment tokyo (createFareRuntime tokyo)
                 {| deltaDistanceKm := 1.765; deltaSeconds := 60; speedKmh := 30 |}%float in
  ~ (fareYen after = 800%float
     /\ baseDistanceRemainingKm after = 0%float
     /\ distanceRemainderKm after = 0%float).
Proof.
  intros after [Hfare _].
  apply (f_equal Prim2SF) in Hfare. vm_compute in Hfare. discriminate Hfare.
Qed.

(** C5.  The rules are tried in the order [invalid_delta], [speed_spike],
    [distance_jump], [poor_accuracy_jump] and the first that applies gives
    the result: a non-finite delta or a non-positive duration gives
    [invalid_delta] whatever the rest; otherwise a speed above 180 gives
    [speed_spike]; otherwise the result is [distance_jump] exactly when
    [deltaKm > (180 / 3600 * 1.5) * deltaSeconds + 0.02]; otherwise it is
    [poor_accuracy_jump] exactly when an accuracy above 80 is reported with
    [deltaKm > 0.03], and [null] if not.  In particular a duration of 0 gives
    [invalid_delta], a speed of 200 with finite deltas and a positive
    duration gives [speed_spike], and the sample (0.01 km, 5 s, 7.2 km/h,
    accuracy 20 m) is accepted. *)
Theorem getNoisySampleReason_rules :
  (forall deltaKm deltaSeconds speedKmh accuracyMeters,
      invalidDelta deltaKm deltaSeconds = true ->
      getNoisySampleReason deltaKm deltaSeconds speedKmh accuracyMeters
      = Some "invalid_delta")
  /\ (forall deltaKm deltaSeconds speedKmh accuracyMeters,
         invalidDelta deltaKm deltaSeconds = false ->
         (180 <? speedKmh)%float = true ->
         getNoisySampleReason deltaKm deltaSeconds speedKmh accuracyMeters
         = Some "speed_spike")
  /\ (forall deltaKm deltaSeconds speedKmh accuracyMeters,
         invalidDelta deltaKm deltaSeconds = false ->
         (180 <? speedKmh)%float = false ->
         (getNoisySampleReason deltaKm deltaSeconds speedKmh accuracyMeters
          = Some "distance_jump"
          <-> (180 / 3600 * 1.5 * deltaSeconds + 0.02 <? deltaKm)%float = true))
  /\ (forall deltaKm deltaSeconds speedKmh accuracyMeters,
         invalidDelta deltaKm deltaSeconds = false ->
         (180 <? speedKmh)%float = false ->
         (180 / 3600 * 1.5 * deltaSeconds + 0.02 <? deltaKm)%float = false ->
         (getNoisySampleReason deltaKm deltaSeconds speedKmh accuracyMeters
          = Some "poor_accuracy_jump"
          <-> exists accuracy, accuracyMeters = Some accuracy
                               /\ (80 <? accuracy)%float = true
                               /\ (0.03 <? deltaKm)%float = true)
         /\ (getNoisySampleReason deltaKm deltaSeconds speedKmh accuracyMeters = None
             <-> poorAccuracyJump deltaKm accuracyMeters = false))
  /\ (forall deltaKm speedKmh accuracyMeters,
         getNoisySampleReason deltaKm 0 speedKmh accuracyMeters = Some "invalid_delta")
  /\ (forall deltaKm deltaSeconds accuracyMeters,
         PrimFloat.is_finite deltaKm = true ->
         PrimFloat.is_finite deltaSeconds = true ->
         (0 <? deltaSeconds)%float = true ->
         getNoisySampleReason deltaKm deltaSeconds 200 accuracyMeters = Some "speed_spike")
  /\ getNoisySampleReason 0.01 5 7.2 (Some 20%float) = None.
Proof.
  repeat match goal with |- _ /\ _ => split end.
  - intros dk ds v acc Hinv. unfold getNoisySampleReason. rewrite Hinv. reflexivity.
  - intros dk ds v acc Hinv Hspike. unfold getNoisySampleReason.
    rewrite Hinv. unfold MAX_REASONABLE_SPEED_KMH. rewrite Hspike. reflexivity.
  - intros dk ds v acc Hinv Hspike. unfold getNoisySampleReason.
    rewrite Hinv. unfold MAX_REASONABLE_SPEED_KMH. rewrite Hspike.
    change (dynamicDistanceCap ds) with (180 / 3600 * 1.5 * ds + 0.02)%float.
    destruct (180 / 3600 * 1.5 * ds + 0.02 <? dk)%float.
    + split; reflexivity.
    + destruct (poorAccuracyJump dk acc); split; discriminate.
  - intros dk ds v acc Hinv Hspike Hjump. unfold getNoisySampleReason.
    rewrite Hinv. unfold MAX_REASONABLE_SPEED_KMH. rewrite Hspike.
    change (dynamicDistanceCap ds) with (180 / 3600 * 1.5 * ds + 0.02)%float.
    rewrite Hjump. unfold poorAccuracyJump, POOR_ACCURACY_METERS.
    destruct acc as [a|].
    + destruct (80 <? a)%float eqn:Ha; destruct (0.03 <? dk)%float eqn:Hd; cbn [andb].
      * split; split; try discriminate; try reflexivity.
        intros _. exists a. auto.
      * split; split; try discriminate; try reflexivity.
        intros (a' & Ea & _ & Hd'). discriminate Hd'.
      * split; split; try discriminate; try reflexivity.
        intros (a' & Ea & Ha' & _). injection Ea as <-. congruence.
      * split; split; try discriminate; try reflexivity.
        intros (a' & Ea & Ha' & _). injection Ea as <-. congruence.
    + split; split; try discriminate; try reflexivity.
      intros (a' & Ea & _). discriminate Ea.
  - intros dk v acc. unfold getNoisySampleReason, invalidDelta.
    change (0 <=? 0)%float with true. rewrite !orb_true_r. reflexivity.
  - intros dk ds acc Hdk Hds Hpos. unfold getNoisySampleReason, invalidDelta.
    rewrite Hdk, Hds, (Binary64Facts.ltb_leb_false _ _ Hpos). reflexivity.
  - reflexivity.
Qed.

Lemma getNoisySampleReason_rules_witness :
  getNoisySampleReason 0.5 1 200 None = Some "speed_spike"
  /\ getNoisySampleReason 0.5 (-1) 20 None = Some "invalid_delta".
Proof.
  split.
  - exact (proj1 (proj2 (proj2 (proj2 (proj2 (proj2 getNoisySampleReason_rules)))))
             0.5%float 1%float None eq_refl eq_refl eq_refl).
  - exact (proj1 getNoisySampleReason_rules 0.5%float (-1)%float 20%float None eq_refl).
Defined.

(** ** The reference loop runs to its end *)

Lemma chargeStepsLoop_more_fuel {num : Type} `{JsNumber num}
      (n m : nat) : forall (step stepFare remainder fare : num),
  nleb step (fst (chargeStepsLoop n step stepFare remainder fare)) = false ->
  chargeStepsLoop (n + m) step stepFare remainder fare
  = chargeStepsLoop n step stepFare remainder fare.
Proof.
  induction n as [|n IH]; intros step sf r f Hend; cbn [chargeStepsLoop Nat.add] in *.
  - destruct m as [|m]; [reflexivity|]. cbn [chargeStepsLoop fst] in *.
    rewrite Hend. reflexivity.
  - destruct (nleb step r) eqn:Hle.
    + apply IH. exact Hend.
    + reflexivity.
Qed.

(** C8, as amended.  For a preset that satisfies the preset invariant, over
    exact rational arithmetic the batched floor-division of
    [updateFareBySegment] gives the runtime the iterative reference gives
    once the loop of the reference has been given turns enough to end. *)
Theorem batched_steps_equal_iterative_exact
        (preset : FarePreset Qc) (runtime : FareRuntime Qc) (seg : Segment Qc) :
  presetInvariant preset = true ->
  exists turns : nat, forall fuel : nat,
      (turns <= fuel)%nat ->
      referenceUpdate fuel preset runtime seg = updateFareBySegment preset runtime seg.
Proof.
  intros Hp.
  exists (Z.to_nat (Qfloor ((lowSpeedRemainderSeconds runtime + deltaSeconds seg)
                            / lowSpeedStepSeconds preset)%Qc)
          + Z.to_nat (Qfloor ((distanceRemainderKm runtime
                               + snd (consumeBaseDistance runtime seg))
                              / distanceStepKm preset)%Qc))%nat.
  intros fuel Hfuel. apply referenceUpdate_exact; assumption.
Qed.

Lemma batched_steps_equal_iterative_exact_witness :
  exists turns : nat, forall fuel : nat,
      (turns <= fuel)%nat ->
      referenceUpdate fuel tokyoExact (createFareRuntime tokyoExact)
        {| deltaDistanceKm := Exact.dec 3 0; deltaSeconds := Exact.dec 360 0;
           speedKmh := Exact.dec 30 0 |}
      = updateFareBySegment tokyoExact (createFareRuntime tokyoExact)
          {| deltaDistanceKm := Exact.dec 3 0; deltaSeconds := Exact.dec 360 0;
             speedKmh := Exact.dec 30 0 |}.
Proof.
  exact (batched_steps_equal_iterative_exact tokyoExact (createFareRuntime tokyoExact)
           {| deltaDistanceKm := Exact.dec 3 0; deltaSeconds := Exact.dec 360 0;
              speedKmh := Exact.dec 30 0 |} eq_refl).
Defined.

(** C8 as stated fails in binary64: a 3 km segment at 30 km/h on the fresh
    Tokyo runtime leaves 2 km to charge; the batched computation charges
    seven steps and leaves 0.21499999999999986 km, the loop charges seven
    steps and leaves 0.2150000000000003 km, however many turns it is
    given. *)
Lemma batched_steps_differ_from_iterative_binary64 :
  let seg := {| deltaDistanceKm := 3; deltaSeconds := 360; speedKmh := 30 |}%float in
  let runtime := createFareRuntime tokyo in
  presetInvariant tokyo = true
  /\ remainderInvariant tokyo runtime = true
  /\ validSegment seg = true
  /\ distanceRemainderKm (updateFareBySegment tokyo runtime seg)
     = 0.21499999999999986%float
  /\ forall fuel : nat,
      (7 <= fuel)%nat ->
      distanceRemainderKm (referenceUpdate fuel tokyo runtime seg)
      = 0.2150000000000003%float
      /\ referenceUpdate fuel tokyo runtime seg <> updateFareBySegment tokyo runtime seg.
Proof.
  intros seg runtime.
  repeat match goal with |- _ /\ _ => split end; try (vm_compute; reflexivity).
  intros fuel Hfuel.
  assert (Hsame : referenceUpdate fuel tokyo runtime seg
                  = referenceUpdate 7 tokyo runtime seg).
  { replace fuel with (7 + (fuel - 7))%nat by lia.
    unfold referenceUpdate.
    change (rejectedSegment seg) with false.
    change (inLowSpeedMode tokyo seg) with false. cbv iota.
    unfold referenceDistance.
    change (nltb nzero (snd (consumeBaseDistance runtime seg))) with true. cbv iota.
    cbv zeta. rewrite chargeStepsLoop_more_fuel; [reflexivity|].
    vm_compute. reflexivity. }
  rewrite Hsame. split; [vm_compute; reflexivity|].
  intros Heq. apply (f_equal distanceRemainderKm) in Heq.
  apply (f_equal Prim2SF) in Heq. vm_compute in Heq. discriminate Heq.
Qed.

(** C8 as stated fails in binary64 by a whole step as well.  A 10.18 km
    segment on the fresh Tokyo runtime leaves 9.18 km to charge, which is
    36 steps of 0.255 km.  The batched computation charges 36 steps: the
    fare is 4100 and the remainder 0.  The loop subtracts 0.255 km 35
    times and is left with 0.25499999999999956 km, which is below a step:
    it charges 35 steps, the fare is 4000, however many turns it is
    given. *)
Lemma batched_steps_charge_a_step_more_binary64 :
  let seg := {| deltaDistanceKm := 10.18; deltaSeconds := 1200; speedKmh := 30 |}%float in
  let runtime := createFareRuntime tokyo in
  presetInvariant tokyo = true
  /\ remainderInvariant tokyo runtime = true
  /\ validSegment seg = true
  /\ fareYen (updateFareBySegment tokyo runtime seg) = 4100%float
  /\ distanceRemainderKm (updateFareBySegment tokyo runtime seg) = 0%float
  /\ forall fuel : nat,
      (35 <= fuel)%nat ->
      fareYen (referenceUpdate fuel tokyo runtime seg) = 4000%float
      /\ distanceRemainderKm (referenceUpdate fuel tokyo runtime seg)
         = 0.25499999999999956%float
      /\ referenceUpdate fuel tokyo runtime seg <> updateFareBySegment tokyo runtime seg.
Proof.
  intros seg runtime.
  repeat match goal with |- _ /\ _ => split end; try (vm_compute; reflexivity).
  intros fuel Hfuel.
  assert (Hsame : referenceUpdate fuel tokyo runtime seg
                  = referenceUpdate 35 tokyo runtime seg).
  { replace fuel with (35 + (fuel - 35))%nat by lia.
    unfold referenceUpdate.
    change (rejectedSegment seg) with false.
    change (inLowSpeedMode tokyo seg) with false. cbv iota.
    unfold referenceDistance.
    change (nltb nzero (snd (consumeBaseDistance runtime seg))) with true. cbv iota.
    cbv zeta. rewrite chargeStepsLoop_more_fuel; [reflexivity|].
    vm_compute. reflexivity. }
  rewrite Hsame. split; [vm_compute; reflexivity|]. split; [vm_compute; reflexivity|].
  intros Heq. apply (f_equal fareYen) in Heq.
  apply (f_equal Prim2SF) in Heq. vm_compute in Heq. discriminate Heq.
Qed.

(** C9.  [getPresetById] returns a preset for every id: the configured
    preset with that id if there is one, and otherwise the first configured
    preset, which is the Tokyo one.  A snapshot restored with an id that no
    preset has leaves the session paused under the default schedule. *)
Theorem getPresetById_total :
  (forall presetId : string,
      (exists preset, In preset FARE_PRESETS /\ id preset = presetId
                      /\ getPresetById presetId = preset)
      \/ ((forall preset, In preset FARE_PRESETS -> id preset <> presetId)
          /\ getPresetById presetId = DEFAULT_FARE_PRESET))
  /\ nth_error FARE_PRESETS 0 = Some DEFAULT_FARE_PRESET
  /\ id DEFAULT_FARE_PRESET = "tokyo"
  /\ (forall (H : Host) (app : App.t) (snapshot : SessionSnapshot.t)
             (savedAtMs_ : float) (fs : FileSystem),
         App.restorableSnapshot app = Some snapshot ->
         (forall preset, In preset FARE_PRESETS ->
                         id preset <> SessionSnapshot.selectedPresetId snapshot) ->
         let restored := fst (restoreFromSnapshot true savedAtMs_ app fs) in
         App.selectedPresetId restored = SessionSnapshot.selectedPresetId snapshot
         /\ App.selectedPreset restored = DEFAULT_FARE_PRESET
         /\ App.sessionState restored = paused
         /\ App.fareRuntimeRef restored = SessionSnapshot.fareRuntime snapshot
         /\ App.fareYen restored = SessionSnapshot.fareYen snapshot).
Proof.
  assert (Hfind : forall presetId : string,
             (exists preset, In preset FARE_PRESETS /\ id preset = presetId
                             /\ getPresetById presetId = preset)
             \/ ((forall preset, In preset FARE_PRESETS -> id preset <> presetId)
                 /\ getPresetById presetId = DEFAULT_FARE_PRESET)).
  { intros presetId. unfold getPresetById, FARE_PRESETS. cbn [find id].
    destruct (String.eqb "tokyo" presetId) eqn:Et.
    - left. eexists. split; [left; reflexivity|]. split; [|reflexivity].
      apply String.eqb_eq in Et. exact Et.
    - destruct (String.eqb "osaka" presetId) eqn:Eo.
      + left. eexists. split; [right; left; reflexivity|]. split; [|reflexivity].
        apply String.eqb_eq in Eo. exact Eo.
      + right. split; [|reflexivity].
        intros preset [<-|[<-|[]]]; cbn [id]; apply String.eqb_neq; assumption. }
  split; [exact Hfind|]. split; [reflexivity|]. split; [reflexivity|].
  intros H app snapshot savedAt fs Hsnap Hunknown restored.
  assert (Hdefault : getPresetById (SessionSnapshot.selectedPresetId snapshot)
                     = DEFAULT_FARE_PRESET).
  { destruct (Hfind (SessionSnapshot.selectedPresetId snapshot))
      as [(preset & Hin & Hid & _)|[_ Hd]]; [|exact Hd].
    exfalso. exact (Hunknown preset Hin Hid). }
  subst restored. unfold restoreFromSnapshot. rewrite Hsnap. cbn [negb].
  unfold persistSessionSnapshot.
  destruct (buildSessionSnapshot _ _ _ _); cbn; rewrite ?Hdefault; auto.
Qed.

Lemma getPresetById_total_witness :
  let snapshot :=
    {| SessionSnapshot.savedAtMs := 5000; SessionSnapshot.sessionState := snapshotPaused;
       SessionSnapshot.startedAtMs := 1000; SessionSnapshot.elapsedMs := 4000;
       SessionSnapshot.distanceKm := 1.5; SessionSnapshot.fareYen := 600;
       SessionSnapshot.billingMode := distance;
       SessionSnapshot.selectedPresetId := "kyoto";
       SessionSnapshot.acceptedSamples := 4; SessionSnapshot.filteredSamples := 0;
       SessionSnapshot.fareRuntime := createFareRuntime tokyo;
       SessionSnapshot.from := None; SessionSnapshot.to := None;
       SessionSnapshot.pauseLogs := []; SessionSnapshot.events := [] |}%float in
  let app := App.set_restorableSnapshot (Some snapshot) App.initial in
  App.selectedPreset
    (fst (@restoreFromSnapshot HostModel.host true 6000%float app ∅))
  = DEFAULT_FARE_PRESET.
Proof.
  intros snapshot app.
  refine (proj1 (proj2 (proj2 (proj2 (proj2 getPresetById_total))
                          HostModel.host app snapshot 6000%float ∅ eq_refl _))).
  intros preset [<-|[<-|[]]]; cbn; discriminate.
Defined.

(** C4.  The record [finishSession] builds reads [distanceChargeSteps] and
    [timeChargeSteps] off the fare runtime, which has no such properties:
    whatever was charged during the session, both are [undefined] in the
    record, and the stored JSON object has neither key. *)
Theorem finishSession_charge_steps_undefined
        (H : Host) (finishedAtMs_ : float) (app : App.t) (record : DriveHistoryItem.t) :
  finishedRecord finishedAtMs_ app = Some record ->
  DriveHistoryItem.distanceChargeSteps record = None
  /\ DriveHistoryItem.timeChargeSteps record = None
  /\ forall value,
      ~ In ("distanceChargeSteps"%string, value)
           (match ToJson.driveHistoryItem record with
            | JObject fields => fields
            | _ => []
            end).
Proof.
  unfold finishedRecord. intros Hrecord.
  destruct (App.startedAtMs app) as [started|]; [|discriminate].
  destruct (truthy (Some started)); [|discriminate].
  injection Hrecord as <-.
  cbn [buildHistoryRecord DriveHistoryItem.distanceChargeSteps
         DriveHistoryItem.timeChargeSteps].
  split; [reflexivity|]. split; [reflexivity|].
  intros value. unfold ToJson.driveHistoryItem, buildHistoryRecord.
  cbn -[jsonOfNumber ToJson.latLng map historyId].
  intros Hin.
  repeat match goal with
         | H : _ \/ _ |- _ => destruct H as [H|H]
         | H : (_, _) = (_, _) |- _ => discriminate H
         | H : False |- _ => exact H
         end.
Qed.

(** The session of the failing input: started at 1000 ms, one accepted
    segment of 3 km at 30 km/h, paused at 361000 ms. *)
Lemma finishSession_charge_steps_undefined_witness :
  let runtime := updateFareBySegment tokyo (createFareRuntime tokyo)
                   {| deltaDistanceKm := 3; deltaSeconds := 360; speedKmh := 30 |}%float in
  let app :=
    App.set_fareYen (fareYen runtime)
      (App.set_fareRuntimeRef runtime
         (App.set_elapsedAccumulatedMsRef 360000%float
            (App.set_startedAtMs (Some 1000%float)
               (App.set_sessionState paused App.initial)))) in
  distanceSteps tokyo 2%float = 7%float
  /\ fareYen runtime = 1200%float
  /\ exists record,
      @finishedRecord HostModel.host 362000%float app = Some record
      /\ DriveHistoryItem.fareYen record = 1200%float
      /\ DriveHistoryItem.distanceChargeSteps record = None
      /\ DriveHistoryItem.timeChargeSteps record = None.
Proof.
  intros runtime app.
  split; [vm_compute; reflexivity|]. split; [vm_compute; reflexivity|].
  eexists. split; [reflexivity|]. split; [vm_compute; reflexivity|].
  split;
    apply (finishSession_charge_steps_undefined HostModel.host 362000%float app _ eq_refl).
Defined.

(** C10.  [clearSessionSnapshot] writes the empty string to the snapshot
    file; [JSON.parse] rejects the empty string, and
    [loadSessionSnapshot] gives [null] for every stored text [JSON.parse]
    rejects: after a clear, a load returns [null]. *)
Theorem loadSessionSnapshot_after_clear (H : Host) (fs : FileSystem) :
  JSON_parse "" = None ->
  clearSessionSnapshot fs !! SESSION_SNAPSHOT_FILE = Some ""%string
  /\ loadSessionSnapshot (clearSessionSnapshot fs) = None
  /\ forall (stored : FileSystem) (raw : string),
      stored !! SESSION_SNAPSHOT_FILE = Some raw ->
      JSON_parse raw = None ->
      loadSessionSnapshot stored = None.
Proof.
  intros Hempty.
  assert (Hload : forall (stored : FileSystem) (raw : string),
             stored !! SESSION_SNAPSHOT_FILE = Some raw ->
             JSON_parse raw = None ->
             loadSessionSnapshot stored = None).
  { intros stored raw Hraw Hparse.
    unfold loadSessionSnapshot, getInfoAsync, readAsStringAsync.
    rewrite Hraw, Hparse. destruct (negb _); reflexivity. }
  assert (Hclear : clearSessionSnapshot fs !! SESSION_SNAPSHOT_FILE = Some ""%string).
  { unfold clearSessionSnapshot, writeAsStringAsync. apply lookup_insert_eq. }
  split; [exact Hclear|]. split; [|exact Hload].
  exact (Hload _ _ Hclear Hempty).
Qed.

Lemma loadSessionSnapshot_after_clear_witness :
  @loadSessionSnapshot HostModel.host
    (@clearSessionSnapshot HostModel.host
       (<[ @SESSION_SNAPSHOT_FILE HostModel.host := "{}"%string ]> ∅)) = None.
Proof.
  exact (proj1 (proj2 (loadSessionSnapshot_after_clear HostModel.host
                         (<[ @SESSION_SNAPSHOT_FILE HostModel.host := "{}"%string ]> ∅)
                         eq_refl))).
Defined.

(** * Further properties of the sources *)

(** ** fare.ts *)

(** X1.  Looking a configured preset up by its own id gives that preset:
    the ids of [FARE_PRESETS] are pairwise different. *)
Theorem getPresetById_finds_configured (preset : FarePreset float) :
  In preset FARE_PRESETS -> getPresetById (id preset) = preset.
Proof.
  intros [<-|[<-|[]]]; reflexivity.
Qed.

Lemma getPresetById_finds_configured_witness :
  getPresetById "osaka" = nth 1 FARE_PRESETS DEFAULT_FARE_PRESET.
Proof.
  exact (getPresetById_finds_configured (nth 1 FARE_PRESETS DEFAULT_FARE_PRESET)
           (or_intror (or_introl eq_refl))).
Defined.

(** X2.  In low-speed mode the distance of the segment plays no part: two
    segments with finite distances and the same duration and speed give
    the same runtime. *)
Theorem lowSpeed_ignores_distance
        (preset : FarePreset float) (runtime : FareRuntime float)
        (distance1 distance2 seconds speed : float) :
  isFinite distance1 = true ->
  isFinite distance2 = true ->
  nleb speed (lowSpeedThresholdKmh preset) = true ->
  updateFareBySegment preset runtime
    {| deltaDistanceKm := distance1; deltaSeconds := seconds; speedKmh := speed |}
  = updateFareBySegment preset runtime
      {| deltaDistanceKm := distance2; deltaSeconds := seconds; speedKmh := speed |}.
Proof.
  intros H1 H2 Hlow.
  unfold updateFareBySegment, rejectedSegment, inLowSpeedMode.
  cbn [deltaDistanceKm deltaSeconds speedKmh]. rewrite H1, H2, Hlow.
  reflexivity.
Qed.

Lemma lowSpeed_ignores_distance_witness :
  updateFareBySegment tokyo (createFareRuntime tokyo)
    {| deltaDistanceKm := 0; deltaSeconds := 200; speedKmh := 4 |}%float
  = updateFareBySegment tokyo (createFareRuntime tokyo)
      {| deltaDistanceKm := 0.2; deltaSeconds := 200; speedKmh := 4 |}%float.
Proof.
  exact (lowSpeed_ignores_distance tokyo (createFareRuntime tokyo)
           0%float 0.2%float 200%float 4%float eq_refl eq_refl eq_refl).
Defined.

(** X3.  In distance mode the duration of the segment plays no part, as
    long as it is finite and positive. *)
Theorem distanceMode_ignores_duration
        (preset : FarePreset float) (runtime : FareRuntime float)
        (distance seconds1 seconds2 speed : float) :
  isFinite seconds1 = true -> nltb nzero seconds1 = true ->
  isFinite seconds2 = true -> nltb nzero seconds2 = true ->
  nleb speed (lowSpeedThresholdKmh preset) = false ->
  updateFareBySegment preset runtime
    {| deltaDistanceKm := distance; deltaSeconds := seconds1; speedKmh := speed |}
  = updateFareBySegment preset runtime
      {| deltaDistanceKm := distance; deltaSeconds := seconds2; speedKmh := speed |}.
Proof.
  intros F1 P1 F2 P2 Hfast.
  unfold updateFareBySegment, rejectedSegment, inLowSpeedMode.
  cbn [deltaDistanceKm deltaSeconds speedKmh nltb nleb nzero binary64] in *.
  rewrite F1, F2, Hfast.
  rewrite (Binary64Facts.ltb_leb_false _ _ P1), (Binary64Facts.ltb_leb_false _ _ P2).
  reflexivity.
Qed.

Lemma distanceMode_ignores_duration_witness :
  updateFareBySegment tokyo (createFareRuntime tokyo)
    {| deltaDistanceKm := 1.4; deltaSeconds := 100; speedKmh := 40 |}%float
  = updateFareBySegment tokyo (createFareRuntime tokyo)
      {| deltaDistanceKm := 1.4; deltaSeconds := 126; speedKmh := 40 |}%float.
Proof.
  exact (distanceMode_ignores_duration tokyo (createFareRuntime tokyo)
           1.4%float 100%float 126%float 40%float
           eq_refl eq_refl eq_refl eq_refl eq_refl).
Defined.

(** ** App.tsx: the classifier *)

(** X4.  A sample the classifier keeps has finite deltas and a duration
    that is not [<= 0], a speed that is not above 180 km/h, a distance that
    is not above the time-scaled cap and, if an accuracy above 80 m is
    reported, a distance that is not above 30 m. *)
Theorem accepted_sample_bounds
        (deltaKm deltaSeconds speedKmh : float) (accuracyMeters : option float) :
  getNoisySampleReason deltaKm deltaSeconds speedKmh accuracyMeters = None ->
  PrimFloat.is_finite deltaKm = true
  /\ PrimFloat.is_finite deltaSeconds = true
  /\ (deltaSeconds <=? 0)%float = false
  /\ (180 <? speedKmh)%float = false
  /\ (dynamicDistanceCap deltaSeconds <? deltaKm)%float = false
  /\ (forall accuracy, accuracyMeters = Some accuracy ->
                       (80 <? accuracy)%float = true ->
                       (0.03 <? deltaKm)%float = false).
Proof.
  unfold getNoisySampleReason, invalidDelta, MAX_REASONABLE_SPEED_KMH.
  destruct (PrimFloat.is_finite deltaKm); [|discriminate].
  destruct (PrimFloat.is_finite deltaSeconds); [|discriminate].
  destruct (deltaSeconds <=? 0)%float; [discriminate|]. cbn [negb orb].
  destruct (180 <? speedKmh)%float; [discriminate|].
  destruct (dynamicDistanceCap deltaSeconds <? deltaKm)%float; [discriminate|].
  destruct (poorAccuracyJump deltaKm accuracyMeters) eqn:Hpoor; [discriminate|].
  intros _. repeat split.
  intros accuracy -> Hacc. unfold poorAccuracyJump, POOR_ACCURACY_METERS in Hpoor.
  rewrite Hacc in Hpoor. exact Hpoor.
Qed.

Lemma accepted_sample_bounds_witness :
  PrimFloat.is_finite 0.01 = true
  /\ PrimFloat.is_finite 5 = true
  /\ (5 <=? 0)%float = false
  /\ (180 <? 7.2)%float = false
  /\ (dynamicDistanceCap 5 <? 0.01)%float = false
  /\ (forall accuracy, Some 20%float = Some accuracy ->
                       (80 <? accuracy)%float = true ->
                       (0.03 <? 0.01)%float = false).
Proof.
  exact (accepted_sample_bounds 0.01%float 5%float 7.2%float (Some 20%float) eq_refl).
Defined.

(** X5.  A fast segment whose distance fits in what is left of the base
    distance is free: the fare and both remainders stay as they are, only
    the base distance is used up. *)
Theorem free_base_distance_charges_nothing
        (preset : FarePreset float) (runtime : FareRuntime float) (seg : Segment float) :
  validSegment seg = true ->
  inLowSpeedMode preset seg = false ->
  (0 <? baseDistanceRemainingKm runtime)%float = true ->
  (0 <=? deltaDistanceKm seg)%float = true ->
  (deltaDistanceKm seg <=? baseDistanceRemainingKm runtime)%float = true ->
  let after := updateFareBySegment preset runtime seg in
  fareYen after = fareYen runtime
  /\ distanceRemainderKm after = distanceRemainderKm runtime
  /\ lowSpeedRemainderSeconds after = lowSpeedRemainderSeconds runtime
  /\ baseDistanceRemainingKm after
     = (baseDistanceRemainingKm runtime
        - Binary64.min (baseDistanceRemainingKm runtime) (deltaDistanceKm seg))%float.
Proof.
  intros Hv Hfast Hb Hd Hle after. subst after.
  assert (Hfin : PrimFloat.is_finite (deltaDistanceKm seg) = true).
  { unfold validSegment in Hv. cbn [isFinite binary64] in Hv.
    apply andb_prop in Hv as [Hv _]. apply andb_prop in Hv as [Hv _]. exact Hv. }
  unfold updateFareBySegment. rewrite (validSegment_not_rejected seg Hv), Hfast.
  unfold chargeDistance, consumeBaseDistance.
  cbn [nltb nzero nsub Math_min binary64]. rewrite Hb. cbn [fst snd].
  rewrite (Binary64Facts.sub_min_within _ _ Hb Hd Hfin Hle).
  repeat split.
Qed.

Lemma free_base_distance_charges_nothing_witness :
  let seg := {| deltaDistanceKm := 0.4; deltaSeconds := 36; speedKmh := 40 |}%float in
  let after := updateFareBySegment tokyo (createFareRuntime tokyo) seg in
  fareYen after = fareYen (createFareRuntime tokyo)
  /\ distanceRemainderKm after = distanceRemainderKm (createFareRuntime tokyo)
  /\ lowSpeedRemainderSeconds after = lowSpeedRemainderSeconds (createFareRuntime tokyo)
  /\ baseDistanceRemainingKm after
     = (baseDistanceRemainingKm (createFareRuntime tokyo)
        - Binary64.min (baseDistanceRemainingKm (createFareRuntime tokyo))
            (deltaDistanceKm seg))%float.
Proof.
  exact (free_base_distance_charges_nothing tokyo (createFareRuntime tokyo)
           {| deltaDistanceKm := 0.4; deltaSeconds := 36; speedKmh := 40 |}%float
           eq_refl eq_refl eq_refl eq_refl eq_refl).
Defined.

(** ** App.tsx: the location callback *)

(** X6.  The duration the callback computes from two finite time stamps is
    at least a tenth of a second.  So it is positive, the guard
    [deltaSeconds <= 0] of the classifier and of the fare engine does not
    fire on it, and the fallback speed is never the constant 0 of the
    [else] branch. *)
Theorem sampleDeltaSeconds_at_least_a_tenth (timestampMs lastSampleTimeMs : float) :
  PrimFloat.is_finite timestampMs = true ->
  PrimFloat.is_finite lastSampleTimeMs = true ->
  let deltaSeconds := sampleDeltaSeconds timestampMs lastSampleTimeMs in
  (0.1 <=? deltaSeconds)%float = true
  /\ (deltaSeconds <=? 0)%float = false
  /\ forall deltaKm,
       sampleSpeedKmh deltaKm deltaSeconds None = (deltaKm / deltaSeconds * 3600)%float.
Proof.
  intros Ht Hl deltaSeconds.
  assert (Hge : (0.1 <=? deltaSeconds)%float = true).
  { apply Binary64Facts.max_ge_left; [reflexivity|].
    apply Binary64Facts.div_finite_not_nan; [|reflexivity|reflexivity].
    apply Binary64Facts.sub_finite_not_nan; assumption. }
  split; [exact Hge|]. split; [apply Binary64Facts.tenth_leb_not_leb_zero, Hge|].
  intros deltaKm. unfold sampleSpeedKmh.
  change (0 <? 0 * 3.6)%float with false. cbv iota.
  assert (Hpos : (0 <? deltaSeconds)%float = true).
  { apply Binary64Facts.tenth_leb_pos, Hge. }
  rewrite Hpos. reflexivity.
Qed.

Lemma sampleDeltaSeconds_at_least_a_tenth_witness :
  let deltaSeconds := sampleDeltaSeconds 5000 5000 in
  (0.1 <=? deltaSeconds)%float = true
  /\ (deltaSeconds <=? 0)%float = false
  /\ forall deltaKm,
       sampleSpeedKmh deltaKm deltaSeconds None = (deltaKm / deltaSeconds * 3600)%float.
Proof.
  exact (sampleDeltaSeconds_at_least_a_tenth 5000%float 5000%float eq_refl eq_refl).
Defined.

Section LocationCallback.

Context `{Host}.

(** The callback either leaves the runtime and the shown fare and distance
    alone, or it has kept the sample and charged its segment. *)
Lemma onLocation_cases (preset : FarePreset float) (loc : LocationObject) (app : App.t) :
  let after := onLocation preset loc app in
  (App.fareRuntimeRef after = App.fareRuntimeRef app
   /\ App.fareYen after = App.fareYen app
   /\ App.distanceKm after = App.distanceKm app
   /\ App.acceptedSamples after = App.acceptedSamples app)
  \/ exists last lastTime,
       App.lastPoint app = Some last
       /\ App.lastSampleTimeMs app = Some lastTime
       /\ truthy (Some lastTime) = true
       /\ sampleReason last lastTime loc = None
       /\ App.fareRuntimeRef after
          = updateFareBySegment preset (App.fareRuntimeRef app)
              (sampleSegment last lastTime loc)
       /\ App.fareYen after = fareYen (App.fareRuntimeRef after)
       /\ App.distanceKm after
          = (if (0 <? sampleDeltaKm last loc)%float
             then (App.distanceKm app + sampleDeltaKm last loc)%float
             else App.distanceKm app)
       /\ App.acceptedSamples after = (App.acceptedSamples app + 1)%float.
Proof.
  intros after. subst after. unfold onLocation.
  destruct (App.lastPoint app) as [last|] eqn:Elast; [|left; repeat split].
  destruct (App.lastSampleTimeMs app) as [lastTime|] eqn:Etime; [|left; repeat split].
  destruct (truthy (Some lastTime)) eqn:Etruthy; [|left; repeat split].
  fold (sampleDeltaKm last loc).
  destruct (getNoisySampleReason _ _ _ _) eqn:Ereason; [left; repeat split|].
  right. exists last, lastTime.
  split; [reflexivity|]. split; [reflexivity|]. split; [exact Etruthy|].
  split; [exact Ereason|].
  unfold sampleSegment.
  destruct (App.firstAcceptedPointRef _); destruct (0 <? sampleDeltaKm last loc)%float;
    repeat split.
Qed.

Lemma getNoisySampleReason_none_finite
      (deltaKm deltaSeconds speedKmh : float) (accuracyMeters : option float) :
  getNoisySampleReason deltaKm deltaSeconds speedKmh accuracyMeters = None ->
  PrimFloat.is_finite deltaKm = true.
Proof.
  unfold getNoisySampleReason, invalidDelta.
  destruct (PrimFloat.is_finite deltaKm); [reflexivity|discriminate].
Qed.

(** X7.  The callback never lowers the fare of the runtime, and keeps it
    positive; and if the fare shown agrees with the runtime before a
    sample, it agrees after it. *)
Theorem onLocation_fare_never_decreases
        (preset : FarePreset float) (loc : LocationObject) (app : App.t) :
  presetInvariant preset = true ->
  (0 <? fareYen (App.fareRuntimeRef app))%float = true ->
  let after := onLocation preset loc app in
  (fareYen (App.fareRuntimeRef app) <=? fareYen (App.fareRuntimeRef after))%float = true
  /\ (0 <? fareYen (App.fareRuntimeRef after))%float = true
  /\ (App.fareYen app = fareYen (App.fareRuntimeRef app) ->
      App.fareYen after = fareYen (App.fareRuntimeRef after)).
Proof.
  intros Hp Hf after.
  destruct (onLocation_cases preset loc app)
    as [(Hr & Hy & _)|(last & lastTime & _ & _ & _ & _ & Hr & Hy & _)];
    fold after in Hr, Hy; rewrite Hr.
  - split; [|split].
    + apply Binary64Facts.leb_refl_nonneg, Binary64Facts.ltb_zero_leb_zero, Hf.
    + exact Hf.
    + intros Hshown. rewrite Hy. exact Hshown.
  - destruct (updateFareBySegment_fare preset (App.fareRuntimeRef app)
                (sampleSegment last lastTime loc) Hp Hf) as [Hle Hpos].
    split; [exact Hle|]. split; [exact Hpos|].
    intros _. rewrite Hy, Hr. reflexivity.
Qed.

(** X8.  The callback never raises what is left of the base distance and
    never makes it negative: the distance it passes to the fare engine
    has gone through [Math.max(0, deltaKm)]. *)
Theorem onLocation_base_distance
        (preset : FarePreset float) (loc : LocationObject) (app : App.t) :
  (0 <=? baseDistanceRemainingKm (App.fareRuntimeRef app))%float = true ->
  let after := onLocation preset loc app in
  (baseDistanceRemainingKm (App.fareRuntimeRef after)
   <=? baseDistanceRemainingKm (App.fareRuntimeRef app))%float = true
  /\ (0 <=? baseDistanceRemainingKm (App.fareRuntimeRef after))%float = true.
Proof.
  intros Hb after.
  destruct (onLocation_cases preset loc app)
    as [(Hr & _)|(last & lastTime & _ & _ & _ & Hkept & Hr & _)];
    fold after in Hr; rewrite Hr.
  - split; [apply Binary64Facts.leb_refl_nonneg|]; exact Hb.
  - apply updateFareBySegment_base; [|exact Hb].
    unfold nonNegativeDistance, sampleSegment. cbn [deltaDistanceKm nleb nzero binary64].
    apply Binary64Facts.max_ge_left; [reflexivity|].
    apply Binary64Facts.is_finite_not_nan.
    exact (getNoisySampleReason_none_finite _ _ _ _ Hkept).
Qed.

(** X9.  The callback never lowers the distance shown. *)
Theorem onLocation_distance_never_decreases
        (preset : FarePreset float) (loc : LocationObject) (app : App.t) :
  (0 <=? App.distanceKm app)%float = true ->
  let after := onLocation preset loc app in
  (App.distanceKm app <=? App.distanceKm after)%float = true
  /\ (0 <=? App.distanceKm after)%float = true.
Proof.
  intros Hd after.
  destruct (onLocation_cases preset loc app)
    as [(_ & _ & Hk & _)|(last & lastTime & _ & _ & _ & _ & _ & _ & Hk & _)];
    fold after in Hk; rewrite Hk.
  - split; [apply Binary64Facts.leb_refl_nonneg|]; exact Hd.
  - destruct (0 <? sampleDeltaKm last loc)%float eqn:Hpos.
    + apply Binary64Facts.add_nonneg; [exact Hd|].
      apply Binary64Facts.ltb_zero_leb_zero, Hpos.
    + split; [apply Binary64Facts.leb_refl_nonneg|]; exact Hd.
Qed.

(** X10.  A sample the classifier rejects leaves the runtime, the fare,
    the distance and the count of kept samples as they are; it is counted
    as filtered, the speed is blanked and the mode is unknown.  The
    baseline still moves to the rejected sample. *)
Theorem onLocation_rejected_sample
        (preset : FarePreset float) (loc : LocationObject) (app : App.t)
        (last : LatLng) (lastTime : float) (reason : string) :
  App.lastPoint app = Some last ->
  App.lastSampleTimeMs app = Some lastTime ->
  truthy (Some lastTime) = true ->
  sampleReason last lastTime loc = Some reason ->
  let after := onLocation preset loc app in
  App.fareRuntimeRef after = App.fareRuntimeRef app
  /\ App.fareYen after = App.fareYen app
  /\ App.distanceKm after = App.distanceKm app
  /\ App.acceptedSamples after = App.acceptedSamples app
  /\ App.filteredSamples after = (App.filteredSamples app + 1)%float
  /\ App.speedKmh after = None
  /\ App.billingMode after = unknown
  /\ App.lastPoint after
     = Some {| latitude := coordsLatitude loc; longitude := coordsLongitude loc |}
  /\ App.lastSampleTimeMs after = Some (timestamp loc).
Proof.
  intros Elast Etime Etruthy Ereason after. subst after.
  unfold onLocation. rewrite Elast, Etime, Etruthy.
  unfold sampleReason, sampleDeltaKm in Ereason. rewrite Ereason.
  repeat split.
Qed.

(** X11.  Whatever the sample, the callback makes it the baseline of the
    next one, and it touches neither the session state nor the clocks of
    the session. *)
Theorem onLocation_moves_baseline
        (preset : FarePreset float) (loc : LocationObject) (app : App.t) :
  let after := onLocation preset loc app in
  App.lastPoint after
  = Some {| latitude := coordsLatitude loc; longitude := coordsLongitude loc |}
  /\ App.lastSampleTimeMs after = Some (timestamp loc)
  /\ App.sessionState after = App.sessionState app
  /\ App.startedAtMs after = App.startedAtMs app
  /\ App.elapsedAccumulatedMsRef after = App.elapsedAccumulatedMsRef app
  /\ App.runningSegmentStartMsRef after = App.runningSegmentStartMsRef app
  /\ App.sessionEventsRef after = App.sessionEventsRef app.
Proof.
  intros after. subst after. unfold onLocation.
  destruct (App.lastPoint app) as [last|]; [|repeat split].
  destruct (App.lastSampleTimeMs app) as [lastTime|]; [|repeat split].
  destruct (truthy (Some lastTime)); [|repeat split].
  destruct (getNoisySampleReason _ _ _ _); [repeat split|].
  destruct (App.firstAcceptedPointRef _);
    destruct (0 <? Geo.distanceKmBetween last _)%float; repeat split.
Qed.

End LocationCallback.

(** A baseline at 35 N 139 E taken at 1 s, a sample 0.001 degrees to the
    north ten seconds later, and one a whole degree to the north. *)
Lemma onLocation_fare_never_decreases_witness :
  let app := App.set_lastSampleTimeMs (Some 1000%float)
               (App.set_lastPoint (Some {| latitude := 35; longitude := 139 |})
                  App.initial) in
  let loc := {| coordsLatitude := 35.001; coordsLongitude := 139;
                coordsSpeed := Some 10%float; coordsAccuracy := Some 10%float;
                timestamp := 11000 |} in
  let after := @onLocation HostModel.host tokyo loc app in
  (fareYen (App.fareRuntimeRef app) <=? fareYen (App.fareRuntimeRef after))%float = true
  /\ (0 <? fareYen (App.fareRuntimeRef after))%float = true
  /\ (App.fareYen app = fareYen (App.fareRuntimeRef app) ->
      App.fareYen after = fareYen (App.fareRuntimeRef after)).
Proof.
  intros app loc.
  apply (@onLocation_fare_never_decreases HostModel.host tokyo loc app); reflexivity.
Defined.

Lemma onLocation_base_distance_witness :
  let app := App.set_lastSampleTimeMs (Some 1000%float)
               (App.set_lastPoint (Some {| latitude := 35; longitude := 139 |})
                  App.initial) in
  let loc := {| coordsLatitude := 35.001; coordsLongitude := 139;
                coordsSpeed := Some 10%float; coordsAccuracy := Some 10%float;
                timestamp := 11000 |} in
  let after := @onLocation HostModel.host tokyo loc app in
  (baseDistanceRemainingKm (App.fareRuntimeRef after)
   <=? baseDistanceRemainingKm (App.fareRuntimeRef app))%float = true
  /\ (0 <=? baseDistanceRemainingKm (App.fareRuntimeRef after))%float = true.
Proof.
  intros app loc.
  apply (@onLocation_base_distance HostModel.host tokyo loc app); reflexivity.
Defined.

Lemma onLocation_distance_never_decreases_witness :
  let app := App.set_lastSampleTimeMs (Some 1000%float)
               (App.set_lastPoint (Some {| latitude := 35; longitude := 139 |})
                  App.initial) in
  let loc := {| coordsLatitude := 35.001; coordsLongitude := 139;
                coordsSpeed := Some 10%float; coordsAccuracy := Some 10%float;
                timestamp := 11000 |} in
  let after := @onLocation HostModel.host tokyo loc app in
  (App.distanceKm app <=? App.distanceKm after)%float = true
  /\ (0 <=? App.distanceKm after)%float = true.
Proof.
  intros app loc.
  apply (@onLocation_distance_never_decreases HostModel.host tokyo loc app); reflexivity.
Defined.

Lemma onLocation_rejected_sample_witness :
  let app := App.set_lastSampleTimeMs (Some 1000%float)
               (App.set_lastPoint (Some {| latitude := 35; longitude := 139 |})
                  App.initial) in
  let loc := {| coordsLatitude := 36; coordsLongitude := 139;
                coordsSpeed := None; coordsAccuracy := None;
                timestamp := 11000 |} in
  let after := @onLocation HostModel.host tokyo loc app in
  App.fareRuntimeRef after = App.fareRuntimeRef app
  /\ App.fareYen after = App.fareYen app
  /\ App.distanceKm after = App.distanceKm app
  /\ App.acceptedSamples after = App.acceptedSamples app
  /\ App.filteredSamples after = (App.filteredSamples app + 1)%float
  /\ App.speedKmh after = None
  /\ App.billingMode after = unknown
  /\ App.lastPoint after
     = Some {| latitude := coordsLatitude loc; longitude := coordsLongitude loc |}
  /\ App.lastSampleTimeMs after = Some (timestamp loc).
Proof.
  intros app loc.
  apply (@onLocation_rejected_sample HostModel.host tokyo loc app
           {| latitude := 35; longitude := 139 |} 1000%float "speed_spike");
    reflexivity.
Defined.

(** ** App.tsx: the session handlers *)

Section SessionHandlers.

Context `{Host}.

(** What a handler leaves in the cells the statements below read. *)
Lemma persistSessionSnapshot_cells (rendered : App.t) (state : SnapshotState)
      (nowMs : float) (app : App.t) (fs : FileSystem) :
  let after := fst (persistSessionSnapshot rendered state nowMs app fs) in
  App.sessionState after = App.sessionState app
  /\ App.watching after = App.watching app
  /\ App.ticking after = App.ticking app
  /\ App.pauseStartedAtRef after = App.pauseStartedAtRef app
  /\ App.pauseLogsRef after = App.pauseLogsRef app
  /\ App.elapsedAccumulatedMsRef after = App.elapsedAccumulatedMsRef app
  /\ App.runningSegmentStartMsRef after = App.runningSegmentStartMsRef app
  /\ App.sessionEventsRef after = App.sessionEventsRef app
  /\ App.startedAtMs after = App.startedAtMs app
  /\ App.fareYen after = App.fareYen app
  /\ App.distanceKm after = App.distanceKm app
  /\ App.fareRuntimeRef after = App.fareRuntimeRef app
  /\ App.lastPoint after = App.lastPoint app
  /\ App.lastSampleTimeMs after = App.lastSampleTimeMs app.
Proof.
  unfold persistSessionSnapshot.
  destruct (buildSessionSnapshot rendered app state nowMs); cbn [fst]; repeat split.
Qed.

Lemma finalizeRunningSegment_open (nowMs : float) (app : App.t) (startMs : float) :
  App.runningSegmentStartMsRef app = Some startMs ->
  truthy (Some startMs) = true ->
  App.elapsedAccumulatedMsRef (finalizeRunningSegment nowMs app)
  = (App.elapsedAccumulatedMsRef app + Binary64.max 0 (nowMs - startMs))%float.
Proof.
  intros Eref Etruthy. unfold finalizeRunningSegment. rewrite Eref, Etruthy. reflexivity.
Qed.

Lemma finalizeRunningSegment_frame (nowMs : float) (app : App.t) :
  App.pauseLogsRef (finalizeRunningSegment nowMs app) = App.pauseLogsRef app
  /\ App.sessionEventsRef (finalizeRunningSegment nowMs app) = App.sessionEventsRef app.
Proof.
  unfold finalizeRunningSegment.
  destruct (App.runningSegmentStartMsRef app) as [startMs|]; [|split; reflexivity].
  destruct (truthy (Some startMs)); split; reflexivity.
Qed.

Lemma enterPausedState_cells (nowMs savedAtMs_ : float) (rendered : App.t)
      (fs : FileSystem) :
  let after := fst (enterPausedState nowMs savedAtMs_ rendered fs) in
  App.sessionState after = paused
  /\ App.watching after = false
  /\ App.ticking after = false
  /\ App.pauseStartedAtRef after = Some nowMs
  /\ App.pauseLogsRef after = App.pauseLogsRef rendered
  /\ App.elapsedAccumulatedMsRef after
     = App.elapsedAccumulatedMsRef (finalizeRunningSegment nowMs rendered).
Proof.
  intros after. subst after. unfold enterPausedState.
  match goal with
  | |- context [persistSessionSnapshot ?r ?s ?n ?a ?f] =>
      destruct (persistSessionSnapshot_cells r s n a f)
        as (P1 & P2 & P3 & P4 & P5 & P6 & _)
  end.
  rewrite P1, P2, P3, P4, P5, P6. clear P1 P2 P3 P4 P5 P6.
  destruct (finalizeRunningSegment_frame nowMs rendered) as [L _].
  unfold addSessionEvent, stopSession, stopElapsedTimer, stopLocationWatch.
  generalize dependent (finalizeRunningSegment nowMs rendered). intros finalized L.
  cbn. rewrite L. repeat split.
Qed.

Lemma resumeSession_cells (nowMs savedAtMs_ : float) (rendered : App.t)
      (fs : FileSystem) (pausedAt : float) :
  App.sessionState rendered = paused ->
  App.pauseStartedAtRef rendered = Some pausedAt ->
  truthy (Some pausedAt) = true ->
  let after := fst (resumeSession nowMs savedAtMs_ rendered fs) in
  App.sessionState after = running
  /\ App.elapsedAccumulatedMsRef after = App.elapsedAccumulatedMsRef rendered
  /\ App.runningSegmentStartMsRef after = Some nowMs
  /\ App.pauseLogsRef after
     = App.pauseLogsRef rendered
       ++ [{| pausedAtMs := pausedAt; resumedAtMs := nowMs;
              durationMs := (nowMs - pausedAt)%float |}].
Proof.
  intros Estate Epause Etruthy after. subst after. unfold resumeSession. rewrite Estate.
  match goal with
  | |- context [persistSessionSnapshot ?r ?s ?n ?a ?f] =>
      destruct (persistSessionSnapshot_cells r s n a f)
        as (P1 & _ & _ & _ & P5 & P6 & P7 & _)
  end.
  rewrite P1, P5, P6, P7.
  unfold closePause. rewrite Epause, Etruthy.
  repeat split.
Qed.

(** X12.  Closing the running segment never lowers the accumulated time,
    also when the clock has gone backwards, and leaves no segment open. *)
Theorem finalizeRunningSegment_never_lowers_elapsed (nowMs : float) (app : App.t) :
  PrimFloat.is_finite nowMs = true ->
  (forall startMs, App.runningSegmentStartMsRef app = Some startMs ->
                   PrimFloat.is_finite startMs = true) ->
  (0 <=? App.elapsedAccumulatedMsRef app)%float = true ->
  let after := finalizeRunningSegment nowMs app in
  (App.elapsedAccumulatedMsRef app <=? App.elapsedAccumulatedMsRef after)%float = true
  /\ (0 <=? App.elapsedAccumulatedMsRef after)%float = true
  /\ truthy (App.runningSegmentStartMsRef after) = false.
Proof.
  intros Hnow Hstart Hacc after. subst after. unfold finalizeRunningSegment.
  assert (Hsame : (App.elapsedAccumulatedMsRef app <=? App.elapsedAccumulatedMsRef app)%float
                  = true)
    by (apply Binary64Facts.leb_refl_nonneg, Hacc).
  destruct (App.runningSegmentStartMsRef app) as [startMs|] eqn:Eref.
  - destruct (truthy (Some startMs)) eqn:Etruthy.
    + cbn [App.elapsedAccumulatedMsRef App.runningSegmentStartMsRef
             App.set_elapsedMs App.set_runningSegmentStartMsRef
             App.set_elapsedAccumulatedMsRef truthy].
      assert (Hmax : (0 <=? Binary64.max 0 (nowMs - startMs))%float = true).
      { apply Binary64Facts.max_ge_left; [reflexivity|].
        apply Binary64Facts.sub_finite_not_nan; [exact Hnow|].
        apply Hstart. reflexivity. }
      destruct (Binary64Facts.add_nonneg _ _ Hacc Hmax) as [Hle Hge].
      repeat split; assumption.
    + rewrite Eref, Etruthy. repeat split; assumption.
  - rewrite Eref. repeat split; assumption.
Qed.

Lemma finalizeRunningSegment_never_lowers_elapsed_witness :
  let app := App.set_runningSegmentStartMsRef (Some 9000%float)
               (App.set_elapsedAccumulatedMsRef 60000%float App.initial) in
  let after := finalizeRunningSegment 4000%float app in
  (App.elapsedAccumulatedMsRef app <=? App.elapsedAccumulatedMsRef after)%float = true
  /\ (0 <=? App.elapsedAccumulatedMsRef after)%float = true
  /\ truthy (App.runningSegmentStartMsRef after) = false.
Proof.
  refine (finalizeRunningSegment_never_lowers_elapsed 4000%float
            (App.set_runningSegmentStartMsRef (Some 9000%float)
               (App.set_elapsedAccumulatedMsRef 60000%float App.initial))
            eq_refl _ eq_refl).
  intros startMs Hstart. injection Hstart as <-. reflexivity.
Defined.

(** X13.  Pause, resume, pause: the time spent paused is not counted.
    The resume leaves the accumulated time as the first pause left it, and
    the second pause adds the time run since the resume, whenever the
    pauses happen.  The session ends up paused with the watch and the
    timer stopped, and the pause is logged once. *)
Theorem pause_resume_pause_elapsed
        (pausedAt resumedAt pausedAgainAt saved1 saved2 saved3 : float)
        (rendered : App.t) (fs : FileSystem) :
  truthy (Some pausedAt) = true ->
  truthy (Some resumedAt) = true ->
  let first := enterPausedState pausedAt saved1 rendered fs in
  let second := resumeSession resumedAt saved2 (fst first) (snd first) in
  let third := enterPausedState pausedAgainAt saved3 (fst second) (snd second) in
  App.elapsedAccumulatedMsRef (fst second) = App.elapsedAccumulatedMsRef (fst first)
  /\ App.elapsedAccumulatedMsRef (fst third)
     = (App.elapsedAccumulatedMsRef (fst first)
        + Binary64.max 0 (pausedAgainAt - resumedAt))%float
  /\ App.sessionState (fst second) = running
  /\ App.sessionState (fst third) = paused
  /\ App.watching (fst third) = false
  /\ App.ticking (fst third) = false
  /\ App.pauseLogsRef (fst third)
     = App.pauseLogsRef rendered
       ++ [{| pausedAtMs := pausedAt; resumedAtMs := resumedAt;
              durationMs := (resumedAt - pausedAt)%float |}].
Proof.
  intros Hpaused Hresumed first second third.
  destruct (enterPausedState_cells pausedAt saved1 rendered fs)
    as (F1 & F2 & F3 & F4 & F5 & F6).
  fold first in F1, F2, F3, F4, F5, F6.
  destruct (resumeSession_cells resumedAt saved2 (fst first) (snd first) pausedAt F1 F4 Hpaused)
    as (S1 & S2 & S3 & S4).
  fold second in S1, S2, S3, S4.
  destruct (enterPausedState_cells pausedAgainAt saved3 (fst second) (snd second))
    as (T1 & T2 & T3 & _ & T5 & T6).
  fold third in T1, T2, T3, T5, T6.
  rewrite T6, (finalizeRunningSegment_open pausedAgainAt (fst second) resumedAt S3 Hresumed).
  rewrite T5, S4, S2, F5.
  repeat split; assumption.
Qed.

End SessionHandlers.

Lemma pause_resume_pause_elapsed_witness :
  let rendered := App.set_runningSegmentStartMsRef (Some 1000%float)
                    (App.set_startedAtMs (Some 1000%float)
                       (App.set_sessionState running App.initial)) in
  let first := @enterPausedState HostModel.host 61000 61000 rendered ∅ in
  let second := @resumeSession HostModel.host 900000 900000 (fst first) (snd first) in
  let third := @enterPausedState HostModel.host 930000 930000 (fst second) (snd second) in
  App.elapsedAccumulatedMsRef (fst second) = App.elapsedAccumulatedMsRef (fst first)
  /\ App.elapsedAccumulatedMsRef (fst third)
     = (App.elapsedAccumulatedMsRef (fst first) + Binary64.max 0 (930000 - 900000))%float
  /\ App.sessionState (fst second) = running
  /\ App.sessionState (fst third) = paused
  /\ App.watching (fst third) = false
  /\ App.ticking (fst third) = false
  /\ App.pauseLogsRef (fst third)
     = App.pauseLogsRef rendered
       ++ [{| pausedAtMs := 61000; resumedAtMs := 900000;
              durationMs := (900000 - 61000)%float |}].
Proof.
  intros rendered.
  apply (@pause_resume_pause_elapsed HostModel.host
           61000%float 900000%float 930000%float 61000%float 900000%float 930000%float
           rendered ∅); reflexivity.
Defined.

Section SessionLifecycle.

Context `{Host}.

Lemma documentPath_inj (name1 name2 : string) :
  documentPath name1 = documentPath name2 -> name1 = name2.
Proof.
  unfold documentPath. destruct documentDirectory as [dir|]; [|trivial].
  induction dir as [|c dir IH]; cbn [String.append]; [trivial|].
  intros Heq. injection Heq as Heq. exact (IH Heq).
Qed.

Lemma HISTORY_FILE_neq_SESSION_SNAPSHOT_FILE : HISTORY_FILE <> SESSION_SNAPSHOT_FILE.
Proof.
  intros Heq. apply documentPath_inj in Heq. discriminate Heq.
Qed.

Lemma writeAsStringAsync_lookup (fs : FileSystem) (uri contents : string) :
  writeAsStringAsync fs uri contents !! uri = Some contents.
Proof. unfold writeAsStringAsync. apply lookup_insert_eq. Qed.

Lemma writeAsStringAsync_lookup_ne (fs : FileSystem) (uri other contents : string) :
  uri <> other -> writeAsStringAsync fs uri contents !! other = fs !! other.
Proof. intros Hne. unfold writeAsStringAsync. apply lookup_insert_ne, Hne. Qed.

(** X14.  Choosing a preset while idle resets the meter to that preset:
    the fare shown is its base fare and the runtime is a fresh one.  An id
    that is not configured is stored as it is, and the meter runs on the
    default preset. *)
Theorem handlePresetChange_in_idle (nextPresetId : string) (rendered : App.t) :
  App.sessionState rendered = idle ->
  let after := handlePresetChange nextPresetId rendered in
  App.selectedPresetId after = nextPresetId
  /\ App.selectedPreset after = getPresetById nextPresetId
  /\ App.fareYen after = baseFareYen (App.selectedPreset after)
  /\ App.fareRuntimeRef after = createFareRuntime (App.selectedPreset after)
  /\ App.distanceKm after = 0%float
  /\ App.sessionState after = idle.
Proof.
  intros Eidle after. subst after.
  unfold handlePresetChange, canChangePreset. rewrite Eidle. cbn [negb].
  unfold App.selectedPreset, resetMeter. cbn.
  repeat split. exact Eidle.
Qed.


Lemma closePause_frame (atMs_ : float) (app : App.t) :
  App.historyItems (closePause atMs_ app) = App.historyItems app
  /\ App.elapsedAccumulatedMsRef (closePause atMs_ app) = App.elapsedAccumulatedMsRef app
  /\ App.sessionEventsRef (closePause atMs_ app) = App.sessionEventsRef app
  /\ App.sessionState (closePause atMs_ app) = App.sessionState app
  /\ App.startedAtMs (closePause atMs_ app) = App.startedAtMs app
  /\ App.fareYen (closePause atMs_ app) = App.fareYen app
  /\ App.distanceKm (closePause atMs_ app) = App.distanceKm app
  /\ App.fareRuntimeRef (closePause atMs_ app) = App.fareRuntimeRef app
  /\ App.watching (closePause atMs_ app) = App.watching app
  /\ App.ticking (closePause atMs_ app) = App.ticking app.
Proof.
  unfold closePause. destruct (App.pauseStartedAtRef app) as [pausedAt|];
    [destruct (truthy (Some pausedAt))|]; repeat split.
Qed.

(** X16.  When the writes it awaits resolve, finishing ends idle on a
    fresh meter of the selected preset, with the watch and the timer
    stopped and the snapshot file emptied; the list of records shown keeps
    to 100 entries.  The write of the history is awaited only if a record
    is built. *)
Theorem finishSession_resets
        (appendOutcome : WriteOutcome) (finishedAtMs_ : float) (rendered : App.t)
        (fs : FileSystem) :
  appendOutcome = writeResolves \/ finishedRecord finishedAtMs_ rendered = None ->
  let result := finishSession appendOutcome writeResolves finishedAtMs_ rendered fs in
  let after := fst result in
  App.sessionState after = idle
  /\ App.watching after = false
  /\ App.ticking after = false
  /\ App.startedAtMs after = None
  /\ App.fareYen after = baseFareYen (App.selectedPreset rendered)
  /\ App.fareRuntimeRef after = createFareRuntime (App.selectedPreset rendered)
  /\ App.sessionEventsRef after = []
  /\ App.pauseLogsRef after = []
  /\ App.pauseStartedAtRef after = None
  /\ snd result !! SESSION_SNAPSHOT_FILE = Some ""%string
  /\ (length (App.historyItems after)
      <= Nat.max 100 (length (App.historyItems rendered)))%nat.
Proof.
  intros Hwrites result after. subst after result. unfold finishSession.
  destruct (closePause_frame finishedAtMs_ rendered) as (Hitems & _).
  destruct (finishedRecord finishedAtMs_ rendered) as [record|];
    [destruct Hwrites as [->|Hnone]; [|discriminate Hnone]|];
    unfold finishSessionReset; cbn [fst snd];
    unfold clearSessionSnapshot; rewrite writeAsStringAsync_lookup;
    unfold resetMeter, stopSession, stopElapsedTimer, stopLocationWatch, addSessionEvent;
    cbn -[firstn Nat.max closePause];
    repeat split.
  - pose proof (firstn_le_length 100
                  (record :: App.historyItems (closePause finishedAtMs_ rendered))).
    lia.
  - rewrite Hitems. lia.
Qed.

(** X17.  Finishing a session that has a start time builds a record.
    Once the write of the history has resolved the record is at the head
    of the list shown, cut at 100 entries, whatever becomes of the write
    that clears the snapshot; when both writes have resolved the history
    file holds the array with the record at its head, cut at 100 entries.
    The record carries the accumulated time, the fare and the distance of
    the render, and the events with [finish] at the end. *)
Theorem finishSession_records
        (finishedAtMs_ started : float) (rendered : App.t) (fs : FileSystem) :
  App.startedAtMs rendered = Some started ->
  truthy (Some started) = true ->
  exists record,
    finishedRecord finishedAtMs_ rendered = Some record
    /\ (forall clearOutcome,
          App.historyItems
            (fst (finishSession writeResolves clearOutcome finishedAtMs_ rendered fs))
          = firstn 100 (record :: App.historyItems rendered))
    /\ snd (finishSession writeResolves writeResolves finishedAtMs_ rendered fs)
       !! HISTORY_FILE
       = Some (JSON_stringify
                 (JArray (firstn 100 (ToJson.driveHistoryItem record
                                        :: loadDriveHistory fs))))
    /\ DriveHistoryItem.startedAtMs record = started
    /\ DriveHistoryItem.finishedAtMs record = finishedAtMs_
    /\ DriveHistoryItem.elapsedMs record = App.elapsedAccumulatedMsRef rendered
    /\ DriveHistoryItem.fareYen record = App.fareYen rendered
    /\ DriveHistoryItem.distanceKm record = App.distanceKm rendered
    /\ DriveHistoryItem.events record
       = App.sessionEventsRef rendered ++ [{| atMs := finishedAtMs_; type := finish |}].
Proof.
  intros Estart Etruthy.
  destruct (closePause_frame finishedAtMs_ rendered) as (Hitems & Helapsed & Hevents & _).
  unfold finishSession, finishedRecord. rewrite Estart, Etruthy.
  eexists. split; [reflexivity|].
  split; [|split].
  - intros clearOutcome. unfold finishSessionReset.
    destruct clearOutcome as [|remains]; cbn [fst];
      unfold resetMeter, stopSession, stopElapsedTimer, stopLocationWatch, addSessionEvent;
      cbn -[firstn closePause buildHistoryRecord]; rewrite Hitems; reflexivity.
  - unfold finishSessionReset. cbn [snd]. unfold clearSessionSnapshot.
    rewrite writeAsStringAsync_lookup_ne
      by (intros Heq; symmetry in Heq; exact (HISTORY_FILE_neq_SESSION_SNAPSHOT_FILE Heq)).
    unfold appendDriveHistory. rewrite writeAsStringAsync_lookup.
    reflexivity.
  - unfold buildHistoryRecord, addSessionEvent.
    cbn -[closePause historyId runtimeProperty].
    rewrite Helapsed, Hevents. repeat split.
Qed.

(** X26.  A rejected write leaves the handler where it is: the files are
    what the failed write has left, the session keeps the state, the start
    time, the fare, the distance, the runtime, the watch and the timer of
    the render, and the event [finish] has already been added.  If it is
    the write of the history that fails, the list of records shown is not
    changed either. *)
Theorem finishSession_rejected_write
        (appendOutcome clearOutcome : WriteOutcome) (finishedAtMs_ : float)
        (rendered : App.t) (fs remains : FileSystem) :
  (appendOutcome = writeRejects remains
   /\ finishedRecord finishedAtMs_ rendered <> None)
  \/ ((appendOutcome = writeResolves \/ finishedRecord finishedAtMs_ rendered = None)
      /\ clearOutcome = writeRejects remains) ->
  let result := finishSession appendOutcome clearOutcome finishedAtMs_ rendered fs in
  let after := fst result in
  snd result = remains
  /\ App.sessionState after = App.sessionState rendered
  /\ App.startedAtMs after = App.startedAtMs rendered
  /\ App.fareYen after = App.fareYen rendered
  /\ App.distanceKm after = App.distanceKm rendered
  /\ App.fareRuntimeRef after = App.fareRuntimeRef rendered
  /\ App.watching after = App.watching rendered
  /\ App.ticking after = App.ticking rendered
  /\ App.sessionEventsRef after
     = App.sessionEventsRef rendered ++ [{| atMs := finishedAtMs_; type := finish |}]
  /\ (appendOutcome = writeRejects remains ->
      finishedRecord finishedAtMs_ rendered <> None ->
      App.historyItems after = App.historyItems rendered).
Proof.
  intros Hrejected result after. subst after result.
  destruct (closePause_frame finishedAtMs_ rendered)
    as (Hitems & _ & Hevents & Hstate & Hstart & Hfare & Hdistance & Hruntime
        & Hwatching & Hticking).
  assert (Hfinal : forall remaining app',
             (App.sessionState app' = App.sessionState (closePause finishedAtMs_ rendered)
              /\ App.startedAtMs app' = App.startedAtMs (closePause finishedAtMs_ rendered)
              /\ App.fareYen app' = App.fareYen (closePause finishedAtMs_ rendered)
              /\ App.distanceKm app' = App.distanceKm (closePause finishedAtMs_ rendered)
              /\ App.fareRuntimeRef app'
                 = App.fareRuntimeRef (closePause finishedAtMs_ rendered)
              /\ App.watching app' = App.watching (closePause finishedAtMs_ rendered)
              /\ App.ticking app' = App.ticking (closePause finishedAtMs_ rendered)
              /\ App.sessionEventsRef app'
                 = App.sessionEventsRef (closePause finishedAtMs_ rendered)
                   ++ [{| atMs := finishedAtMs_; type := finish |}]) ->
             remaining = remains ->
             remaining = remains
             /\ App.sessionState app' = App.sessionState rendered
             /\ App.startedAtMs app' = App.startedAtMs rendered
             /\ App.fareYen app' = App.fareYen rendered
             /\ App.distanceKm app' = App.distanceKm rendered
             /\ App.fareRuntimeRef app' = App.fareRuntimeRef rendered
             /\ App.watching app' = App.watching rendered
             /\ App.ticking app' = App.ticking rendered
             /\ App.sessionEventsRef app'
                = App.sessionEventsRef rendered
                  ++ [{| atMs := finishedAtMs_; type := finish |}]).
  { intros remaining app' (A1 & A2 & A3 & A4 & A5 & A6 & A7 & A8) ->.
    rewrite A1, A2, A3, A4, A5, A6, A7, A8.
    rewrite Hevents, Hstate, Hstart, Hfare, Hdistance, Hruntime, Hwatching, Hticking.
    repeat split. }
  unfold finishSession.
  destruct (finishedRecord finishedAtMs_ rendered) as [record|] eqn:Erecord.
  - destruct Hrejected as [[-> _]|[[->|Hnone] ->]]; [| |discriminate Hnone].
    + cbn [fst snd].
      destruct (Hfinal remains
                  (addSessionEvent finish finishedAtMs_ (closePause finishedAtMs_ rendered)))
        as (R0 & R); [unfold addSessionEvent; cbn; repeat split|reflexivity|].
      repeat split; try apply R.
      intros _ _. unfold addSessionEvent. cbn. exact Hitems.
    + unfold finishSessionReset. cbn [fst snd].
      destruct (Hfinal remains
                  (App.set_historyItems
                     (firstn 100
                        (record
                         :: App.historyItems
                              (addSessionEvent finish finishedAtMs_
                                 (closePause finishedAtMs_ rendered))))
                     (addSessionEvent finish finishedAtMs_
                        (closePause finishedAtMs_ rendered))))
        as (R0 & R); [unfold addSessionEvent; cbn; repeat split|reflexivity|].
      repeat split; try apply R.
      intros Habs. discriminate Habs.
  - destruct Hrejected as [[_ Hsome]|[_ ->]]; [exfalso; apply Hsome; reflexivity|].
    unfold finishSessionReset. cbn [fst snd].
    destruct (Hfinal remains
                (addSessionEvent finish finishedAtMs_ (closePause finishedAtMs_ rendered)))
      as (R0 & R); [unfold addSessionEvent; cbn; repeat split|reflexivity|].
    repeat split; try apply R.
    intros _ Hsome. exfalso. apply Hsome. reflexivity.
Qed.

(** X18.  A snapshot built from the cells and restored into a component
    brings back the start time, the distance, the fare, the mode, the
    preset, the counters, the runtime, the end points, the pause log and
    the events.  The session restored is paused whatever state the
    snapshot names, no segment is open, and the time shown is the
    accumulated time of the snapshot. *)
Theorem snapshot_restores_session
        (app fresh : App.t) (state : SnapshotState) (nowMs savedAtMs_ : float)
        (fs : FileSystem) (snapshot : SessionSnapshot.t) :
  buildSessionSnapshot app app state nowMs = Some snapshot ->
  App.restorableSnapshot fresh = Some snapshot ->
  let after := fst (restoreFromSnapshot true savedAtMs_ fresh fs) in
  App.sessionState after = paused
  /\ App.startedAtMs after = App.startedAtMs app
  /\ App.distanceKm after = App.distanceKm app
  /\ App.fareYen after = App.fareYen app
  /\ App.billingMode after = App.billingMode app
  /\ App.selectedPresetId after = App.selectedPresetId app
  /\ App.acceptedSamples after = App.acceptedSamples app
  /\ App.filteredSamples after = App.filteredSamples app
  /\ App.fareRuntimeRef after = App.fareRuntimeRef app
  /\ App.firstAcceptedPointRef after = App.firstAcceptedPointRef app
  /\ App.lastAcceptedPointRef after = App.lastAcceptedPointRef app
  /\ App.pauseLogsRef after = App.pauseLogsRef app
  /\ App.sessionEventsRef after = App.sessionEventsRef app
  /\ App.elapsedAccumulatedMsRef after = App.elapsedAccumulatedMsRef app
  /\ App.elapsedMs after = App.elapsedAccumulatedMsRef app
  /\ App.runningSegmentStartMsRef after = None
  /\ App.speedKmh after = None
  /\ App.restorableSnapshot after = None.
Proof.
  intros Hbuild Hrestorable after. subst after.
  unfold buildSessionSnapshot in Hbuild.
  destruct (App.startedAtMs app) as [started|] eqn:Estart; [|discriminate Hbuild].
  destruct (truthy (Some started)); [|discriminate Hbuild].
  injection Hbuild as <-.
  unfold restoreFromSnapshot. rewrite Hrestorable. cbn [negb].
  match goal with
  | |- context [persistSessionSnapshot ?r ?s ?n ?a ?f] =>
      destruct (persistSessionSnapshot r s n a f) as [app' fs'] eqn:Epersist;
      assert (Happ' : app' = a
                      \/ exists saved, app' = App.set_lastSnapshotSavedAtMsRef saved a)
  end.
  { revert Epersist. unfold persistSessionSnapshot.
    destruct (buildSessionSnapshot _ _ _ _); intros [= <- _]; eauto. }
  cbn [fst].
  destruct Happ' as [->|[saved ->]];
    unfold requestLocationPermission; cbn; repeat split.
Qed.

End SessionLifecycle.

Lemma handlePresetChange_in_idle_witness :
  let after := handlePresetChange "kyoto" App.initial in
  App.selectedPresetId after = "kyoto"%string
  /\ App.selectedPreset after = getPresetById "kyoto"
  /\ App.fareYen after = baseFareYen (App.selectedPreset after)
  /\ App.fareRuntimeRef after = createFareRuntime (App.selectedPreset after)
  /\ App.distanceKm after = 0%float
  /\ App.sessionState after = idle.
Proof.
  apply (handlePresetChange_in_idle "kyoto" App.initial); reflexivity.
Defined.


Lemma finishSession_resets_witness :
  let rendered := App.set_startedAtMs (Some 1000%float)
                    (App.set_sessionState paused App.initial) in
  let result := @finishSession HostModel.host writeResolves writeResolves 362000 rendered ∅ in
  let after := fst result in
  App.sessionState after = idle
  /\ App.watching after = false
  /\ App.ticking after = false
  /\ App.startedAtMs after = None
  /\ App.fareYen after = baseFareYen (App.selectedPreset rendered)
  /\ App.fareRuntimeRef after = createFareRuntime (App.selectedPreset rendered)
  /\ App.sessionEventsRef after = []
  /\ App.pauseLogsRef after = []
  /\ App.pauseStartedAtRef after = None
  /\ snd result !! @SESSION_SNAPSHOT_FILE HostModel.host = Some ""%string
  /\ (length (App.historyItems after)
      <= Nat.max 100 (length (App.historyItems rendered)))%nat.
Proof.
  intros rendered.
  apply (@finishSession_resets HostModel.host writeResolves 362000%float rendered ∅).
  left. reflexivity.
Defined.

Lemma finishSession_records_witness :
  let rendered := App.set_elapsedAccumulatedMsRef 360000%float
                    (App.set_startedAtMs (Some 1000%float)
                       (App.set_sessionState paused App.initial)) in
  exists record,
    @finishedRecord HostModel.host 362000 rendered = Some record
    /\ (forall clearOutcome,
          App.historyItems
            (fst (@finishSession HostModel.host writeResolves clearOutcome 362000
                    rendered ∅))
          = firstn 100 (record :: App.historyItems rendered))
    /\ snd (@finishSession HostModel.host writeResolves writeResolves 362000 rendered ∅)
       !! @HISTORY_FILE HostModel.host
       = Some (@JSON_stringify HostModel.host
                 (JArray (firstn 100 (ToJson.driveHistoryItem record
                                        :: @loadDriveHistory HostModel.host ∅))))
    /\ DriveHistoryItem.startedAtMs record = 1000%float
    /\ DriveHistoryItem.finishedAtMs record = 362000%float
    /\ DriveHistoryItem.elapsedMs record = App.elapsedAccumulatedMsRef rendered
    /\ DriveHistoryItem.fareYen record = App.fareYen rendered
    /\ DriveHistoryItem.distanceKm record = App.distanceKm rendered
    /\ DriveHistoryItem.events record
       = App.sessionEventsRef rendered ++ [{| atMs := 362000; type := finish |}].
Proof.
  intros rendered.
  apply (@finishSession_records HostModel.host 362000%float 1000%float rendered ∅);
    reflexivity.
Defined.

(** The write of the history is refused and leaves an empty directory. *)
Lemma finishSession_rejected_write_witness :
  let rendered := App.set_startedAtMs (Some 1000%float)
                    (App.set_sessionState paused App.initial) in
  let stored : FileSystem := <[ @SESSION_SNAPSHOT_FILE HostModel.host := "{}"%string ]> ∅ in
  let result := @finishSession HostModel.host (writeRejects ∅) writeResolves 362000
                  rendered stored in
  let after := fst result in
  snd result = ∅
  /\ App.sessionState after = App.sessionState rendered
  /\ App.startedAtMs after = App.startedAtMs rendered
  /\ App.fareYen after = App.fareYen rendered
  /\ App.distanceKm after = App.distanceKm rendered
  /\ App.fareRuntimeRef after = App.fareRuntimeRef rendered
  /\ App.watching after = App.watching rendered
  /\ App.ticking after = App.ticking rendered
  /\ App.sessionEventsRef after
     = App.sessionEventsRef rendered ++ [{| atMs := 362000; type := finish |}]
  /\ (writeRejects ∅ = writeRejects ∅ ->
      @finishedRecord HostModel.host 362000 rendered <> None ->
      App.historyItems after = App.historyItems rendered).
Proof.
  intros rendered stored.
  apply (@finishSession_rejected_write HostModel.host (writeRejects ∅) writeResolves
           362000%float rendered stored ∅).
  left. split; [reflexivity|discriminate].
Defined.

Lemma snapshot_restores_session_witness :
  let app := App.set_fareYen 700%float
               (App.set_startedAtMs (Some 1000%float)
                  (App.set_sessionState running App.initial)) in
  exists snapshot,
    buildSessionSnapshot app app snapshotRunning 5000 = Some snapshot
    /\ let after :=
         fst (@restoreFromSnapshot HostModel.host true 6000
                (App.set_restorableSnapshot (Some snapshot) App.initial) ∅) in
       App.sessionState after = paused
       /\ App.startedAtMs after = App.startedAtMs app
       /\ App.distanceKm after = App.distanceKm app
       /\ App.fareYen after = App.fareYen app
       /\ App.billingMode after = App.billingMode app
       /\ App.selectedPresetId after = App.selectedPresetId app
       /\ App.acceptedSamples after = App.acceptedSamples app
       /\ App.filteredSamples after = App.filteredSamples app
       /\ App.fareRuntimeRef after = App.fareRuntimeRef app
       /\ App.firstAcceptedPointRef after = App.firstAcceptedPointRef app
       /\ App.lastAcceptedPointRef after = App.lastAcceptedPointRef app
       /\ App.pauseLogsRef after = App.pauseLogsRef app
       /\ App.sessionEventsRef after = App.sessionEventsRef app
       /\ App.elapsedAccumulatedMsRef after = App.elapsedAccumulatedMsRef app
       /\ App.elapsedMs after = App.elapsedAccumulatedMsRef app
       /\ App.runningSegmentStartMsRef after = None
       /\ App.speedKmh after = None
       /\ App.restorableSnapshot after = None.
Proof.
  intros app. eexists. split; [reflexivity|].
  eapply (@snapshot_restores_session HostModel.host app
            (App.set_restorableSnapshot (Some _) App.initial)
            snapshotRunning 5000%float 6000%float ∅); reflexivity.
Defined.

(** ** history.ts *)

Section HistoryFiles.

Context `{Host}.

Lemma loadDriveHistory_of_text (fs : FileSystem) (raw : string) (items : list json) :
  fs !! HISTORY_FILE = Some raw ->
  JSON_parse raw = Some (JArray items) ->
  loadDriveHistory fs = items.
Proof.
  intros Hraw Hparse. unfold loadDriveHistory, getInfoAsync, readAsStringAsync.
  rewrite Hraw, Hparse. rewrite bool_decide_true by eauto. reflexivity.
Qed.

(** X19.  After an append, a load returns the new item followed by what
    a load returned before, cut at 100 items; whatever the file held
    before (nothing, or a text that is no JSON array), the new item is
    there.  The host has to read back the array it has written. *)
Theorem appendDriveHistory_then_load (fs : FileSystem) (item : DriveHistoryItem.t) :
  let next := firstn MAX_HISTORY_ITEMS (ToJson.driveHistoryItem item :: loadDriveHistory fs) in
  JSON_parse (JSON_stringify (JArray next)) = Some (JArray next) ->
  loadDriveHistory (appendDriveHistory fs item) = next
  /\ hd_error (loadDriveHistory (appendDriveHistory fs item))
     = Some (ToJson.driveHistoryItem item)
  /\ (length (loadDriveHistory (appendDriveHistory fs item)) <= 100)%nat.
Proof.
  intros next Hround.
  assert (Hload : loadDriveHistory (appendDriveHistory fs item) = next).
  { apply (loadDriveHistory_of_text _ (JSON_stringify (JArray next))); [|exact Hround].
    unfold appendDriveHistory. apply writeAsStringAsync_lookup. }
  rewrite Hload. split; [reflexivity|]. split; [reflexivity|].
  subst next. apply firstn_le_length.
Qed.

(** X20.  A snapshot saved is the snapshot loaded, if the host reads back
    the object it has written. *)
Theorem saveSessionSnapshot_then_load (fs : FileSystem) (snapshot : SessionSnapshot.t) :
  JSON_parse (JSON_stringify (ToJson.sessionSnapshot snapshot))
  = Some (ToJson.sessionSnapshot snapshot) ->
  loadSessionSnapshot (saveSessionSnapshot fs snapshot)
  = Some (ToJson.sessionSnapshot snapshot).
Proof.
  intros Hround. unfold loadSessionSnapshot, getInfoAsync, readAsStringAsync,
    saveSessionSnapshot.
  rewrite writeAsStringAsync_lookup, Hround. rewrite bool_decide_true by eauto.
  reflexivity.
Qed.

(** X21.  The two files are different files: writing the history does not
    change the snapshot that is loaded, and saving or clearing the
    snapshot does not change the history that is loaded. *)
Theorem history_and_snapshot_files_apart
        (fs : FileSystem) (item : DriveHistoryItem.t) (snapshot : SessionSnapshot.t) :
  loadSessionSnapshot (appendDriveHistory fs item) = loadSessionSnapshot fs
  /\ loadDriveHistory (saveSessionSnapshot fs snapshot) = loadDriveHistory fs
  /\ loadDriveHistory (clearSessionSnapshot fs) = loadDriveHistory fs.
Proof.
  pose proof HISTORY_FILE_neq_SESSION_SNAPSHOT_FILE as Hne.
  assert (Hne' : SESSION_SNAPSHOT_FILE <> HISTORY_FILE) by (intros Heq; exact (Hne (eq_sym Heq))).
  unfold loadSessionSnapshot, loadDriveHistory, getInfoAsync, readAsStringAsync,
    appendDriveHistory, saveSessionSnapshot, clearSessionSnapshot.
  rewrite !writeAsStringAsync_lookup_ne by assumption.
  repeat split.
Qed.

End HistoryFiles.

Lemma appendDriveHistory_then_load_witness :
  let item :=
    {| DriveHistoryItem.id := "1000-362000";
       DriveHistoryItem.createdAtMs := 362000;
       DriveHistoryItem.startedAtMs := 1000;
       DriveHistoryItem.finishedAtMs := 362000;
       DriveHistoryItem.elapsedMs := 360000;
       DriveHistoryItem.distanceKm := 3;
       DriveHistoryItem.fareYen := 1200;
       DriveHistoryItem.presetId := "tokyo";
       DriveHistoryItem.from := None;
       DriveHistoryItem.to := Some {| latitude := 35; longitude := 139 |};
       DriveHistoryItem.acceptedSamples := 1;
       DriveHistoryItem.filteredSamples := 0;
       DriveHistoryItem.distanceChargeSteps := None;
       DriveHistoryItem.timeChargeSteps := None;
       DriveHistoryItem.pauseLogs :=
         [{| pausedAtMs := 361000; resumedAtMs := 362000; durationMs := 1000 |}];
       DriveHistoryItem.events :=
         [{| atMs := 1000; type := start |}; {| atMs := 362000; type := finish |}] |} in
  let stored : FileSystem := <[ @HISTORY_FILE HostModel.host := "not json"%string ]> ∅ in
  let loaded := @loadDriveHistory HostModel.host
                  (@appendDriveHistory HostModel.host stored item) in
  loaded = firstn MAX_HISTORY_ITEMS
             (ToJson.driveHistoryItem item :: @loadDriveHistory HostModel.host stored)
  /\ hd_error loaded = Some (ToJson.driveHistoryItem item)
  /\ (length loaded <= 100)%nat.
Proof.
  intros item stored.
  apply (@appendDriveHistory_then_load HostModel.host stored item).
  vm_compute. reflexivity.
Defined.

Lemma saveSessionSnapshot_then_load_witness :
  let snapshot :=
    {| SessionSnapshot.savedAtMs := 5000;
       SessionSnapshot.sessionState := snapshotRunning;
       SessionSnapshot.startedAtMs := 1000;
       SessionSnapshot.elapsedMs := 0;
       SessionSnapshot.distanceKm := 0;
       SessionSnapshot.fareYen := 500;
       SessionSnapshot.billingMode := unknown;
       SessionSnapshot.selectedPresetId := "tokyo";
       SessionSnapshot.acceptedSamples := 0;
       SessionSnapshot.filteredSamples := 0;
       SessionSnapshot.fareRuntime := createFareRuntime tokyo;
       SessionSnapshot.from := None;
       SessionSnapshot.to := None;
       SessionSnapshot.pauseLogs := [];
       SessionSnapshot.events := [{| atMs := 1000; type := start |}] |} in
  @loadSessionSnapshot HostModel.host (@saveSessionSnapshot HostModel.host ∅ snapshot)
  = Some (ToJson.sessionSnapshot snapshot).
Proof.
  intros snapshot.
  apply (@saveSessionSnapshot_then_load HostModel.host ∅ snapshot).
  vm_compute. reflexivity.
Defined.

(** ** fare.ts in exact arithmetic: nothing is lost *)

Section ConservationExact.

Import ExactFacts.
Local Open Scope Qc_scope.

Implicit Types (preset : FarePreset Qc) (runtime : FareRuntime Qc) (seg : Segment Qc).

Lemma validSegment_not_rejected_exact seg :
  validSegment seg = true -> rejectedSegment seg = false.
Proof.
  unfold validSegment, rejectedSegment. cbn [isFinite nltb nleb nzero exact andb negb orb].
  intros Hpos. apply ltb_spec in Hpos. apply leb_false. exact Hpos.
Qed.

Lemma positive_neq_0 (a : Qc) : 0 < a -> a <> 0.
Proof. intros Ha H0. rewrite H0 in Ha. discriminate Ha. Qed.

(** X22.  Over exact arithmetic a low-speed segment loses no time: the
    seconds of the segment are in the new remainder or have been charged,
    one step fare for each full step.  The distance side of the runtime is
    not touched. *)
Theorem lowSpeed_conserves_time_exact preset runtime seg :
  presetInvariant preset = true ->
  validSegment seg = true ->
  inLowSpeedMode preset seg = true ->
  let after := updateFareBySegment preset runtime seg in
  lowSpeedRemainderSeconds after
  + (fareYen after - fareYen runtime) / lowSpeedStepFareYen preset
    * lowSpeedStepSeconds preset
  = lowSpeedRemainderSeconds runtime + deltaSeconds seg
  /\ baseDistanceRemainingKm after = baseDistanceRemainingKm runtime
  /\ distanceRemainderKm after = distanceRemainderKm runtime.
Proof.
  intros Hp Hv Hlow after. subst after.
  destruct (presetInvariant_exact preset Hp) as (_ & _ & _ & _ & _ & _ & Hfare).
  apply positive_neq_0 in Hfare.
  unfold updateFareBySegment. rewrite (validSegment_not_rejected_exact seg Hv), Hlow.
  unfold chargeLowSpeed, timeSteps.
  cbn [nadd nsub nmul ndiv nltb nzero Math_floor exact].
  destruct (Exact.ltb 0 (Exact.floor _));
    cbn [baseDistanceRemainingKm distanceRemainderKm lowSpeedRemainderSeconds fareYen];
    (split; [field; exact Hfare|split; reflexivity]).
Qed.

(** X23.  Over exact arithmetic a fast segment of a distance that is not
    negative loses no distance: what it takes from the base distance,
    what it adds to the remainder and what it charges, one step fare for
    each full step, add up to the distance of the segment.  The time side
    of the runtime is not touched. *)
Theorem distance_conserved_exact preset runtime seg :
  presetInvariant preset = true ->
  validSegment seg = true ->
  nonNegativeDistance seg = true ->
  inLowSpeedMode preset seg = false ->
  let after := updateFareBySegment preset runtime seg in
  (baseDistanceRemainingKm runtime - baseDistanceRemainingKm after)
  + (distanceRemainderKm after - distanceRemainderKm runtime)
  + (fareYen after - fareYen runtime) / distanceStepFareYen preset * distanceStepKm preset
  = deltaDistanceKm seg
  /\ lowSpeedRemainderSeconds after = lowSpeedRemainderSeconds runtime.
Proof.
  intros Hp Hv Hd Hfast after. subst after.
  destruct (presetInvariant_exact preset Hp) as (_ & _ & _ & Hfare & _).
  apply positive_neq_0 in Hfare.
  unfold nonNegativeDistance in Hd. cbn [nleb nzero exact] in Hd. apply leb_spec in Hd.
  unfold updateFareBySegment. rewrite (validSegment_not_rejected_exact seg Hv), Hfast.
  unfold chargeDistance, distanceSteps, consumeBaseDistance.
  cbn [nadd nsub nmul ndiv nltb nzero Math_floor Math_min exact]. unfold Exact.min.
  destruct (Exact.ltb 0 (baseDistanceRemainingKm runtime)) eqn:Hbase; cbn [fst snd].
  - destruct (Qle_bool (baseDistanceRemainingKm runtime) (deltaDistanceKm seg)) eqn:Hle.
    + destruct (Exact.ltb 0 (deltaDistanceKm seg - baseDistanceRemainingKm runtime)) eqn:Hc.
      * destruct (Exact.ltb 0 (Exact.floor _));
          cbn [baseDistanceRemainingKm distanceRemainderKm lowSpeedRemainderSeconds fareYen];
          (split; [field; exact Hfare|reflexivity]).
      * cbn [baseDistanceRemainingKm distanceRemainderKm lowSpeedRemainderSeconds fareYen].
        split; [|reflexivity].
        apply ltb_false in Hc. apply (leb_spec (baseDistanceRemainingKm runtime)) in Hle.
        assert (Heq : deltaDistanceKm seg = baseDistanceRemainingKm runtime).
        { apply Qcle_antisym; [|exact Hle].
          apply Qcle_minus_iff in Hc. apply Qcle_minus_iff.
          replace (baseDistanceRemainingKm runtime + - deltaDistanceKm seg)
            with (0 + - (deltaDistanceKm seg - baseDistanceRemainingKm runtime)) by ring.
          exact Hc. }
        rewrite Heq. field. exact Hfare.
    + replace (deltaDistanceKm seg - deltaDistanceKm seg) with 0 by ring.
      change (Exact.ltb 0 0) with false. cbv iota.
      cbn [baseDistanceRemainingKm distanceRemainderKm lowSpeedRemainderSeconds fareYen].
      split; [field; exact Hfare|reflexivity].
  - destruct (Exact.ltb 0 (deltaDistanceKm seg)) eqn:Hc.
    + destruct (Exact.ltb 0 (Exact.floor _));
        cbn [baseDistanceRemainingKm distanceRemainderKm lowSpeedRemainderSeconds fareYen];
        (split; [field; exact Hfare|reflexivity]).
    + cbn [baseDistanceRemainingKm distanceRemainderKm lowSpeedRemainderSeconds fareYen].
      split; [|reflexivity].
      apply ltb_false in Hc.
      assert (Heq : deltaDistanceKm seg = 0) by (apply Qcle_antisym; assumption).
      rewrite Heq. field. exact Hfare.
Qed.

End ConservationExact.

Lemma lowSpeed_conserves_time_exact_witness :
  let seg := {| deltaDistanceKm := Exact.dec 2 1; deltaSeconds := Exact.dec 200 0;
                speedKmh := Exact.dec 4 0 |} in
  let runtime := createFareRuntime tokyoExact in
  let after := updateFareBySegment tokyoExact runtime seg in
  (lowSpeedRemainderSeconds after
   + (fareYen after - fareYen runtime) / lowSpeedStepFareYen tokyoExact
     * lowSpeedStepSeconds tokyoExact
   = lowSpeedRemainderSeconds runtime + deltaSeconds seg)%Qc
  /\ baseDistanceRemainingKm after = baseDistanceRemainingKm runtime
  /\ distanceRemainderKm after = distanceRemainderKm runtime.
Proof.
  intros seg runtime.
  apply (lowSpeed_conserves_time_exact tokyoExact runtime seg); reflexivity.
Defined.

Lemma distance_conserved_exact_witness :
  let seg := {| deltaDistanceKm := Exact.dec 3 0; deltaSeconds := Exact.dec 360 0;
                speedKmh := Exact.dec 30 0 |} in
  let runtime := createFareRuntime tokyoExact in
  let after := updateFareBySegment tokyoExact runtime seg in
  ((baseDistanceRemainingKm runtime - baseDistanceRemainingKm after)
   + (distanceRemainderKm after - distanceRemainderKm runtime)
   + (fareYen after - fareYen runtime) / distanceStepFareYen tokyoExact
     * distanceStepKm tokyoExact
   = deltaDistanceKm seg)%Qc
  /\ lowSpeedRemainderSeconds after = lowSpeedRemainderSeconds runtime.
Proof.
  intros seg runtime.
  apply (distance_conserved_exact tokyoExact runtime seg); reflexivity.
Defined.

(** ** geo.ts *)

(** X24.  The distance from a point to itself is zero, on every engine
    whose sine of [+0] is [+0], whose [atan2(+0, 1)] is [+0] and whose
    cosines have a finite product, as ECMAScript requires. *)
Theorem distanceKmBetween_same_point `{Host} (a : LatLng) :
  Math_sin 0 = 0%float ->
  Math_atan2 0 1 = 0%float ->
  PrimFloat.is_finite (latitude a) = true ->
  PrimFloat.is_finite (longitude a) = true ->
  PrimFloat.is_finite (Math_cos (Geo.toRadians (latitude a))
                       * Math_cos (Geo.toRadians (latitude a)))%float = true ->
  Geo.distanceKmBetween a a = 0%float.
Proof.
  intros Hsin Hatan Hlat Hlon Hcos.
  unfold Geo.distanceKmBetween.
  rewrite (Binary64Facts.sub_diag_finite _ Hlat), (Binary64Facts.sub_diag_finite _ Hlon).
  change (Geo.toRadians 0 / 2)%float with 0%float.
  rewrite Hsin, (Binary64Facts.zero_plus_finite_times_zero _ Hcos).
  change (PrimFloat.sqrt 0) with 0%float.
  change (PrimFloat.sqrt (1 - 0)) with 1%float.
  rewrite Hatan. reflexivity.
Qed.

Lemma distanceKmBetween_same_point_witness :
  @Geo.distanceKmBetween HostModel.host
    {| latitude := 35; longitude := 139 |} {| latitude := 35; longitude := 139 |}
  = 0%float.
Proof.
  apply (@distanceKmBetween_same_point HostModel.host {| latitude := 35; longitude := 139 |});
    reflexivity.
Defined.

(** X25.  A duration that is zero or negative, minus infinity included,
    is shown as the zero duration: [00:00:00] wherever the engine prints
    the number 0 as [0]. *)
Theorem formatDuration_not_positive `{Host} (ms : float) :
  (ms <=? 0)%float = true ->
  Geo.formatDuration ms = Geo.formatDuration 0
  /\ (Number_toString 0 = "0"%string -> Geo.formatDuration ms = "00:00:00"%string).
Proof.
  intros Hms.
  assert (Htotal : Binary64.max 0 (Binary64.floor (ms / 1000)) = 0%float).
  { apply Binary64Facts.max_zero_nonpos, Binary64Facts.floor_nonpos.
    apply (Binary64Facts.div_pos_finite_nonpos ms 1000%float 8796093022208000 (-43));
      [reflexivity|exact Hms]. }
  assert (Hzero : Geo.formatDuration ms = Geo.formatDuration 0).
  { unfold Geo.formatDuration. rewrite Htotal. reflexivity. }
  split; [exact Hzero|].
  intros Hprint. rewrite Hzero. unfold Geo.formatDuration.
  change (Binary64.max 0 (Binary64.floor (0 / 1000))) with 0%float.
  change (Binary64.floor (0 / 3600)) with 0%float.
  change (Binary64.floor (Geo.rem 0 3600 / 60)) with 0%float.
  change (Binary64.floor (Geo.rem 0 60)) with 0%float.
  rewrite Hprint. reflexivity.
Qed.

Lemma formatDuration_not_positive_witness :
  @Geo.formatDuration HostModel.host (-2500)
  = @Geo.formatDuration HostModel.host 0
  /\ (@Number_toString HostModel.host 0 = "0"%string ->
      @Geo.formatDuration HostModel.host (-2500) = "00:00:00"%string).
Proof.
  apply (@formatDuration_not_positive HostModel.host (-2500)%float). reflexivity.
Defined.
